(** * bucky3: the push pipeline and its supervisor

    A shallow embedding of the plaintext (carbon) encoder, the bulk
    (elasticsearch) encoder, their push operations and the supervisor's
    command line, main loop and shutdown sequence, with the properties the
    design document states about them and further properties that the
    code shows.

    Conventions.
    - A Python [str] is a [string]; every character is a code point below
      256, so the byte order of [String.compare] is Python's code point
      order.
    - A Python [dict] is an association list in insertion order with
      pairwise distinct keys ([dict_wf]).
    - A Python exception is a value of [exn]; code that can raise returns
      [result A = exn + A].
    - What the Python runtime supplies (the text of a float, [uuid.uuid5],
      the compressors) is a field of the class [PyRuntime]. *)

From Stdlib Require Import ZArith QArith Qround Ascii String.
From Stdlib.Strings Require Import Byte.
From Stdlib Require Import Decimal DecimalString DecimalPos DecimalZ.
From stdpp Require Import base tactics option list sorting strings gmap.

Local Open Scope string_scope.
Local Open Scope list_scope.
Local Open Scope Z_scope.

(** The line feed character, as a string. *)
Definition LF : string := String (ascii_of_nat 10) "".

(** ** Exceptions and results *)

Inductive exn :=
| KeyError (k : string)          (* dict.pop / dict[k] on a missing key *)
| TypeError                      (* a value of the wrong Python type *)
| RangeError                     (* ValueError, OverflowError or OSError of
                                    a timestamp no datetime can hold *)
| ConnectionError (msg : string) (* raised by the code itself *)
| NetworkError                   (* raised by the socket or HTTP layer *)
| BuckyError (msg : string).

Definition result (A : Type) : Type := exn + A.

Definition ret {A} (a : A) : result A := inr a.
Definition raise {A} (e : exn) : result A := inl e.

Definition bind {A B} (m : result A) (k : A → result B) : result B :=
  match m with
  | inl e => inl e
  | inr a => k a
  end.

Declare Scope py_scope.
Delimit Scope py_scope with py.
Notation "'let*' x ':=' m 'in' k" := (bind m (fun x => k))
  (at level 10, x pattern, m at level 100, k at level 200) : py_scope.
Local Open Scope py_scope.

Definition returns {A} (m : result A) : Prop := ∃ a, m = inr a.
Definition raises {A} (m : result A) : Prop := ∃ e, m = inl e.

Fixpoint mapM {A B} (f : A → result B) (l : list A) : result (list B) :=
  match l with
  | [] => ret []
  | a :: l' => let* b := f a in let* bs := mapM f l' in ret (b :: bs)
  end.

(** ** Python dictionaries *)

Definition dict (V : Type) : Type := list (string * V).

Section Dict.
Context {V : Type}.

Definition dict_keys (d : dict V) : list string := d.*1.

Definition dict_wf (d : dict V) : Prop := NoDup (dict_keys d).

Fixpoint dict_get (k : string) (d : dict V) : option V :=
  match d with
  | [] => None
  | (k', v) :: d' => if decide (k = k') then Some v else dict_get k d'
  end.

(** [k in d] *)
Definition dict_has (k : string) (d : dict V) : bool :=
  bool_decide (is_Some (dict_get k d)).

(** [d[k]] *)
Definition dict_item (k : string) (d : dict V) : result V :=
  match dict_get k d with
  | Some v => ret v
  | None => raise (KeyError k)
  end.

Fixpoint dict_del (k : string) (d : dict V) : dict V :=
  match d with
  | [] => []
  | (k', v) :: d' => if decide (k = k') then d' else (k', v) :: dict_del k d'
  end.

(** [d.pop(k)]: the value and the dictionary without the key *)
Definition dict_pop (k : string) (d : dict V) : result (V * dict V) :=
  match dict_get k d with
  | Some v => ret (v, dict_del k d)
  | None => raise (KeyError k)
  end.

(** [d[k] = v]: an existing key keeps its position, a new one goes last *)
Fixpoint dict_set (k : string) (v : V) (d : dict V) : dict V :=
  match d with
  | [] => [(k, v)]
  | (k', v') :: d' =>
      if decide (k = k') then (k, v) :: d' else (k', v') :: dict_set k v d'
  end.

(** The mapping a dictionary denotes, with its order forgotten. *)
Definition dict_content (d : dict V) : gmap string V := list_to_map d.
End Dict.

(** [sorted(...)] on strings *)
Definition sorted (l : list string) : list string := merge_sort String.le l.

(** ** Python values *)

Definition bytes : Type := list byte.

(** The part of the Python runtime the code relies on. [float] is the type
    of finite floats, [float_val f] the rational that [f] denotes,
    [float_repr f] its [repr], [float_of_str s] is [float(s)] where that
    is a finite float; [uuid5 ns name] is the text of
    [uuid.uuid5(ns, name)]; the compressors are [gzip.compress] and
    [zlib.compress]. *)
Class PyRuntime := {
  float : Type;
  float_val : float → Q;
  float_repr : float → string;
  float_of_str : string → option float;
  uuid5 : string → string → string;
  gzip_compress : bytes → bytes;
  zlib_compress : bytes → bytes
}.

Section Values.
Context `{PyRuntime}.

Inductive pynum :=
| NInt (z : Z)
| NFloat (f : float).

Inductive pyval :=
| PyNone
| PyStr (s : string)
| PyNum (n : pynum).

Definition num_val (n : pynum) : Q :=
  match n with
  | NInt z => inject_Z z
  | NFloat f => float_val f
  end.

(** [str(z)] for an int *)
Definition str_int (z : Z) : string := NilZero.string_of_int (Z.to_int z).

(** [str(v)], what [%s] prints *)
Definition py_str (v : pyval) : string :=
  match v with
  | PyNone => "None"
  | PyStr s => s
  | PyNum (NInt z) => str_int z
  | PyNum (NFloat f) => float_repr f
  end.

(** [math.trunc]: the integer part, toward zero *)
Definition Qtrunc (q : Q) : Z := Z.quot (Qnum q) (Z.pos (Qden q)).

(** [int(n)] *)
Definition py_int (n : pynum) : Z :=
  match n with
  | NInt z => z
  | NFloat f => Qtrunc (float_val f)
  end.

(** [bool(v)] *)
Definition truthy (v : pyval) : bool :=
  match v with
  | PyNone => false
  | PyStr s => negb (bool_decide (s = ""))
  | PyNum n => negb (Qnum (num_val n) =? 0)
  end.

(** [sep.join(parts)]: every part has to be a [str] *)
Definition as_str (v : pyval) : result string :=
  match v with
  | PyStr s => ret s
  | _ => raise TypeError
  end.

Definition str_join (sep : string) (parts : list pyval) : result string :=
  let* ss := mapM as_str parts in ret (String.concat sep ss).

(** [s.encode('utf-8')] for code points below 256 *)
Definition utf8_char (c : ascii) : bytes :=
  let n := N_of_ascii c in
  if (n <? 128)%N then [byte_of_ascii c]
  else [byte_of_ascii (ascii_of_N (192 + n / 64));
        byte_of_ascii (ascii_of_N (128 + n mod 64))].

Fixpoint encode (s : string) : bytes :=
  match s with
  | EmptyString => []
  | String c s' => utf8_char c ++ encode s'
  end.
End Values.

(** ** The push client's buffer and flush *)

Module PushClient.
(** A push client owns its socket, absent until a connection is made,
    and its Buffer of fragments that wait for a flush. *)
Record state := {
  socket : option nat;
  buffer : list string
}.

(** Modelled from the spec: [flush] of bucky3/module.py, which is not
    among the sources. With a Buffer that is not empty it invokes the
    backend's push; on success the sent fragments are cleared, on a
    failure the socket is dropped and the Buffer is left as the push
    left it. The result holds the calls the push made on the network
    and whether the flush succeeded. *)
Definition flush {call : Type}
    (push : state → state * list call * result unit) (st : state)
  : state * list call * bool :=
  match buffer st with
  | [] => (st, [], true)
  | _ :: _ =>
      match push st with
      | (st', calls, inr _) =>
          ({| socket := socket st'; buffer := [] |}, calls, true)
      | (st', calls, inl _) =>
          ({| socket := None; buffer := buffer st' |}, calls, false)
      end
  end.

(** Modelled from the spec: between flushes the Buffer is appended to. *)
Definition append (fragments : list string) (st : state) : state :=
  {| socket := socket st; buffer := buffer st ++ fragments |}.
End PushClient.

(** ** The plaintext encoder (bucky/carbon.py) *)

Module Carbon.
Section Carbon.
Context `{PyRuntime}.

(** [self.cfg['name_mapping']] *)
Variable name_mapping : list string.

Definition found_mappings (metadata : dict pyval) : list string :=
  filter (λ k, dict_has k metadata) name_mapping.

(** [[metadata.pop(k) for k in ks]], left to right, with the dictionary
    the pops leave behind *)
Fixpoint pop_each (ks : list string) (metadata : dict pyval)
  : result (list pyval * dict pyval) :=
  match ks with
  | [] => ret ([], metadata)
  | k :: ks' =>
      let* (v, metadata') := dict_pop k metadata in
      let* (vs, metadata'') := pop_each ks' metadata' in
      ret (v :: vs, metadata'')
  end.

Definition build_name (metadata : dict pyval) : result string :=
  let* (buf, metadata') := pop_each (found_mappings metadata) metadata in
  let* rest := mapM (λ k, dict_item k metadata') (sorted (dict_keys metadata')) in
  str_join "." (buf ++ rest).

(** The loop of [process_values] over [values.items()]: the buffer with
    the lines appended so far, and the exception that stopped the loop
    if one did. *)
Fixpoint process_fields (bucket : string) (fields : dict pyval)
    (timestamp : pynum) (metadata : dict pyval) (buffer : list string)
  : list string * result unit :=
  match fields with
  | [] => (buffer, ret tt)
  | (k, v) :: fields' =>
      let value_metadata :=
        dict_set "value" (PyStr k) (dict_set "bucket" (PyStr bucket) metadata) in
      match build_name value_metadata with
      | inl e => (buffer, raise e)
      | inr name =>
          let line := name +:+ " " +:+ py_str v +:+ " "
                           +:+ str_int (py_int timestamp) +:+ LF in
          process_fields bucket fields' timestamp metadata (buffer ++ [line])
      end
  end.

(** [metadata=None] is the default; [metadata or {}] *)
Definition process_values (buffer : list string) (bucket : string)
    (values : dict pyval) (timestamp : pynum)
    (metadata : option (dict pyval)) : list string * result unit :=
  process_fields bucket values timestamp (default [] metadata) buffer.

(** *** [push_buffer] *)

Inductive net_call :=
| Connect
| SendAll (sock : nat) (payload : bytes).

(** What the socket layer answers: the socket [get_tcp_socket] returns
    unless it raises, and whether [sendall] raises. *)
Record net_env := {
  on_connect : result nat;
  on_sendall : result unit
}.

(** [self.socket or self.get_tcp_socket(connect=True)] *)
Definition current_socket (env : net_env) (st : PushClient.state)
  : list net_call * result nat :=
  match PushClient.socket st with
  | Some sock => ([], ret sock)
  | None => ([Connect], on_connect env)
  end.

(** The client after the call, the calls made on the socket layer, and
    how the call ends *)
Definition push_buffer (env : net_env) (st : PushClient.state)
  : PushClient.state * list net_call * result unit :=
  match current_socket env st with
  | (calls, inl e) => (st, calls, raise e)
  | (calls, inr sock) =>
      let st := {| PushClient.socket := Some sock;
                   PushClient.buffer := PushClient.buffer st |} in
      let payload := encode (String.concat "" (PushClient.buffer st)) in
      (st, calls ++ [SendAll sock payload], on_sendall env)
  end.

(** The push client's flush with this backend's push *)
Definition flush (env : net_env) (st : PushClient.state)
  : PushClient.state * list net_call * bool :=
  PushClient.flush (push_buffer env) st.
End Carbon.
End Carbon.

(** ** The bulk encoder (bucky3/elasticsearch.py) *)

Module Elasticsearch.
Section Elasticsearch.
Context `{PyRuntime}.

(** *** [datetime.utcfromtimestamp] and [strftime] *)

Record datetime := mk_datetime {
  year : Z; month : Z; day : Z;
  hour : Z; minute : Z; second : Z; microsecond : Z
}.

(** [round(q)]: to the nearest integer, a tie to the even one *)
Definition round_half_even (q : Q) : Z :=
  let f := Qfloor q in
  match Qcompare (q - inject_Z f) (1 # 2) with
  | Lt => f
  | Gt => f + 1
  | Eq => if Z.even f then f else f + 1
  end.

(** [2^e] as a rational *)
Definition Qpow2 (e : Z) : Q :=
  if 0 <=? e then inject_Z (2 ^ e) else 1 # Z.to_pos (2 ^ (- e)).

(** [floor (log2 |q|)], for [q] other than zero *)
Definition binade (q : Q) : Z :=
  let n := Z.abs (Qnum q) in
  let d := Z.pos (Qden q) in
  let e := Z.log2 n - Z.log2 d in
  if d * 2 ^ Z.max e 0 <=? n * 2 ^ Z.max (- e) 0 then e else e - 1.

(** The double nearest to [q], a tie going to the even significand, as
    the product of two doubles is rounded: the doubles of the binade of
    [q] are the multiples of [2^e] that 53 bits hold, and the smallest
    ones the multiples of [2^-1074]. [q] is taken to be within the range
    of the doubles. *)
Definition round_double (q : Q) : Q :=
  if Qnum q =? 0 then 0%Q
  else
    let e := Z.max (binade q - 52) (-1074) in
    (inject_Z (round_half_even (q * Qpow2 (- e))) * Qpow2 e)%Q.

(** Seconds and microseconds of a timestamp. An int has no fraction; a
    float is split by [modf], its fraction scaled to microseconds, the
    product being a double, and rounded, with the carry into the
    seconds. *)
Definition timeval (t : pynum) : Z * Z :=
  match t with
  | NInt z => (z, 0)
  | NFloat f =>
      let q := float_val f in
      let intpart := Qtrunc q in
      let scaled := round_double ((q - inject_Z intpart) * inject_Z 1000000) in
      let us := round_half_even scaled in
      if us >=? 1000000 then (intpart + 1, us - 1000000)
      else if us <? 0 then (intpart - 1, us + 1000000)
      else (intpart, us)
  end.

Definition DAYS_IN_MONTH : list Z :=
  [-1; 31; 28; 31; 30; 31; 30; 31; 31; 30; 31; 30; 31].
Definition DAYS_BEFORE_MONTH : list Z :=
  [-1; 0; 31; 59; 90; 120; 151; 181; 212; 243; 273; 304; 334].

Definition table (t : list Z) (i : Z) : Z := nth (Z.to_nat i) t 0.

(** Month and day of the [n]-th day (from 0) of a year *)
Definition month_day (leapyear : bool) (n : Z) : Z * Z :=
  let month := Z.shiftr (n + 50) 5 in
  let preceding :=
    table DAYS_BEFORE_MONTH month + (if (month >? 2) && leapyear then 1 else 0) in
  if preceding >? n then
    let month := month - 1 in
    let preceding :=
      preceding - (table DAYS_IN_MONTH month
                   + (if (month =? 2) && leapyear then 1 else 0)) in
    (month, n - preceding + 1)
  else (month, n - preceding + 1).

(** Year, month and day of a proleptic Gregorian ordinal (day 1 is
    0001-01-01), as [datetime] computes them *)
Definition ord2ymd (ordinal : Z) : Z * Z * Z :=
  let n := ordinal - 1 in
  let n400 := n / 146097 in
  let n := n mod 146097 in
  let n100 := n / 36524 in
  let n := n mod 36524 in
  let n4 := n / 1461 in
  let n := n mod 1461 in
  let n1 := n / 365 in
  let n := n mod 365 in
  let year := n400 * 400 + 1 + n100 * 100 + n4 * 4 + n1 in
  if (n1 =? 4) || (n100 =? 4) then (year - 1, 12, 31)
  else
    let leapyear := (n1 =? 3) && (negb (n4 =? 24) || (n100 =? 3)) in
    let '(month, day) := month_day leapyear n in
    (year, month, day).

(** The ordinal of 1970-01-01 *)
Definition EPOCH_ORDINAL : Z := 719163.

(** A timestamp whose year is not in 1..9999 raises. *)
Definition utcfromtimestamp (t : pynum) : result datetime :=
  let '(sec, us) := timeval t in
  let days := sec / 86400 in
  let rem := sec mod 86400 in
  let '(y, m, d) := ord2ymd (EPOCH_ORDINAL + days) in
  if (1 <=? y) && (y <=? 9999) then
    ret {| year := y; month := m; day := d;
           hour := rem / 3600; minute := rem mod 3600 / 60;
           second := rem mod 60; microsecond := us |}
  else raise RangeError.

Fixpoint zeros (n : nat) : string :=
  match n with
  | O => ""
  | S n' => "0" +:+ zeros n'
  end.

(** [%0wd] for a number that is not negative *)
Definition zpad (w : nat) (z : Z) : string :=
  let s := str_int z in zeros (w - String.length s) +:+ s.

(** [strftime('%Y-%m-%d %H:%M:%S.%f')]; [%Y] is the C library's, which
    does not pad a year below 1000 *)
Definition strftime (dt : datetime) : string :=
  str_int (year dt) +:+ "-" +:+ zpad 2 (month dt) +:+ "-" +:+ zpad 2 (day dt)
  +:+ " " +:+ zpad 2 (hour dt) +:+ ":" +:+ zpad 2 (minute dt)
  +:+ ":" +:+ zpad 2 (second dt) +:+ "." +:+ zpad 6 (microsecond dt).

(** [s[:-n]] *)
Definition drop_last (n : nat) (s : string) : string :=
  substring 0 (String.length s - n) s.

(** *** [json.dumps] with [separators=(',', ':')] *)

Definition DQ : string := String (ascii_of_nat 34) "".
Definition BS : string := String (ascii_of_nat 92) "".

Definition hex_digit (n : N) : string :=
  substring (N.to_nat n) 1 "0123456789abcdef".

Definition json_escape (c : ascii) : string :=
  let n := N_of_ascii c in
  if (n =? 34)%N then BS +:+ DQ
  else if (n =? 92)%N then BS +:+ BS
  else if (n =? 10)%N then BS +:+ "n"
  else if (n =? 13)%N then BS +:+ "r"
  else if (n =? 9)%N then BS +:+ "t"
  else if (n =? 12)%N then BS +:+ "f"
  else if (n =? 8)%N then BS +:+ "b"
  else if ((32 <=? n) && (n <=? 126))%N then String c ""
  else BS +:+ "u00" +:+ hex_digit (n / 16) +:+ hex_digit (n mod 16).

Fixpoint json_escape_all (s : string) : string :=
  match s with
  | EmptyString => ""
  | String c s' => json_escape c +:+ json_escape_all s'
  end.

Definition json_string (s : string) : string :=
  DQ +:+ json_escape_all s +:+ DQ.

Definition json_value (v : pyval) : string :=
  match v with
  | PyNone => "null"
  | PyStr s => json_string s
  | PyNum (NInt z) => str_int z
  | PyNum (NFloat f) => float_repr f
  end.

(** An object whose members are already encoded *)
Definition json_object (members : list (string * string)) : string :=
  "{" +:+ String.concat "," (map (λ m, json_string m.1 +:+ ":" +:+ m.2) members)
      +:+ "}".

(** [sort_keys=True]: the items in the order of their keys *)
Definition sorted_items (d : dict pyval) : list (string * pyval) :=
  omap (λ k, pair k <$> dict_get k d) (sorted (dict_keys d)).

Definition json_dumps (sort_keys : bool) (d : dict pyval) : string :=
  json_object
    (map (λ kv, (kv.1, json_value kv.2)) (if sort_keys then sorted_items d else d)).

(** [str(uuid.NAMESPACE_DNS)] *)
Definition NAMESPACE_DNS : string := "6ba7b810-9dad-11d1-80b4-00c04fd430c8".

(** *** The client *)

(** An index-naming function is taken to be a function of its three
    arguments: it changes none of them and does not raise. *)
Definition index_fn : Type := string → dict pyval → pynum → pyval.

(** [cfg['index_name']]: a function, or a value ([None] when unset) *)
Inductive index_cfg :=
| IndexValue (v : pyval)
| IndexCallable (f : index_fn).

Record cfg := {
  cfg_index_name : index_cfg;
  cfg_type_name : pyval;
  cfg_compression : pyval
}.

Record client := {
  index_name : option index_fn;
  type_name : pyval;
  compression : string;
  (** what [merge_dict] with one argument makes of that argument *)
  merge_defaults : dict pyval → dict pyval;
  buffer : list string
}.

Definition init_cfg (c : cfg) (defaults : dict pyval → dict pyval)
    (buf : list string) : client :=
  {| index_name :=
       match cfg_index_name c with
       | IndexValue PyNone => None
       | IndexValue static_index_name => Some (λ _ _ _, static_index_name)
       | IndexCallable f => Some f
       end;
     type_name := cfg_type_name c;
     compression :=
       match cfg_compression c with
       | PyStr s =>
           if bool_decide (s = "gzip") || bool_decide (s = "deflate") then s
           else "identity"
       | _ => "identity"
       end;
     merge_defaults := defaults;
     buffer := buf |}.

(** Modelled from the spec: [merge_dict] of bucky3/module.py, which is
    not among the sources. With a source it copies into [dst] the keys of
    [src] that [dst] lacks, so that what [dst] holds wins; without one
    the design document does not say what is merged, and the client's
    [merge_defaults] stands for it. *)
Definition merge_dict (c : client) (dst : dict pyval)
    (src : option (dict pyval)) : dict pyval :=
  match src with
  | Some src =>
      fold_left (λ d kv, if dict_has kv.1 d then d else dict_set kv.1 kv.2 d)
                src dst
  | None => merge_defaults c dst
  end.

(** Modelled from the spec: [buffer_output] of bucky3/module.py, which
    is not among the sources; it appends one fragment to the Buffer. *)
Definition buffer_output (c : client) (fragment : string) : list string :=
  buffer c ++ [fragment].

(** [timestamp or recv_timestamp] *)
Definition effective_timestamp (timestamp : option pynum)
    (recv_timestamp : pynum) : pynum :=
  match timestamp with
  | Some t => if truthy (PyNum t) then t else recv_timestamp
  | None => recv_timestamp
  end.

(** The index name, and [values] as the resolution leaves it *)
Definition resolve_index (c : client) (bucket : string)
    (values : dict pyval) (timestamp : pynum) : dict pyval * pyval :=
  match index_name c with
  | Some f =>
      let values := dict_set "bucket" (PyStr bucket) values in
      (values, f bucket values timestamp)
  | None => (values, PyStr bucket)
  end.

(** [json.dumps({"index": {"_index": .., "_type": .., "_id": ..}})] *)
Definition action_line (index_name type_name : pyval) (doc_id : string)
  : string :=
  json_object
    [("index",
      json_object [("_index", json_value index_name);
                   ("_type", json_value type_name);
                   ("_id", json_value (PyStr doc_id))])].

(** What a call leaves behind: the Buffer and the two dictionaries it
    was given, which it changes in place. *)
Record outcome := {
  out_buffer : list string;
  out_values : dict pyval;
  out_metadata : dict pyval
}.

Definition process_values (c : client) (recv_timestamp : pynum)
    (bucket : string) (values : dict pyval) (timestamp : option pynum)
    (metadata : dict pyval) : result outcome :=
  let metadata := merge_dict c metadata None in
  let values := merge_dict c values (Some metadata) in
  let timestamp := effective_timestamp timestamp recv_timestamp in
  let* dt := utcfromtimestamp timestamp in
  let timestamp_str := drop_last 3 (strftime dt) in
  let values := dict_set "timestamp" (PyStr timestamp_str) values in
  let '(values, index_name) := resolve_index c bucket values timestamp in
  if negb (truthy index_name) then
    ret {| out_buffer := buffer c; out_values := values;
           out_metadata := metadata |}
  else
    let type_name := if truthy (type_name c) then type_name c else PyStr bucket in
    let doc_str := json_dumps true values in
    let doc_id := uuid5 NAMESPACE_DNS doc_str in
    let req_str := action_line index_name type_name doc_id in
    ret {| out_buffer := buffer_output c (req_str +:+ LF +:+ doc_str +:+ LF);
           out_values := values; out_metadata := metadata |}.

(** *** The connection *)

Inductive http_call :=
| Request (method url : string) (body : bytes) (headers : dict string)
| GetResponse
| Read.

(** What the network answers to the three calls of one upload: whether
    [request] raises, the status [getresponse] reports unless it raises,
    and the body [read] returns unless it raises. *)
Record http_env := {
  on_request : result unit;
  on_getresponse : result Z;
  on_read : result bytes
}.

Definition compressor (compression : string) : bytes → bytes :=
  if bool_decide (compression = "gzip") then gzip_compress
  else if bool_decide (compression = "deflate") then zlib_compress
  else λ x, x.

(** The calls made on the connection, in order, and how the upload ends *)
Definition bulk_upload (compression : string) (env : http_env)
    (docs : list string) : list http_call * result unit :=
  let body := encode (String.concat "" docs) in
  let headers := [("Content-Type", "application/x-ndjson")] in
  let body := compressor compression body in
  let headers :=
    dict_set "Accept-Encoding" compression
      (dict_set "Content-Encoding" compression headers) in
  let req := Request "POST" "/_bulk" body headers in
  match on_request env with
  | inl e => ([req], raise e)
  | inr _ =>
      match on_getresponse env with
      | inl e => ([req; GetResponse], raise e)
      | inr status =>
          if negb (status =? 200) then
            ([req; GetResponse],
             raise (ConnectionError ("Elasticsearch error code " +:+ str_int status)))
          else
            match on_read env with
            | inl e => ([req; GetResponse; Read], raise e)
            | inr _ => ([req; GetResponse; Read], ret tt)
            end
      end
  end.

(** [push_chunk]: the fragments of the chunk that are left to send *)
Definition push_chunk (c : client) (env : http_env) (chunk : list string)
  : list http_call * result (list string) :=
  let '(calls, r) := bulk_upload (compression c) env chunk in
  (calls, let* _ := r in ret []).

(** [flush]: the push client's flush, the push being [push_chunk] on the
    whole Buffer over a new connection; the fragments [push_chunk]
    returns are none, and the flush clears what was sent. *)
Definition flush (c : client) (env : http_env) (st : PushClient.state)
  : PushClient.state * list http_call * bool :=
  PushClient.flush
    (λ st, let '(calls, r) := push_chunk c env (PushClient.buffer st) in
           (st, calls, let* _ := r in ret tt))
    st.
End Elasticsearch.
End Elasticsearch.

(** ** The supervisor (bucky/main.py) *)

Module Main.
(** *** [main]: the [--metadata] items *)

(** [s.split(sep)] for a separator of one character *)
Fixpoint split (sep : ascii) (s : string) : list string :=
  match s with
  | EmptyString => [""]
  | String c s' =>
      if bool_decide (c = sep) then "" :: split sep s'
      else match split sep s' with
           | h :: t => String c h :: t
           | [] => [String c ""]
           end
  end.

(** [kv[n]], for an index in range *)
Definition part (n : nat) (kv : list string) : string := nth n kv "".

(** One round of [for i in cfg.metadata]; a value is a [str] or [None]. *)
Definition add_metadata (metadata : dict (option string)) (i : string)
  : dict (option string) :=
  let kv := split "=" i in
  if (1 <? length kv)%nat then dict_set (part 0 kv) (Some (part 1 kv)) metadata
  else
    let kv := split ":" i in
    if (1 <? length kv)%nat then dict_set (part 0 kv) (Some (part 1 kv)) metadata
    else dict_set (part 0 kv) None metadata.

(** The dictionary that replaces [cfg.metadata], which is a list of
    items, or [None] when the option was not given *)
Definition parse_metadata (cfg_metadata : option (list string))
  : dict (option string) :=
  match cfg_metadata with
  | Some ((_ :: _) as items) => fold_left add_metadata items []
  | _ => []
  end.

Section Main.
(** The type of Samples; what the supervisor does with one does not
    depend on what it holds. *)
Context {sample : Type}.

(** [cfg.process_join_timeout] *)
Variable process_join_timeout : Z.
(** [str(children)], the text of a list of processes *)
Variable repr_children : list string → string.

(** What the supervisor does to the processes around it, each named by
    its process name. [Send c (Some s)] is [pipe.send(sample)] on the
    channel of client [c], [Send c None] is [pipe.send(None)]. *)
Inductive action :=
| Start (p : string)
| Close (p : string)
| Join (p : string) (timeout : Z)
| Send (c : string) (item : option sample)
| Terminate (p : string).

(** A computation that acts on the processes and returns or raises. The
    calls on processes and pipes are taken to return; of the calls of the
    main loop only the wait on the queue raises. *)
Definition M (A : Type) : Type := list action * result A.

Definition unit_M {A} (a : A) : M A := ([], ret a).
Definition raise_M {A} (e : exn) : M A := ([], raise e).
Definition emit (a : action) : M unit := ([a], ret tt).

Definition bind_M {A B} (m : M A) (k : A → M B) : M B :=
  match m with
  | (tr, inl e) => (tr, inl e)
  | (tr, inr a) => let '(tr', r) := k a in (tr ++ tr', r)
  end.

Definition then_M {A B} (m : M A) (k : M B) : M B := bind_M m (λ _, k).

(** [for x in l: body(x)] *)
Fixpoint for_each {A} (l : list A) (body : A → M unit) : M unit :=
  match l with
  | [] => unit_M tt
  | x :: l' => then_M (body x) (for_each l' body)
  end.

(** The supervisor's collectors and clients, in the order of
    [self.servers] and [self.clients] *)
Variable servers : list string.
Variable clients : list string.

(** [active_children] is what [multiprocessing.active_children()]
    answers when the shutdown asks. *)
Definition shutdown (active_children : list string) (err : string) : M unit :=
  let stop_servers :=
    for_each servers (λ server,
      then_M (emit (Close server)) (emit (Join server process_join_timeout))) in
  let stop_clients :=
    for_each clients (λ client,
      then_M (emit (Send client None))
             (emit (Join client process_join_timeout))) in
  let children :=
    filter (λ child, negb (String.prefix "SyncManager" child)) active_children in
  let terminate :=
    for_each children (λ child,
      then_M (emit (Terminate child)) (emit (Join child 1))) in
  let err :=
    if negb (bool_decide (children = [])) && bool_decide (err = "")
    then "Not all children died gracefully: " +:+ repr_children children
    else err in
  then_M stop_servers
    (then_M stop_clients
       (then_M terminate
          (if negb (bool_decide (err = "")) then raise_M (BuckyError err)
           else unit_M tt))).

(** The actions of a shutdown, as the design document orders them:
    every collector stopped and joined, every client sent the sentinel
    and joined, every child still active terminated and joined, but for
    the children whose name starts with [SyncManager]. *)
Definition stop_actions (active_children : list string) : list action :=
  flat_map (λ s, [Close s; Join s process_join_timeout]) servers
  ++ flat_map (λ c, [Send c None; Join c process_join_timeout]) clients
  ++ flat_map (λ ch, [Terminate ch; Join ch 1])
       (filter (λ child, negb (String.prefix "SyncManager" child))
               active_children).

(** An action that forwards a Sample to a client *)
Definition sends_sample (a : action) : Prop :=
  ∃ c s, a = Send c (Some s).

(** What [self.sampleq.get(True, 1)] does in one iteration *)
Inductive polled :=
| Got (s : sample)       (* a Sample *)
| GotNone                (* the sentinel *)
| Empty                  (* the wait timed out *)
| IOError
| KeyboardInterrupt.

(** The surroundings of one iteration of the main loop: what the queue
    yields, which processes [is_alive()] reports alive, and the children
    still active should a shutdown ask. *)
Record tick := {
  poll : polled;
  alive : string → bool;
  active_children : list string
}.

Inductive ctl := Continue | Break.

(** [for instance, pipe in self.clients: ...] *)
Definition forward (t : tick) (s : sample) : M unit :=
  for_each clients (λ instance,
    then_M (if negb (alive t instance)
            then shutdown (active_children t) "Client process died. Exiting."
            else unit_M tt)
           (emit (Send instance (Some s)))).

(** [for srv in self.servers: ...] *)
Definition check_servers (t : tick) : M unit :=
  for_each servers (λ srv,
    if negb (alive t srv)
    then shutdown (active_children t) "Server thread died. Exiting."
    else unit_M tt).

(** One iteration of [while True] *)
Definition iteration (t : tick) : M ctl :=
  match poll t with
  | Got s => then_M (forward t s) (then_M (check_servers t) (unit_M Continue))
  | GotNone => unit_M Break
  | Empty => then_M (check_servers t) (unit_M Continue)
  | IOError => unit_M Continue
  | KeyboardInterrupt => unit_M Break
  end.

(** The loop over the iterations that [ticks] describes: the tick at
    which it was left by [break], or [None] if it is still looping when
    the ticks run out. *)
Fixpoint loop (ticks : list tick) : M (option tick) :=
  match ticks with
  | [] => unit_M None
  | t :: ticks' =>
      bind_M (iteration t) (λ c,
        match c with
        | Continue => loop ticks'
        | Break => unit_M (Some t)
        end)
  end.

(** [run]: [Some tt] when it returned, [None] when it is still looping *)
Definition run (ticks : list tick) : M (option unit) :=
  then_M (for_each servers (λ server, emit (Start server)))
    (then_M (for_each clients (λ client, emit (Start client)))
       (bind_M (loop ticks) (λ left,
          match left with
          | Some t => then_M (shutdown (active_children t) "") (unit_M (Some tt))
          | None => unit_M None
          end))).

(** The exit status of the executable: an exception that leaves [main]
    ends the interpreter with status 1. *)
Definition exit_status (r : result unit) : Z :=
  match r with
  | inr _ => 0
  | inl _ => 1
  end.
End Main.
End Main.

(** ** Decimal digits

    [dec w n] is [n] in [w] decimal digits, the way [%0wd] prints a number
    below [10^w]; [lu w n] is the same digits, the last one first, as a
    [Decimal.uint]; [nines w] is the pattern of [w] digits. *)

Definition digit_char (r : Z) : string := substring (Z.to_nat r) 1 "0123456789".

Fixpoint dec (w : nat) (n : Z) : string :=
  match w with
  | O => ""
  | S w' => dec w' (n / 10) +:+ digit_char (n mod 10)
  end.

Fixpoint nines (w : nat) : string :=
  match w with
  | O => ""
  | S w' => nines w' +:+ "9"
  end.

Definition lu_digit (r : Z) (l : Decimal.uint) : Decimal.uint :=
  match r with
  | 0 => D0 l | 1 => D1 l | 2 => D2 l | 3 => D3 l | 4 => D4 l
  | 5 => D5 l | 6 => D6 l | 7 => D7 l | 8 => D8 l | _ => D9 l
  end.

Fixpoint lu (w : nat) (n : Z) : Decimal.uint :=
  match w with
  | O => Nil
  | S w' => lu_digit (n mod 10) (lu w' (n / 10))
  end.

(** Whether [month_day] yields a month in 1..12 and a day in 1..31 *)
Definition month_day_ok (leap : bool) (n : Z) : bool :=
  let '(m, d) := Elasticsearch.month_day leap n in
  (1 <=? m) && (m <=? 12) && (1 <=? d) && (d <=? 31).

(** ** What the design document says, in its own words *)

Section Described.
Context `{PyRuntime}.

(** The metric name of a mapping [m] under the configured order [o]: the
    values of the keys of [o] that [m] has, in the order of [o], then the
    values of the remaining keys of [m] in the order of the keys, joined
    by dots. *)
Definition dotted_name (o : list string) (m : gmap string string) : string :=
  String.concat "."
    (omap (λ k, m !! k) o
     ++ omap (λ k, m !! k) (sorted (elements (dom m ∖ list_to_set o)))).

(** A metadata mapping all of whose values are strings *)
Definition str_dict (m : dict string) : dict pyval :=
  (λ kv, (kv.1, PyStr kv.2)) <$> m.

(** Reading a line of the plaintext protocol back. The line ends in a
    line feed; its last two blanks delimit the value and the timestamp,
    and what comes before them is the name. *)
Definition is_blank (c : ascii) : bool := (N_of_ascii c =? 32)%N.

Fixpoint blank_free (s : string) : bool :=
  match s with
  | EmptyString => true
  | String c s' => negb (is_blank c) && blank_free s'
  end.

Fixpoint chop_lf (s : string) : option string :=
  match s with
  | EmptyString => None
  | String c s' =>
      match chop_lf s' with
      | Some r => Some (String c r)
      | None =>
          if bool_decide (s' = "") && (N_of_ascii c =? 10)%N then Some ""
          else None
      end
  end.

(** [s.rsplit(' ', 1)] when [s] has a blank *)
Fixpoint rsplit (s : string) : option (string * string) :=
  match s with
  | EmptyString => None
  | String c s' =>
      match rsplit s' with
      | Some (a, b) => Some (String c a, b)
      | None => if is_blank c then Some ("", s') else None
      end
  end.

Definition int_of_str (s : string) : option Z :=
  Z.of_int <$> NilZero.int_of_string s.

(** A number from its text: an int where the text is an int literal,
    else a float *)
Definition num_of_str (s : string) : option pynum :=
  match int_of_str s with
  | Some z => Some (NInt z)
  | None => NFloat <$> float_of_str s
  end.

Definition parse_line (line : string) : option (string * pynum * Z) :=
  l ← chop_lf line;
  '(rest, ts) ← rsplit l;
  '(name, val) ← rsplit rest;
  v ← num_of_str val;
  t ← int_of_str ts;
  Some (name, v, t).

(** What the line protocol needs of the text of a float: it has no
    blank, it is not an int literal, and [float] reads it back. *)
Definition float_text_ok : Prop :=
  ∀ f, blank_free (float_repr f) = true
       ∧ int_of_str (float_repr f) = None
       ∧ float_of_str (float_repr f) = Some f.

(** The shape [YYYY-MM-DD HH:MM:SS.mmm] *)
Definition is_digit (c : ascii) : bool :=
  (48 <=? N_of_ascii c)%N && (N_of_ascii c <=? 57)%N.

Fixpoint shaped (pattern s : string) : bool :=
  match pattern, s with
  | EmptyString, EmptyString => true
  | String p pattern', String c s' =>
      (if (N_of_ascii p =? 57)%N then is_digit c
       else bool_decide (p = c)) && shaped pattern' s'
  | _, _ => false
  end.

(** A [9] of the pattern stands for any digit. *)
Definition is_es_timestamp (s : string) : bool :=
  shaped "9999-99-99 99:99:99.999" s.

(** The number of line feeds in a fragment *)
Fixpoint count_lf (s : string) : nat :=
  match s with
  | EmptyString => O
  | String c s' => ((if (N_of_ascii c =? 10)%N then 1 else 0) + count_lf s')%nat
  end.

(** What the bulk protocol needs of the text of a float: it holds no
    line feed. *)
Definition float_text_one_line : Prop := ∀ f, count_lf (float_repr f) = 0%nat.

(** The minified JSON text of a document, its members in the order of
    their keys, a comma between two members and a colon between a key
    and its value *)
Definition document_text (doc : gmap string pyval) : string :=
  "{"
  +:+ String.concat ","
        (omap (λ k, (λ v, Elasticsearch.json_string k +:+ ":"
                          +:+ Elasticsearch.json_value v) <$> doc !! k)
              (sorted (elements (dom doc))))
  +:+ "}".

Definition quoted (s : string) : string :=
  Elasticsearch.DQ +:+ s +:+ Elasticsearch.DQ.

(** The action line that goes before a document: an object with the one
    member [index], which holds the index name, the type name and the id
    of the document under [_index], [_type] and [_id], in this order *)
Definition action_text (index_name type_name : pyval) (doc_id : string)
  : string :=
  "{" +:+ quoted "index" +:+ ":"
  +:+ ("{" +:+ quoted "_index" +:+ ":" +:+ Elasticsearch.json_value index_name
       +:+ "," +:+ quoted "_type" +:+ ":" +:+ Elasticsearch.json_value type_name
       +:+ "," +:+ quoted "_id" +:+ ":" +:+ Elasticsearch.json_string doc_id
       +:+ "}")
  +:+ "}".

(** The index name of a document: what the index-naming function makes
    of the bucket, the document and the timestamp where one is
    configured, and the bucket where none is *)
Definition index_of (c : Elasticsearch.client) (bucket : string)
    (doc : dict pyval) (timestamp : pynum) : pyval :=
  match Elasticsearch.index_name c with
  | Some index_name => index_name bucket doc timestamp
  | None => PyStr bucket
  end.

(** The type name of a document: the configured one, or the bucket *)
Definition type_of (c : Elasticsearch.client) (bucket : string) : pyval :=
  if truthy (Elasticsearch.type_name c) then Elasticsearch.type_name c
  else PyStr bucket.

(** The document of a Sample: the fields, then the metadata for the
    keys that are no field, the timestamp text, and the bucket where an
    index-naming function is configured *)
Definition document_of (c : Elasticsearch.client) (bucket : string)
    (values metadata : dict pyval) (stamp : string) : gmap string pyval :=
  let doc :=
    <["timestamp":=PyStr stamp]> (dict_content values ∪ dict_content metadata) in
  match Elasticsearch.index_name c with
  | Some _ => <["bucket":=PyStr bucket]> doc
  | None => doc
  end.

(** The text [YYYY-MM-DD HH:MM:SS.mmm] of a date and time, the
    microseconds cut down to milliseconds *)
Definition stamp_of (dt : Elasticsearch.datetime) : string :=
  str_int (Elasticsearch.year dt)
  +:+ "-" +:+ dec 2 (Elasticsearch.month dt)
  +:+ "-" +:+ dec 2 (Elasticsearch.day dt)
  +:+ " " +:+ dec 2 (Elasticsearch.hour dt)
  +:+ ":" +:+ dec 2 (Elasticsearch.minute dt)
  +:+ ":" +:+ dec 2 (Elasticsearch.second dt)
  +:+ "." +:+ dec 3 (Elasticsearch.microsecond dt / 1000).

(** A client with no index-naming function, no type name, no
    compression and no metadata of its own *)
Definition plain_client (buf : list string) : Elasticsearch.client :=
  Elasticsearch.init_cfg
    {| Elasticsearch.cfg_index_name := Elasticsearch.IndexValue PyNone;
       Elasticsearch.cfg_type_name := PyNone;
       Elasticsearch.cfg_compression := PyNone |}
    (λ d, d) buf.
End Described.

(** ** Further notions *)

(** The text of [s] before the first [sep], all of [s] if it has none *)
Fixpoint before (sep : ascii) (s : string) : string :=
  match s with
  | EmptyString => ""
  | String c s' => if bool_decide (c = sep) then "" else String c (before sep s')
  end.

(** The text of [s] after the first [sep], nothing if it has none *)
Fixpoint after (sep : ascii) (s : string) : string :=
  match s with
  | EmptyString => ""
  | String c s' => if bool_decide (c = sep) then s' else after sep s'
  end.

Fixpoint has_char (sep : ascii) (s : string) : bool :=
  match s with
  | EmptyString => false
  | String c s' => bool_decide (c = sep) || has_char sep s'
  end.

(** The ordinal of a date, counted the way [datetime] counts it: the
    days before the year, the days before the month, and the day. It is
    the inverse of [ord2ymd]. *)
Definition days_before_year (year : Z) : Z :=
  let y := year - 1 in y * 365 + y / 4 - y / 100 + y / 400.

Definition is_leap (year : Z) : bool :=
  (year mod 4 =? 0) && (negb (year mod 100 =? 0) || (year mod 400 =? 0)).

Definition days_before_month (leap : bool) (month : Z) : Z :=
  Elasticsearch.table Elasticsearch.DAYS_BEFORE_MONTH month
  + (if (month >? 2) && leap then 1 else 0).

Definition ymd2ord (ymd : Z * Z * Z) : Z :=
  let '(year, month, day) := ymd in
  days_before_year year + days_before_month (is_leap year) month + day.

(** Whether [month_day] yields the month and day of the [n]-th day *)
Definition month_day_inv (leap : bool) (n : Z) : bool :=
  let '(m, d) := Elasticsearch.month_day leap n in
  days_before_month leap m + d =? n + 1.

(** The item [key=value] of the command line *)
Definition joined (kv : string * string) : string := kv.1 +:+ "=" +:+ kv.2.

(** What holds of the metadata read from [items]: no key twice, no more
    keys than items, no [=] in a key, every key cut from an item at its
    first separator, and a value [None] only under a key that is itself
    an item without a separator. *)
Definition metadata_ok (items : list string) (md : dict (option string))
  : Prop :=
  dict_wf md
  ∧ (length md ≤ length items)%nat
  ∧ ∀ k v, dict_get k md = Some v →
      has_char "=" k = false
      ∧ ∃ i, i ∈ items
             ∧ (k = before "=" i ∨ k = before ":" i)
             ∧ (v = None → i = k ∧ has_char ":" k = false).

(** The Sample that an iteration of the main loop forwards, sent to
    every client in order *)
Definition forwarded {sample : Type} (clients : list string)
    (t : @Main.tick sample) : list (@Main.action sample) :=
  match Main.poll t with
  | Main.Got s => (λ c, Main.Send c (Some s)) <$> clients
  | _ => []
  end.

(** An iteration in which nothing stops the loop: the queue yields a
    Sample with every client and every collector alive, the wait times
    out with every collector alive, or the wait is interrupted. *)
Definition quiet {sample : Type} (servers clients : list string)
    (t : @Main.tick sample) : Prop :=
  match Main.poll t with
  | Main.Got _ =>
      (∀ c, c ∈ clients → Main.alive t c = true)
      ∧ (∀ srv, srv ∈ servers → Main.alive t srv = true)
  | Main.Empty => ∀ srv, srv ∈ servers → Main.alive t srv = true
  | Main.IOError => True
  | _ => False
  end.

Section Notions.
Context `{PyRuntime}.

Definition is_str (v : pyval) : bool :=
  match v with
  | PyStr _ => true
  | _ => false
  end.

(** A dictionary all of whose values are strings *)
Definition all_str (d : dict pyval) : bool := forallb (λ kv, is_str kv.2) d.
End Notions.

(** ** A small runtime to evaluate the encoders with

    Five floats with the values and the texts Python gives them; the
    hash and the compressors are stand-ins. *)

Inductive demo_float :=
| F97_5
| F0_0
| F1700000000_25
| F0_0009995
| F0_0005.

Definition demo_float_val (f : demo_float) : Q :=
  match f with
  | F97_5 => 195 # 2
  | F0_0 => 0 # 1
  | F1700000000_25 => 6800000001 # 4
  | F0_0009995 => 2304690087709087 # 2305843009213693952
  | F0_0005 => 1152921504606847 # 2305843009213693952
  end.

Definition demo_float_repr (f : demo_float) : string :=
  match f with
  | F97_5 => "97.5"
  | F0_0 => "0.0"
  | F1700000000_25 => "1700000000.25"
  | F0_0009995 => "0.0009995"
  | F0_0005 => "0.0005"
  end.

Definition demo_float_of_str (s : string) : option demo_float :=
  if bool_decide (s = "97.5") then Some F97_5
  else if bool_decide (s = "0.0") then Some F0_0
  else if bool_decide (s = "1700000000.25") then Some F1700000000_25
  else if bool_decide (s = "0.0009995") then Some F0_0009995
  else if bool_decide (s = "0.0005") then Some F0_0005
  else None.

Definition demo_runtime : PyRuntime := {|
  float := demo_float;
  float_val := demo_float_val;
  float_repr := demo_float_repr;
  float_of_str := demo_float_of_str;
  uuid5 := λ ns name, "uuid5(" +:+ ns +:+ "," +:+ name +:+ ")";
  gzip_compress := λ b, b;
  zlib_compress := λ b, b
|}.

(** * Properties *)

(** ** Results *)

Lemma bind_ret {A B} (a : A) (k : A → result B) : bind (ret a) k = k a.
Proof. reflexivity. Qed.

Lemma mapM_ret {A B} (f : A → result B) (g : A → B) (l : list A) :
  (∀ a, a ∈ l → f a = ret (g a)) → mapM f l = ret (g <$> l).
Proof.
  induction l as [|a l IH]; intros Hf; [done|].
  cbn. rewrite (Hf a) by left. cbn.
  rewrite IH; [done|]. intros b Hb. apply Hf. by right.
Qed.

(** ** Dictionaries *)

Section DictFacts.
Context {V : Type}.
Implicit Types (d : dict V) (k : string) (v : V).

Lemma dict_get_content k d : dict_get k d = dict_content d !! k.
Proof.
  induction d as [|[k' v'] d IH]; [done|].
  cbn. case_decide as Hk.
  - subst. by rewrite lookup_insert_eq.
  - rewrite lookup_insert_ne by done. exact IH.
Qed.

Lemma dict_get_Some_keys k v d : dict_get k d = Some v → k ∈ dict_keys d.
Proof.
  induction d as [|[k' v'] d IH]; [done|].
  cbn. case_decide as Hk; [subst; left|]. intros Hg. right. by apply IH.
Qed.

Lemma dict_get_None_keys k d : dict_get k d = None ↔ k ∉ dict_keys d.
Proof.
  induction d as [|[k' v'] d IH]; cbn.
  - split; [intros _; apply not_elem_of_nil|done].
  - rewrite not_elem_of_cons. case_decide as Hk.
    + subst. split; [done|]. by intros [? _].
    + rewrite IH. split; [by intros ?|by intros [_ ?]].
Qed.

Lemma dict_has_keys k d : dict_has k d = true ↔ k ∈ dict_keys d.
Proof.
  unfold dict_has. rewrite bool_decide_eq_true.
  destruct (dict_get k d) as [v|] eqn:Hg.
  - split; [intros _; by eapply dict_get_Some_keys|by eauto].
  - apply dict_get_None_keys in Hg. split; [by intros [? ?]|done].
Qed.

Lemma dict_del_wf k d : dict_wf d → dict_wf (dict_del k d).
Proof.
  unfold dict_wf, dict_keys. induction d as [|[k' v'] d IH]; [done|].
  cbn. intros [Hk' Hd]%NoDup_cons. case_decide as Hk; [done|].
  cbn. apply NoDup_cons. split; [|by apply IH].
  intros Hin. apply Hk'. clear -Hin.
  induction d as [|[k2 v2] d IH]; [done|].
  cbn in *. case_decide; [by right|].
  cbn in Hin. apply elem_of_cons in Hin as [->|Hin]; [left|right; by apply IH].
Qed.

Lemma dict_get_del k k' d :
  dict_wf d →
  dict_get k' (dict_del k d) = if decide (k' = k) then None else dict_get k' d.
Proof.
  unfold dict_wf, dict_keys. induction d as [|[k2 v2] d IH]; cbn.
  - intros _. by case_decide.
  - intros [Hk2 Hd]%NoDup_cons. destruct (decide (k = k2)) as [->|Hk].
    + destruct (decide (k' = k2)) as [->|Hk']; [|done].
      by apply dict_get_None_keys.
    + cbn. destruct (decide (k' = k2)) as [->|Hk'].
      * by rewrite decide_False by done.
      * by apply IH.
Qed.

Lemma dict_set_content k v d :
  dict_content (dict_set k v d) = <[k:=v]> (dict_content d).
Proof.
  unfold dict_content. induction d as [|[k' v'] d IH]; [done|].
  cbn. case_decide as Hk.
  - subst. cbn. by rewrite insert_insert_eq.
  - cbn. rewrite IH. by apply insert_insert_ne.
Qed.

Lemma dict_set_keys_elem k k' v d :
  k' ∈ dict_keys (dict_set k v d) ↔ k' = k ∨ k' ∈ dict_keys d.
Proof.
  unfold dict_keys. induction d as [|[k2 v2] d IH]; cbn.
  - rewrite list_elem_of_singleton. split; [by left|]. by intros [?|?%elem_of_nil].
  - case_decide; subst; cbn; rewrite !elem_of_cons.
    + tauto.
    + rewrite IH. tauto.
Qed.

Lemma dict_set_wf k v d : dict_wf d → dict_wf (dict_set k v d).
Proof.
  unfold dict_wf. induction d as [|[k' v'] d IH]; cbn.
  - intros _. apply NoDup_singleton.
  - intros [Hk' Hd]%NoDup_cons. case_decide as Hk; subst; cbn.
    + by apply NoDup_cons.
    + apply NoDup_cons. split; [|by apply IH].
      fold (dict_keys (dict_set k v d)). rewrite dict_set_keys_elem.
      intros [?|?]; [congruence|done].
Qed.

Lemma dict_get_set k k' v d :
  dict_get k' (dict_set k v d) = if decide (k' = k) then Some v else dict_get k' d.
Proof.
  rewrite !dict_get_content, dict_set_content.
  case_decide; subst; [by rewrite lookup_insert_eq|by rewrite lookup_insert_ne].
Qed.

(** Two well-formed dictionaries with the same content have the same
    keys, up to their order. *)
Lemma dict_content_keys_perm d d' :
  dict_wf d → dict_wf d' → dict_content d = dict_content d' →
  dict_keys d ≡ₚ dict_keys d'.
Proof.
  intros Hd Hd' Hc. apply NoDup_Permutation; [done..|].
  intros k. rewrite <-!dict_has_keys. unfold dict_has.
  by rewrite !dict_get_content, Hc.
Qed.
End DictFacts.

(** ** Sorting *)

Lemma sorted_perm (l l' : list string) : l ≡ₚ l' → sorted l = sorted l'.
Proof.
  intros Hp. unfold sorted.
  apply (Sorted_unique String.le); [apply Sorted_merge_sort, _..|].
  by rewrite !merge_sort_Permutation.
Qed.

Lemma sorted_elem (k : string) (l : list string) : k ∈ sorted l ↔ k ∈ l.
Proof. unfold sorted. by rewrite merge_sort_Permutation. Qed.

Lemma omap_ext_elem {A B} (f g : A → option B) (l : list A) :
  (∀ x, x ∈ l → f x = g x) → omap f l = omap g l.
Proof.
  induction l as [|x l IH]; intros Hfg; [done|].
  cbn. rewrite (Hfg x) by left. rewrite IH; [done|].
  intros y Hy. apply Hfg. by right.
Qed.

Lemma omap_filter_is_Some {A B} (f : A → option B) (l : list A) :
  omap f (filter (λ x, is_Some (f x)) l) = omap f l.
Proof.
  induction l as [|x l IH]; [done|].
  rewrite filter_cons. destruct (decide (is_Some (f x))) as [[y Hy]|Hn]; cbn.
  - by rewrite Hy, IH.
  - rewrite IH. destruct (f x) eqn:Hfx; [|done]. exfalso. apply Hn. eauto.
Qed.

Lemma omap_Some_fmap {A B} (f : A → option B) (g : A → B) (l : list A) :
  (∀ x, x ∈ l → f x = Some (g x)) → omap f l = g <$> l.
Proof.
  induction l as [|x l IH]; intros Hfg; [done|].
  cbn. rewrite (Hfg x) by left. rewrite IH; [done|].
  intros y Hy. apply Hfg. by right.
Qed.

(** ** The plaintext encoder *)

Section CarbonFacts.
Context `{PyRuntime}.
Implicit Types (md : dict pyval) (m : dict string) (o ks : list string).

Lemma dict_keys_get {V} k (d : dict V) : k ∈ dict_keys d → is_Some (dict_get k d).
Proof.
  intros Hk. apply dict_has_keys in Hk. unfold dict_has in Hk.
  by apply bool_decide_eq_true in Hk.
Qed.

Lemma pop_each_spec ks md :
  NoDup ks → dict_wf md → (∀ k, k ∈ ks → k ∈ dict_keys md) →
  ∃ md', Carbon.pop_each ks md = ret (omap (λ k, dict_get k md) ks, md')
         ∧ dict_wf md'
         ∧ ∀ k, dict_get k md' = if decide (k ∈ ks) then None else dict_get k md.
Proof.
  revert md. induction ks as [|k ks IH]; intros md Hks Hmd Hin.
  - exists md. split_and!; [done..|]. intros k.
    by rewrite decide_False by apply not_elem_of_nil.
  - apply NoDup_cons in Hks as [Hk Hks].
    destruct (dict_keys_get k md) as [v Hv]; [apply Hin; left|].
    destruct (IH (dict_del k md)) as (md' & Hpop & Hwf & Hget);
      [done|by apply dict_del_wf| |].
    { intros k' Hk'. apply dict_has_keys. unfold dict_has. apply bool_decide_eq_true.
      rewrite dict_get_del by done. rewrite decide_False by (intros ->; done).
      apply dict_keys_get, Hin. by right. }
    exists md'. split_and!; [|done|].
    + cbn. unfold dict_pop. rewrite Hv. cbn. rewrite Hpop. cbn.
      do 3 f_equal. apply omap_ext_elem. intros k' Hk'.
      rewrite dict_get_del by done. by rewrite decide_False by (intros ->; done).
    + intros k'. rewrite Hget, dict_get_del by done.
      destruct (decide (k' ∈ ks)) as [Hi|Hi];
        destruct (decide (k' ∈ k :: ks)) as [Hc|Hc];
        destruct (decide (k' = k)) as [Hne|Hne]; try done;
        exfalso; rewrite elem_of_cons in Hc; tauto.
Qed.

(** The keys a call of [build_name] appends in sorted order are those of
    the mapping that the configured order does not name. *)
Lemma remaining_keys_sorted o md md' :
  dict_wf md → dict_wf md' →
  (∀ k, dict_get k md' =
        if decide (k ∈ Carbon.found_mappings o md) then None else dict_get k md) →
  sorted (dict_keys md')
  = sorted (elements (dom (dict_content md) ∖ list_to_set o : gset string)).
Proof.
  intros Hmd Hmd' Hget. apply sorted_perm.
  apply NoDup_Permutation; [done|apply NoDup_elements|].
  intros k. rewrite elem_of_elements, elem_of_difference, elem_of_dom,
    elem_of_list_to_set, <-dict_get_content, <-dict_has_keys.
  unfold dict_has. rewrite bool_decide_eq_true, Hget.
  unfold Carbon.found_mappings. case_decide as Hf.
  - apply list_elem_of_filter in Hf as [Hhas Hin].
    split; [by intros [? ?]|]. by intros [_ ?].
  - split; [|by intros [? _]]. intros Hs. split; [done|]. intros Hin.
    apply Hf, list_elem_of_filter. split; [|done].
    unfold dict_has. by apply bool_decide_pack.
Qed.

(** [build_name] pops the configured keys the mapping has, in the
    configured order, and then reads the remaining keys in sorted order;
    what it joins is this list of values. *)
Lemma build_name_joins o md :
  NoDup o → dict_wf md →
  Carbon.build_name o md
  = str_join "."
      (omap (λ k, dict_get k md) o
       ++ omap (λ k, dict_get k md)
            (sorted (elements (dom (dict_content md) ∖ list_to_set o : gset string)))).
Proof.
  intros Ho Hmd. unfold Carbon.build_name.
  destruct (pop_each_spec (Carbon.found_mappings o md) md)
    as (md' & -> & Hmd' & Hget).
  { by apply NoDup_filter. }
  { done. }
  { intros k [Hk _]%list_elem_of_filter. apply dict_has_keys.
    by apply Is_true_true. }
  cbn.
  rewrite (mapM_ret _ (λ k, default PyNone (dict_get k md'))).
  2:{ intros k Hk. rewrite sorted_elem in Hk. unfold dict_item.
      by destruct (dict_keys_get k md' Hk) as [v ->]. }
  cbn. f_equal. f_equal.
  - unfold Carbon.found_mappings.
    rewrite (list_filter_iff _ (λ k, is_Some (dict_get k md))).
    + by rewrite omap_filter_is_Some.
    + intros k. unfold dict_has. by rewrite bool_decide_spec.
  - rewrite (remaining_keys_sorted o md md') by done.
    symmetry. apply omap_Some_fmap. intros k Hk. rewrite sorted_elem in Hk.
    apply elem_of_elements, elem_of_difference in Hk as [Hd Hno].
    apply elem_of_dom in Hd as [v Hv]. rewrite <-dict_get_content in Hv.
    rewrite Hget. rewrite decide_False.
    + by rewrite Hv.
    + intros [_ Hin]%list_elem_of_filter. apply Hno.
      by apply elem_of_list_to_set.
Qed.

(** *** Mappings whose values are strings *)

Lemma str_dict_keys m : dict_keys (str_dict m) = dict_keys m.
Proof. unfold dict_keys, str_dict. rewrite <-list_fmap_compose. done. Qed.

Lemma str_dict_wf m : dict_wf m → dict_wf (str_dict m).
Proof. unfold dict_wf. by rewrite str_dict_keys. Qed.

Lemma str_dict_get k m : dict_get k (str_dict m) = PyStr <$> dict_get k m.
Proof.
  induction m as [|[k' v'] m IH]; [done|]. cbn. by case_decide.
Qed.

Lemma str_dict_set k v m :
  dict_set k (PyStr v) (str_dict m) = str_dict (dict_set k v m).
Proof.
  induction m as [|[k' v'] m IH]; [done|].
  cbn. case_decide; [done|]. cbn. f_equal. apply IH.
Qed.

Lemma str_dict_dom m :
  dom (dict_content (str_dict m)) =@{gset string} dom (dict_content m).
Proof.
  apply set_eq. intros k.
  by rewrite !elem_of_dom, <-!dict_get_content, str_dict_get, fmap_is_Some.
Qed.

Lemma str_dict_omap m (ks : list string) :
  omap (λ k, dict_get k (str_dict m)) ks
  = PyStr <$> omap (λ k, dict_content m !! k) ks.
Proof.
  induction ks as [|k ks IH]; [done|].
  cbn. rewrite str_dict_get, <-dict_get_content.
  destruct (dict_get k m); cbn; by rewrite IH.
Qed.

Lemma str_join_strs sep (l : list string) :
  str_join sep (PyStr <$> l) = ret (String.concat sep l).
Proof.
  unfold str_join. by rewrite (mapM_ret _ (λ v, py_str v)), <-list_fmap_compose,
    list_fmap_id by (by intros ? (s & -> & _)%list_elem_of_fmap).
Qed.

Lemma build_name_str o m :
  NoDup o → dict_wf m →
  Carbon.build_name o (str_dict m) = ret (dotted_name o (dict_content m)).
Proof.
  intros Ho Hm. rewrite build_name_joins by auto using str_dict_wf.
  rewrite str_dict_dom, !str_dict_omap, <-fmap_app. apply str_join_strs.
Qed.
End CarbonFacts.

(** C1, as amended. For a configured order without a repeated key and a
    metadata mapping whose values are all strings, [build_name] returns the
    values of the configured keys the mapping has, in the configured
    order, followed by the values of the remaining keys in the order of
    the keys, joined by dots; and two mappings with the same content, in
    whatever order they hold it, get the same name. *)
Theorem build_name_dotted `{PyRuntime} (o : list string) (m : dict string) :
  NoDup o → dict_wf m →
  Carbon.build_name o (str_dict m) = ret (dotted_name o (dict_content m))
  ∧ ∀ m', dict_wf m' → dict_content m' = dict_content m →
          Carbon.build_name o (str_dict m') = Carbon.build_name o (str_dict m).
Proof.
  intros Ho Hm. split; [by apply build_name_str|].
  intros m' Hm' Hc. by rewrite !build_name_str, Hc.
Qed.

Lemma build_name_dotted_witness :
  @Carbon.build_name demo_runtime ["host"; "dc"]
     (str_dict [("zone", "z1"); ("host", "a1"); ("app", "web")])
  = ret "a1.web.z1"
  ∧ ∀ m', dict_wf m' →
          dict_content m' = dict_content [("zone", "z1"); ("host", "a1"); ("app", "web")] →
          @Carbon.build_name demo_runtime ["host"; "dc"] (str_dict m')
          = @Carbon.build_name demo_runtime ["host"; "dc"]
              (str_dict [("zone", "z1"); ("host", "a1"); ("app", "web")]).
Proof.
  apply (@build_name_dotted demo_runtime ["host"; "dc"]
           [("zone", "z1"); ("host", "a1"); ("app", "web")]).
  - apply (bool_decide_unpack _). vm_compute. exact I.
  - apply (bool_decide_unpack _). vm_compute. exact I.
Defined.

(** C1 as stated fails where the configured order repeats a key the
    mapping has, and where a value of the mapping is [None]: the call
    raises and returns no name. *)
Lemma build_name_raises :
  @Carbon.build_name demo_runtime ["host"; "host"] [("host", PyStr "a1")]
  = raise (KeyError "host")
  ∧ @Carbon.build_name demo_runtime ["host"] [("host", PyNone); ("dc", PyStr "d1")]
    = raise TypeError.
Proof. split; reflexivity. Qed.

(** ** Strings and the text of numbers *)

Lemma append_cons (x : ascii) (a b : string) :
  String x a +:+ b = String x (a +:+ b).
Proof. reflexivity. Qed.

Lemma append_assoc (a b c : string) : (a +:+ b) +:+ c = a +:+ b +:+ c.
Proof.
  induction a as [|x a IH]; [done|]. by rewrite !append_cons, IH.
Qed.

Lemma chop_lf_append (s : string) : chop_lf (s +:+ LF) = Some s.
Proof.
  induction s as [|c s IH]; [done|].
  rewrite append_cons. cbn [chop_lf]. by rewrite IH.
Qed.

Lemma rsplit_blank_free (s : string) : blank_free s = true → rsplit s = None.
Proof.
  induction s as [|c s IH]; [done|].
  cbn. intros [Hc Hs]%andb_true_iff. rewrite IH by done.
  by apply negb_true_iff in Hc as ->.
Qed.

Lemma rsplit_append (a b : string) :
  blank_free b = true → rsplit (a +:+ " " +:+ b) = Some (a, b).
Proof.
  intros Hb. induction a as [|c a IH].
  - change ("" +:+ " " +:+ b) with (String " " b).
    cbn [rsplit]. by rewrite rsplit_blank_free.
  - rewrite append_cons. cbn [rsplit]. by rewrite IH.
Qed.

Lemma uint_blank_free (d : Decimal.uint) :
  blank_free (NilEmpty.string_of_uint d) = true.
Proof. induction d; cbn; auto. Qed.

Lemma uint_blank_free' (d : Decimal.uint) :
  blank_free (NilZero.string_of_uint d) = true.
Proof. destruct d; [reflexivity|..]; exact (uint_blank_free _). Qed.

Lemma str_int_blank_free (z : Z) : blank_free (str_int z) = true.
Proof.
  unfold str_int, NilZero.string_of_int.
  destruct (Z.to_int z) as [d|d]; [apply uint_blank_free'|].
  cbn [blank_free]. by rewrite uint_blank_free'.
Qed.

Lemma int_of_str_int (z : Z) : int_of_str (str_int z) = Some z.
Proof.
  unfold int_of_str, str_int. rewrite NilZero.isi.
  - cbn. by rewrite DecimalZ.of_to.
  - destruct z; cbn; [done| |done]. intros [= Hp].
    by apply DecimalPos.Unsigned.to_uint_nonnil in Hp.
  - destruct z; cbn; [done|done|]. intros [= Hp].
    by apply DecimalPos.Unsigned.to_uint_nonnil in Hp.
Qed.

Section CarbonLines.
Context `{PyRuntime}.

Lemma num_of_str_py_str (n : pynum) :
  float_text_ok → num_of_str (py_str (PyNum n)) = Some n.
Proof.
  intros Hok. unfold num_of_str. destruct n as [z|f]; cbn.
  - by rewrite int_of_str_int.
  - destruct (Hok f) as (_ & -> & ->). done.
Qed.

Lemma num_blank_free (n : pynum) :
  float_text_ok → blank_free (py_str (PyNum n)) = true.
Proof.
  intros Hok. destruct n as [z|f]; cbn; [apply str_int_blank_free|].
  by destruct (Hok f) as (? & _).
Qed.

(** A line reads back as the name, the number and the integer it was
    made of, whatever the name holds. *)
Lemma parse_line_roundtrip (name : string) (n : pynum) (t : Z) :
  float_text_ok →
  parse_line (name +:+ " " +:+ py_str (PyNum n) +:+ " " +:+ str_int t +:+ LF)
  = Some (name, n, t).
Proof.
  intros Hok. unfold parse_line.
  replace (name +:+ " " +:+ py_str (PyNum n) +:+ " " +:+ str_int t +:+ LF)
    with (((name +:+ " " +:+ py_str (PyNum n)) +:+ " " +:+ str_int t) +:+ LF)
    by (by rewrite !append_assoc).
  rewrite chop_lf_append. cbn [mbind option_bind].
  rewrite rsplit_append by apply str_int_blank_free. cbn [mbind option_bind].
  rewrite rsplit_append by by apply num_blank_free. cbn [mbind option_bind].
  by rewrite num_of_str_py_str, int_of_str_int.
Qed.

(** The loop appends one line per field, in the order of the fields. *)
Lemma process_fields_lines o bucket fields ts (sm : dict string) buffer :
  NoDup o → dict_wf sm →
  Carbon.process_fields o bucket fields ts (str_dict sm) buffer
  = (buffer ++
       ((λ kv,
          dotted_name o (<["value":=kv.1]> (<["bucket":=bucket]> (dict_content sm)))
          +:+ " " +:+ py_str kv.2 +:+ " " +:+ str_int (py_int ts) +:+ LF)
        <$> fields),
     ret tt).
Proof.
  intros Ho Hsm. revert buffer.
  induction fields as [|[k v] fields IH]; intros buffer.
  - cbn. by rewrite app_nil_r.
  - cbn [Carbon.process_fields].
    rewrite !str_dict_set, build_name_str by auto using dict_set_wf.
    cbn. rewrite IH, !dict_set_content, <-app_assoc. done.
Qed.
End CarbonLines.

(** C2, as amended. With a configured order without a repeated key and
    metadata whose values are all strings, [process_values] appends to the
    Buffer exactly one line per field, in the order of the fields; a line
    is the name, the text of the value and the timestamp truncated to an
    integer, separated by blanks and ended by a line feed, and the name is
    what [build_name] returns for the metadata with [bucket] and the field
    key added. Where the value is a number and the text of a float is
    what the line protocol needs, the line reads back as the name, the
    number and the integer timestamp. The Sample of the scenario, 97.5
    being the float whose text is that, yields the one line of the
    scenario. *)
Theorem process_values_lines `{PyRuntime} (o : list string)
    (buffer : list string) (bucket : string) (values : dict pyval)
    (ts : pynum) (metadata : option (dict string)) (f : float) :
  NoDup o → (∀ sm, metadata = Some sm → dict_wf sm) →
  float_text_ok → float_repr f = "97.5" →
  let sm := default [] metadata in
  let name k :=
    dotted_name o (<["value":=k]> (<["bucket":=bucket]> (dict_content sm))) in
  let line kv :=
    name kv.1 +:+ " " +:+ py_str kv.2 +:+ " " +:+ str_int (py_int ts) +:+ LF in
  Carbon.process_values o buffer bucket values ts (str_dict <$> metadata)
  = (buffer ++ (line <$> values), ret tt)
  ∧ length (line <$> values) = length values
  ∧ (∀ k, Carbon.build_name o
            (dict_set "value" (PyStr k)
               (dict_set "bucket" (PyStr bucket) (str_dict sm)))
          = ret (name k))
  ∧ (∀ k n, (k, PyNum n) ∈ values →
            parse_line (line (k, PyNum n)) = Some (name k, n, py_int ts))
  ∧ Carbon.process_values ["host"] [] "cpu" [("idle", PyNum (NFloat f))]
      (NInt 1700000000) (Some [("host", PyStr "a1")])
    = (["a1.cpu.idle 97.5 1700000000" +:+ LF], ret tt).
Proof.
  intros Ho Hmd Hok Hf sm name line.
  assert (dict_wf sm) as Hsm.
  { subst sm. destruct metadata as [sm'|]; [by apply Hmd|]. apply NoDup_nil_2. }
  split_and!.
  - unfold Carbon.process_values.
    replace (default [] (str_dict <$> metadata)) with (str_dict sm)
      by (subst sm; by destruct metadata).
    by apply process_fields_lines.
  - by rewrite length_fmap.
  - intros k. rewrite !str_dict_set, build_name_str by auto using dict_set_wf.
    by rewrite !dict_set_content.
  - intros k n _. by apply parse_line_roundtrip.
  - cbn. by rewrite Hf.
Qed.

Lemma demo_float_text_ok : @float_text_ok demo_runtime.
Proof. intros []; vm_compute; auto. Qed.

Lemma process_values_lines_witness :
  @Carbon.process_values demo_runtime ["host"] [] "cpu"
     [("idle", PyNum (@NFloat demo_runtime F97_5))] (NInt 1700000000)
     (Some [("host", PyStr "a1")])
  = (["a1.cpu.idle 97.5 1700000000" +:+ LF], ret tt).
Proof.
  refine (proj1 (@process_values_lines demo_runtime ["host"] [] "cpu"
                   [("idle", PyNum (@NFloat demo_runtime F97_5))]
                   (NInt 1700000000) (Some [("host", "a1")]) F97_5
                   _ _ demo_float_text_ok eq_refl)).
  - apply (bool_decide_unpack _). vm_compute. exact I.
  - intros sm [= <-]. apply (bool_decide_unpack _). vm_compute. exact I.
Defined.

(** C2 as stated fails for a Sample with a metadata value that is [None]:
    the call raises at the first field and appends no line. *)
Lemma process_values_none_metadata :
  @Carbon.process_values demo_runtime ["host"] [] "cpu"
     [("idle", PyNum (NInt 1))] (NInt 1700000000) (Some [("host", PyNone)])
  = ([], raise TypeError).
Proof. reflexivity. Qed.

(** ** The bulk encoder: the document *)

Section DocumentFacts.
Context `{PyRuntime}.
Import Elasticsearch.
Implicit Types (d dst src : dict pyval) (c : client).

Lemma merge_dict_wf c dst src :
  dict_wf dst → dict_wf (merge_dict c dst (Some src)).
Proof.
  cbn. revert dst. induction src as [|[k v] src IH]; intros dst Hdst; [done|].
  cbn. apply IH. case_match; auto using dict_set_wf.
Qed.

Lemma dict_has_content {V} k (d1 d2 : dict V) :
  dict_content d1 = dict_content d2 → dict_has k d1 = dict_has k d2.
Proof. intros Hc. unfold dict_has. by rewrite !dict_get_content, Hc. Qed.

(** Merging copies what the destination lacks: the destination wins. *)
Lemma merge_dict_content c dst src :
  dict_content (merge_dict c dst (Some src))
  = dict_content dst ∪ dict_content src.
Proof.
  cbn. revert dst. induction src as [|[k v] src IH]; intros dst.
  - cbn. by rewrite (right_id_L ∅ (∪)).
  - cbn. rewrite IH. unfold dict_has. rewrite dict_get_content.
    destruct (dict_content dst !! k) as [w|] eqn:Hk.
    + rewrite bool_decide_true by eauto.
      apply map_eq. intros i. rewrite !lookup_union.
      destruct (decide (i = k)) as [->|Hne].
      * rewrite Hk, lookup_insert_eq. by destruct (dict_content src !! k).
      * by rewrite lookup_insert_ne.
    + rewrite bool_decide_false by (by intros [? ?]).
      rewrite dict_set_content.
      rewrite <-insert_union_l. by rewrite insert_union_r.
Qed.

(** The key-sorted items are those of the content. *)
Lemma sorted_items_content d1 d2 :
  dict_wf d1 → dict_wf d2 → dict_content d1 = dict_content d2 →
  sorted_items d1 = sorted_items d2.
Proof.
  intros H1 H2 Hc. unfold sorted_items.
  rewrite (sorted_perm _ (dict_keys d2)) by by apply dict_content_keys_perm.
  apply omap_ext_elem. intros k _. by rewrite !dict_get_content, Hc.
Qed.

Lemma sorted_items_keys d : (sorted_items d).*1 = sorted (dict_keys d).
Proof.
  unfold sorted_items.
  assert (∀ l, (∀ k, k ∈ l → k ∈ dict_keys d) →
               (omap (λ k, pair k <$> dict_get k d) l).*1 = l) as Hl.
  { induction l as [|k l IH]; intros Hin; [done|].
    cbn. destruct (dict_keys_get k d) as [v ->]; [apply Hin; left|].
    cbn. f_equal. apply IH. intros k' Hk'. apply Hin. by right. }
  apply Hl. intros k Hk. by rewrite sorted_elem in Hk.
Qed.

Lemma json_dumps_content d1 d2 :
  dict_wf d1 → dict_wf d2 → dict_content d1 = dict_content d2 →
  json_dumps true d1 = json_dumps true d2.
Proof.
  intros H1 H2 Hc. unfold json_dumps. by rewrite (sorted_items_content d1 d2).
Qed.

(** What [process_values] does, step by step. *)
Lemma process_values_unfold c recv bucket values ts metadata :
  process_values c recv bucket values ts metadata
  = let md := merge_dict c metadata None in
    let t := effective_timestamp ts recv in
    let* dt := utcfromtimestamp t in
    let doc := dict_set "timestamp" (PyStr (drop_last 3 (strftime dt)))
                 (merge_dict c values (Some md)) in
    let doc' := (resolve_index c bucket doc t).1 in
    let idx := (resolve_index c bucket doc t).2 in
    if truthy idx then
      ret {| out_buffer :=
               buffer c ++
                 [action_line idx
                    (if truthy (type_name c) then type_name c else PyStr bucket)
                    (uuid5 NAMESPACE_DNS (json_dumps true doc'))
                  +:+ LF +:+ json_dumps true doc' +:+ LF];
             out_values := doc'; out_metadata := md |}
    else ret {| out_buffer := buffer c; out_values := doc'; out_metadata := md |}.
Proof.
  unfold process_values. cbn zeta.
  destruct (utcfromtimestamp _) as [e|dt]; [done|]. cbn [bind].
  destruct (resolve_index _ _ _ _) as [doc' idx]. cbn [fst snd].
  by destruct (truthy idx).
Qed.

(** What a call that returns leaves behind. *)
Lemma process_values_ret c recv bucket values ts metadata o :
  process_values c recv bucket values ts metadata = ret o →
  let md := merge_dict c metadata None in
  let t := effective_timestamp ts recv in
  ∃ dt, utcfromtimestamp t = ret dt
    ∧ let doc := dict_set "timestamp" (PyStr (drop_last 3 (strftime dt)))
                   (merge_dict c values (Some md)) in
      let doc' := (resolve_index c bucket doc t).1 in
      let idx := (resolve_index c bucket doc t).2 in
      out_values o = doc' ∧ out_metadata o = md
      ∧ out_buffer o
        = if truthy idx then
            buffer c ++
              [action_line idx
                 (if truthy (type_name c) then type_name c else PyStr bucket)
                 (uuid5 NAMESPACE_DNS (json_dumps true doc'))
               +:+ LF +:+ json_dumps true doc' +:+ LF]
          else buffer c.
Proof.
  rewrite process_values_unfold. cbn zeta.
  destruct (utcfromtimestamp _) as [e|dt]; [done|]. cbn [bind].
  intros Ho. exists dt. split; [done|].
  destruct (truthy _); by simplify_eq.
Qed.

Lemma resolve_index_doc c bucket doc t :
  (resolve_index c bucket doc t).1
  = match index_name c with
    | Some _ => dict_set "bucket" (PyStr bucket) doc
    | None => doc
    end.
Proof. unfold resolve_index. by destruct (index_name c). Qed.

Lemma resolve_index_wf c bucket doc t :
  dict_wf doc → dict_wf (resolve_index c bucket doc t).1.
Proof.
  rewrite resolve_index_doc. destruct (index_name c); auto using dict_set_wf.
Qed.

Lemma resolve_index_content c bucket doc1 doc2 t :
  dict_content doc1 = dict_content doc2 →
  dict_content (resolve_index c bucket doc1 t).1
  = dict_content (resolve_index c bucket doc2 t).1.
Proof.
  intros Hc. rewrite !resolve_index_doc.
  destruct (index_name c); [|done]. by rewrite !dict_set_content, Hc.
Qed.
(** *** What is emitted, in the words of the design document *)

(** With [sort_keys] the text of a dictionary is the text of its
    content. *)
Lemma json_dumps_text d :
  dict_wf d → json_dumps true d = document_text (dict_content d).
Proof.
  intros Hd. unfold json_dumps, json_object, document_text, sorted_items.
  do 3 f_equal.
  rewrite (sorted_perm (dict_keys d) (elements (dom (dict_content d)))).
  2:{ apply NoDup_Permutation; [done|apply NoDup_elements|].
      intros k. rewrite elem_of_elements, elem_of_dom, <-dict_get_content.
      rewrite <-dict_has_keys. unfold dict_has. by rewrite bool_decide_eq_true. }
  generalize (sorted (elements (dom (dict_content d)))). intros l.
  induction l as [|k l IH]; [done|].
  cbn [omap list_omap]. rewrite <-dict_get_content.
  destruct (dict_get k d) as [v|]; cbn; [by rewrite IH|done].
Qed.

Lemma action_line_text idx ty id : action_line idx ty id = action_text idx ty id.
Proof.
  unfold action_line, json_object, action_text, quoted, json_string.
  cbn [map String.concat fst snd json_value json_escape_all].
  change (String.append ?a ?b) with (a +:+ b).
  change (json_escape "i" +:+ json_escape "n" +:+ json_escape "d"
          +:+ json_escape "e" +:+ json_escape "x" +:+ "") with "index".
  change (json_escape "_" +:+ json_escape "i" +:+ json_escape "n"
          +:+ json_escape "d" +:+ json_escape "e" +:+ json_escape "x" +:+ "")
    with "_index".
  change (json_escape "_" +:+ json_escape "t" +:+ json_escape "y"
          +:+ json_escape "p" +:+ json_escape "e" +:+ "") with "_type".
  change (json_escape "_" +:+ json_escape "i" +:+ json_escape "d" +:+ "")
    with "_id".
  unfold json_string. by rewrite !append_assoc.
Qed.

(** The index name that [process_values] resolves is the one the design
    document describes, for the document as the call leaves it. *)
Lemma resolve_index_name c bucket doc t :
  (resolve_index c bucket doc t).2
  = index_of c bucket (resolve_index c bucket doc t).1 t.
Proof. unfold resolve_index, index_of. by destruct (index_name c). Qed.

(** What a call that returns has put into the Buffer. *)
Lemma process_values_emits c recv bucket values ts metadata o :
  dict_wf values →
  process_values c recv bucket values ts metadata = ret o →
  let idx := index_of c bucket (out_values o) (effective_timestamp ts recv) in
  let text := document_text (dict_content (out_values o)) in
  out_buffer o
  = if truthy idx then
      buffer c ++ [action_text idx (type_of c bucket) (uuid5 NAMESPACE_DNS text)
                   +:+ LF +:+ text +:+ LF]
    else buffer c.
Proof.
  intros Hwf Ho idx text.
  apply process_values_ret in Ho as (dt & _ & Hv & _ & Hb).
  rewrite resolve_index_name, <-Hv in Hb. fold idx in Hb.
  rewrite json_dumps_text, action_line_text in Hb; [done|].
  rewrite Hv. by apply resolve_index_wf, dict_set_wf, merge_dict_wf.
Qed.

(** The document a call that returns leaves in [values]. *)
Lemma process_values_document c recv bucket values ts metadata o :
  process_values c recv bucket values ts metadata = ret o →
  ∃ dt, utcfromtimestamp (effective_timestamp ts recv) = ret dt
        ∧ dict_content (out_values o)
          = document_of c bucket values (merge_defaults c metadata)
              (drop_last 3 (strftime dt)).
Proof.
  intros Ho. apply process_values_ret in Ho as (dt & Hdt & Hv & _).
  exists dt. split; [done|]. rewrite Hv, resolve_index_doc. unfold document_of.
  destruct (index_name c); by rewrite !dict_set_content, merge_dict_content.
Qed.

(** A call returns once the timestamp is formatted. *)
Lemma process_values_returns c recv bucket values ts metadata dt :
  utcfromtimestamp (effective_timestamp ts recv) = ret dt →
  returns (process_values c recv bucket values ts metadata).
Proof.
  intros Hdt. rewrite process_values_unfold. cbv zeta. rewrite Hdt, bind_ret.
  cbv beta. destruct (truthy _); by eexists.
Qed.
End DocumentFacts.

(** C3. For a Sample whose index name is not empty, [process_values]
    puts into the Buffer the action line and the document, and the id
    in the action line is [uuid5] under the DNS namespace of the text of
    the document: the minified JSON text with the members in the order
    of their keys. The document, its text and its id depend on the
    content of the fields only: two Samples that differ in the order of
    their fields only (the same Sample twice, in particular) get the same
    document, the same text and the same id, and with no index-naming
    function and a bucket that is not empty they put the same two lines
    into the Buffer. *)
Theorem document_id_by_content `{PyRuntime} (c : Elasticsearch.client)
    (recv : pynum) (bucket : string) (values1 values2 : dict pyval)
    (ts : option pynum) (metadata : dict pyval)
    (o1 o2 : Elasticsearch.outcome) :
  dict_wf values1 → dict_wf values2 →
  dict_content values1 = dict_content values2 →
  Elasticsearch.process_values c recv bucket values1 ts metadata = ret o1 →
  Elasticsearch.process_values c recv bucket values2 ts metadata = ret o2 →
  let t := Elasticsearch.effective_timestamp ts recv in
  let doc o := dict_content (Elasticsearch.out_values o) in
  let doc_id o := uuid5 Elasticsearch.NAMESPACE_DNS (document_text (doc o)) in
  let idx o := index_of c bucket (Elasticsearch.out_values o) t in
  let emitted o :=
    action_text (idx o) (type_of c bucket) (doc_id o)
    +:+ LF +:+ document_text (doc o) +:+ LF in
  doc o1 = doc o2
  ∧ doc_id o1 = doc_id o2
  ∧ (truthy (idx o1) = true →
     Elasticsearch.out_buffer o1 = Elasticsearch.buffer c ++ [emitted o1])
  ∧ (truthy (idx o2) = true →
     Elasticsearch.out_buffer o2 = Elasticsearch.buffer c ++ [emitted o2])
  ∧ (Elasticsearch.index_name c = None → bucket ≠ "" →
     Elasticsearch.out_buffer o1 = Elasticsearch.buffer c ++ [emitted o1]
     ∧ Elasticsearch.out_buffer o2 = Elasticsearch.out_buffer o1).
Proof.
  intros Hwf1 Hwf2 Hc Ho1 Ho2 t doc doc_id idx emitted.
  pose proof (process_values_emits _ _ _ _ _ _ _ Hwf1 Ho1) as Hb1.
  pose proof (process_values_emits _ _ _ _ _ _ _ Hwf2 Ho2) as Hb2.
  cbv zeta in Hb1, Hb2. fold t in Hb1, Hb2.
  apply process_values_document in Ho1 as (dt & Hdt & Hd1).
  apply process_values_document in Ho2 as (dt' & Hdt' & Hd2).
  rewrite Hdt in Hdt'. injection Hdt' as <-.
  assert (doc o1 = doc o2) as Hdoc.
  { subst doc. cbn beta. rewrite Hd1, Hd2. unfold document_of. by rewrite Hc. }
  split_and!; [done|by subst doc_id; cbn beta; rewrite Hdoc| | |].
  - intros Hi. subst idx. cbn beta in Hi. by rewrite Hi in Hb1.
  - intros Hi. subst idx. cbn beta in Hi. by rewrite Hi in Hb2.
  - intros Hn Hne.
    assert (∀ o, idx o = PyStr bucket) as Hidx.
    { intros o. subst idx. cbn beta. unfold index_of. by rewrite Hn. }
    assert (truthy (PyStr bucket) = true) as Ht.
    { cbn. by rewrite bool_decide_false. }
    fold (idx o1) in Hb1. fold (idx o2) in Hb2.
    rewrite Hidx, Ht in Hb1, Hb2. fold (doc o1) in Hb1. fold (doc o2) in Hb2.
    subst emitted doc_id. cbn beta. rewrite !Hidx.
    split; [done|]. by rewrite Hb1, Hb2, Hdoc.
Qed.

(** C4. Once the timestamp is formatted, [process_values] returns and
    raises nothing. With an index-naming function configured, the bucket
    has been put into the document, and the index name is what the
    function makes of the bucket, of this document and of the effective
    timestamp; with none configured the index name is the bucket. With an
    index name that is not empty the action line that goes into the
    Buffer, followed by the document, carries this index name; with an
    index name that is [None] or empty the Sample is dropped: the Buffer
    is left as it was. An index name that the configuration gives as a
    constant acts as the function that returns it, and [None] there
    configures no function. *)
Theorem index_name_resolution `{PyRuntime} (c : Elasticsearch.client)
    (recv : pynum) (bucket : string) (values : dict pyval)
    (ts : option pynum) (metadata : dict pyval) (dt : Elasticsearch.datetime) :
  let t := Elasticsearch.effective_timestamp ts recv in
  dict_wf values →
  Elasticsearch.utcfromtimestamp t = ret dt →
  ∃ o,
    Elasticsearch.process_values c recv bucket values ts metadata = ret o
    ∧ let text := document_text (dict_content (Elasticsearch.out_values o)) in
      let emitted idx :=
        action_text idx (type_of c bucket)
          (uuid5 Elasticsearch.NAMESPACE_DNS text)
        +:+ LF +:+ text +:+ LF in
      let kept := Elasticsearch.out_buffer o = Elasticsearch.buffer c in
      let sent idx :=
        Elasticsearch.out_buffer o = Elasticsearch.buffer c ++ [emitted idx] in
      (∀ fn, Elasticsearch.index_name c = Some fn →
         let idx := fn bucket (Elasticsearch.out_values o) t in
         dict_get "bucket" (Elasticsearch.out_values o) = Some (PyStr bucket)
         ∧ (truthy idx = true → sent idx)
         ∧ (idx = PyNone ∨ idx = PyStr "" ∨ truthy idx = false → kept))
      ∧ (Elasticsearch.index_name c = None →
         (bucket ≠ "" → sent (PyStr bucket)) ∧ (bucket = "" → kept))
      ∧ (∀ cfg defaults buf v,
           c = Elasticsearch.init_cfg cfg defaults buf →
           Elasticsearch.cfg_index_name cfg = Elasticsearch.IndexValue v →
           match v with
           | PyNone => (bucket ≠ "" → sent (PyStr bucket)) ∧ (bucket = "" → kept)
           | _ => (truthy v = true → sent v) ∧ (truthy v = false → kept)
           end).
Proof.
  intros t Hwf Hdt.
  destruct (process_values_returns c recv bucket values ts metadata dt Hdt)
    as [o Ho].
  exists o. split; [done|]. intros text emitted kept sent.
  pose proof (process_values_emits _ _ _ _ _ _ _ Hwf Ho) as Hb.
  cbv zeta in Hb. fold t text in Hb.
  assert (∀ fn, Elasticsearch.index_name c = Some fn →
            let idx := fn bucket (Elasticsearch.out_values o) t in
            (truthy idx = true → sent idx) ∧ (truthy idx = false → kept))
    as Hfn.
  { intros fn Hf idx. unfold index_of in Hb. rewrite Hf in Hb. fold idx in Hb.
    subst sent kept emitted. cbn beta.
    split; intros Hi; by rewrite Hi in Hb. }
  assert (Elasticsearch.index_name c = None →
          (bucket ≠ "" → sent (PyStr bucket)) ∧ (bucket = "" → kept)) as Hnone.
  { intros Hn. unfold index_of in Hb. rewrite Hn in Hb. cbn [truthy] in Hb.
    subst sent kept emitted. cbn beta. split.
    - intros Hne. by rewrite bool_decide_false in Hb.
    - intros He. by rewrite bool_decide_true in Hb. }
  split_and!.
  - intros fn Hf idx. destruct (Hfn fn Hf) as [Hs Hk]. split_and!; [|done|].
    + apply process_values_ret in Ho as (dt' & _ & Hv & _).
      rewrite Hv, resolve_index_doc, Hf, dict_get_set. by rewrite decide_True.
    + intros [Hi|[Hi|Hi]]; apply Hk; fold idx; by rewrite ?Hi.
  - done.
  - intros cfg defaults buf v -> Hv. cbn [Elasticsearch.init_cfg
      Elasticsearch.index_name] in Hfn, Hnone. rewrite Hv in Hfn, Hnone.
    destruct v as [|s|n]; [by apply Hnone|..].
    + exact (Hfn _ eq_refl).
    + exact (Hfn _ eq_refl).
Qed.

(** ** Numbers in decimal *)

Lemma digit_cases (r : Z) :
  0 ≤ r < 10 →
  r = 0 ∨ r = 1 ∨ r = 2 ∨ r = 3 ∨ r = 4 ∨ r = 5 ∨ r = 6 ∨ r = 7 ∨ r = 8 ∨ r = 9.
Proof. lia. Qed.

(** One case for each value of a digit [r]. *)
Ltac each_digit r Hr :=
  destruct (digit_cases r Hr)
    as [->|[->|[->|[->|[->|[->|[->|[->|[->| ->]]]]]]]]].

Lemma of_lu_lu_digit (r : Z) (l : Decimal.uint) :
  0 ≤ r < 10 →
  DecimalPos.Unsigned.of_lu (lu_digit r l)
  = (Z.to_N r + 10 * DecimalPos.Unsigned.of_lu l)%N.
Proof.
  intros Hr. each_digit r Hr;
    reflexivity.
Qed.

Lemma of_lu_lu (w : nat) (n : Z) :
  0 ≤ n < 10 ^ Z.of_nat w → DecimalPos.Unsigned.of_lu (lu w n) = Z.to_N n.
Proof.
  revert n. induction w as [|w IH]; intros n Hn.
  - cbn in *. assert (n = 0) as -> by lia. done.
  - cbn [lu]. rewrite of_lu_lu_digit by (apply Z.mod_pos_bound; lia).
    rewrite IH.
    + rewrite <-(Z2N.inj_mul 10), <-Z2N.inj_add
        by (pose proof (Z.mod_pos_bound n 10); pose proof (Z.div_pos n 10); lia).
      f_equal. pose proof (Z.div_mod n 10). lia.
    + rewrite Nat2Z.inj_succ, Z.pow_succ_r in Hn by lia.
      split; [apply Z.div_pos; lia|]. apply Z.div_lt_upper_bound; lia.
Qed.

Lemma to_int_nonneg (n : Z) : 0 ≤ n → Z.to_int n = Pos (N.to_uint (Z.to_N n)).
Proof. destruct n; [done|done|lia]. Qed.

Lemma to_int_lu (w : nat) (n : Z) :
  0 ≤ n < 10 ^ Z.of_nat w → Z.to_int n = Pos (Decimal.unorm (Decimal.rev (lu w n))).
Proof.
  intros Hn. rewrite to_int_nonneg by lia.
  rewrite <-(of_lu_lu w) by done.
  rewrite <-DecimalPos.Unsigned.of_lu_rev.
  by rewrite DecimalPos.Unsigned.to_of.
Qed.

Lemma length_append (a b : string) :
  String.length (a +:+ b) = (String.length a + String.length b)%nat.
Proof.
  induction a as [|x a IH]; [done|]. rewrite append_cons. cbn. by rewrite IH.
Qed.

Lemma string_of_revapp (l acc : Decimal.uint) :
  NilEmpty.string_of_uint (Decimal.revapp l acc)
  = NilEmpty.string_of_uint (Decimal.rev l) +:+ NilEmpty.string_of_uint acc.
Proof.
  unfold Decimal.rev. revert acc.
  induction l as [|l IH|l IH|l IH|l IH|l IH|l IH|l IH|l IH|l IH|l IH];
    intros acc; [done|..]; cbn [Decimal.revapp];
    rewrite (IH (_ Nil)), IH, append_assoc; done.
Qed.

Lemma string_of_rev_lu_digit (r : Z) (l : Decimal.uint) :
  0 ≤ r < 10 →
  NilEmpty.string_of_uint (Decimal.rev (lu_digit r l))
  = NilEmpty.string_of_uint (Decimal.rev l) +:+ digit_char r.
Proof.
  intros Hr. each_digit r Hr;
    cbn [lu_digit]; unfold Decimal.rev at 1; cbn [Decimal.revapp];
    by rewrite string_of_revapp.
Qed.

Lemma string_of_rev_lu (w : nat) (n : Z) :
  NilEmpty.string_of_uint (Decimal.rev (lu w n)) = dec w n.
Proof.
  revert n. induction w as [|w IH]; intros n; [done|].
  cbn [lu dec]. rewrite string_of_rev_lu_digit by (apply Z.mod_pos_bound; lia).
  by rewrite IH.
Qed.

Lemma length_digit_char (r : Z) :
  0 ≤ r < 10 → String.length (digit_char r) = 1%nat.
Proof.
  intros Hr. each_digit r Hr;
    reflexivity.
Qed.

Lemma length_dec (w : nat) (n : Z) : String.length (dec w n) = w.
Proof.
  revert n. induction w as [|w IH]; intros n; [done|].
  cbn [dec]. rewrite length_append, IH, length_digit_char; [lia|].
  apply Z.mod_pos_bound. lia.
Qed.

Lemma zeros_length (k : nat) : String.length (Elasticsearch.zeros k) = k.
Proof.
  induction k as [|k IH]; [done|].
  cbn [Elasticsearch.zeros]. by rewrite length_append, IH.
Qed.

(** Padding the text of a number with zeros gives back the digits the
    number was read from. *)
Lemma zeros_unorm (u : Decimal.uint) :
  u ≠ Nil →
  Elasticsearch.zeros
    (String.length (NilEmpty.string_of_uint u)
     - String.length (NilZero.string_of_uint (Decimal.unorm u)))
  +:+ NilZero.string_of_uint (Decimal.unorm u)
  = NilEmpty.string_of_uint u.
Proof.
  induction u as [|u IH|u IH|u IH|u IH|u IH|u IH|u IH|u IH|u IH|u IH];
    intros Hu; [done| |by cbn; rewrite Nat.sub_diag..].
  rewrite DecimalFacts.unorm_D0.
  assert (u = Nil ∨ u ≠ Nil) as [->|Hne] by (destruct u; auto); [done|].
  specialize (IH Hne). cbn [NilEmpty.string_of_uint String.length].
  assert (String.length (NilZero.string_of_uint (Decimal.unorm u))
          ≤ String.length (NilEmpty.string_of_uint u))%nat as Hle.
  { pose proof (f_equal String.length IH) as HL.
    rewrite length_append, zeros_length in HL. lia. }
  rewrite Nat.sub_succ_l by done. cbn [Elasticsearch.zeros].
  change ("0" +:+ ?s) with (String "0" s). rewrite append_cons. by rewrite IH.
Qed.

Lemma zpad_dec (w : nat) (n : Z) :
  (0 < w)%nat → 0 ≤ n < 10 ^ Z.of_nat w → Elasticsearch.zpad w n = dec w n.
Proof.
  intros Hw Hn. unfold Elasticsearch.zpad, str_int.
  rewrite (to_int_lu w) by done. cbn [NilZero.string_of_int].
  rewrite <-(length_dec w n) at 1. rewrite <-!string_of_rev_lu.
  apply zeros_unorm. destruct w; [lia|]. cbn [lu].
  pose proof (Z.mod_pos_bound n 10 ltac:(lia)) as Hr.
  destruct (digit_cases _ Hr) as [->|[->|[->|[->|[->|[->|[->|[->|[->| ->]]]]]]]]];
    cbn [lu_digit]; intros Hnil; by apply DecimalFacts.rev_nil_inv in Hnil.
Qed.

(** ** The shape of a formatted timestamp *)

Lemma shaped_app (p1 p2 s1 s2 : string) :
  shaped p1 s1 = true → shaped p2 s2 = true →
  shaped (p1 +:+ p2) (s1 +:+ s2) = true.
Proof.
  revert s1. induction p1 as [|p p1 IH]; intros [|c s1]; try done.
  rewrite !append_cons. cbn [shaped].
  intros [Hc Hs]%andb_true_iff H2. rewrite Hc. cbn. by apply IH.
Qed.

Lemma shaped_digit_char (r : Z) : 0 ≤ r < 10 → shaped "9" (digit_char r) = true.
Proof.
  intros Hr. each_digit r Hr;
    reflexivity.
Qed.

Lemma shaped_dec (w : nat) (n : Z) : shaped (nines w) (dec w n) = true.
Proof.
  revert n. induction w as [|w IH]; intros n; [done|].
  cbn [nines dec]. apply shaped_app; [apply IH|].
  apply shaped_digit_char, Z.mod_pos_bound. lia.
Qed.

(** [s[:-n]] takes off a suffix of [n] characters. *)
Lemma substring_prefix (s t : string) : substring 0 (String.length s) (s +:+ t) = s.
Proof.
  induction s as [|c s IH]; [by destruct t|].
  rewrite append_cons. cbn. by rewrite IH.
Qed.

Lemma drop_last_append (s t : string) :
  Elasticsearch.drop_last (String.length t) (s +:+ t) = s.
Proof.
  unfold Elasticsearch.drop_last. rewrite length_append.
  replace (String.length s + String.length t - String.length t)%nat
    with (String.length s) by lia.
  apply substring_prefix.
Qed.

(** Six digits without the last three are the three digits of the
    thousands. *)
Lemma dec_6_3 (us : Z) :
  dec 6 us
  = dec 3 (us / 1000)
    +:+ (digit_char (us / 10 / 10 mod 10) +:+ digit_char (us / 10 mod 10)
         +:+ digit_char (us mod 10)).
Proof.
  change (dec 6 us)
    with (((dec 3 (us / 10 / 10 / 10) +:+ digit_char (us / 10 / 10 mod 10))
           +:+ digit_char (us / 10 mod 10)) +:+ digit_char (us mod 10)).
  rewrite !Z.div_div by lia. by rewrite !append_assoc.
Qed.

Lemma drop_last_dec_6 (prefix : string) (us : Z) :
  Elasticsearch.drop_last 3 (prefix +:+ dec 6 us) = prefix +:+ dec 3 (us / 1000).
Proof.
  rewrite dec_6_3, <-append_assoc.
  set (t := _ +:+ _ +:+ digit_char (us mod 10)).
  assert (String.length t = 3%nat) as <-; [|apply drop_last_append].
  subst t. rewrite !length_append, !length_digit_char; [done|..];
    apply Z.mod_pos_bound; lia.
Qed.

(** A year of four digits is not padded. *)
Lemma str_int_year (y : Z) : 1000 ≤ y ≤ 9999 → str_int y = dec 4 y.
Proof.
  intros Hy. pose proof (zpad_dec 4 y ltac:(lia) ltac:(lia)) as Hp.
  unfold Elasticsearch.zpad in Hp.
  destruct (4 - String.length (str_int y))%nat as [|k] eqn:Hk; [done|].
  exfalso. cbn [Elasticsearch.zeros] in Hp.
  change (dec 4 y)
    with (((("" +:+ digit_char (y / 10 / 10 / 10 mod 10))
            +:+ digit_char (y / 10 / 10 mod 10))
           +:+ digit_char (y / 10 mod 10)) +:+ digit_char (y mod 10)) in Hp.
  assert (1 ≤ y / 10 / 10 / 10 mod 10 < 10) as Hq.
  { clear Hp Hk. Z.div_mod_to_equations. lia. }
  revert Hp. generalize (y / 10 / 10 / 10 mod 10) Hq. intros q Hq'.
  assert (q = 1 ∨ q = 2 ∨ q = 3 ∨ q = 4 ∨ q = 5 ∨ q = 6 ∨ q = 7 ∨ q = 8 ∨ q = 9)
    as [->|[->|[->|[->|[->|[->|[->|[->| ->]]]]]]]] by lia;
    intros Hp;
    apply (f_equal (λ s, match s with String c _ => Some c | _ => None end)) in Hp;
    vm_compute in Hp; discriminate.
Qed.

(** ** The fields of a date and time *)

Section DatetimeFacts.
Context `{PyRuntime}.
Import Elasticsearch.

Lemma month_day_bounds (leap : bool) (n : Z) :
  0 ≤ n < 365 →
  1 ≤ (month_day leap n).1 ≤ 12 ∧ 1 ≤ (month_day leap n).2 ≤ 31.
Proof.
  intros Hn.
  assert (forallb (λ k, month_day_ok true (Z.of_nat k)
                        && month_day_ok false (Z.of_nat k))
                  (seq 0 365) = true) as Hall by (vm_compute; reflexivity).
  rewrite forallb_forall in Hall.
  specialize (Hall (Z.to_nat n)). rewrite Z2Nat.id in Hall by lia.
  assert (month_day_ok leap n = true) as Hok.
  { destruct (andb_prop _ _ (Hall ltac:(apply in_seq; lia))); by destruct leap. }
  unfold month_day_ok in Hok. destruct (month_day leap n) as [m d]. cbn.
  lia.
Qed.

Lemma ord2ymd_bounds (ordinal : Z) :
  1 ≤ (ord2ymd ordinal).1.2 ≤ 12 ∧ 1 ≤ (ord2ymd ordinal).2 ≤ 31.
Proof.
  unfold ord2ymd. cbv zeta.
  destruct (_ || _); [cbn; lia|].
  set (leap := _ && _). set (n := _ mod 365).
  pose proof (month_day_bounds leap n ltac:(apply Z.mod_pos_bound; lia)).
  destruct (month_day leap n). done.
Qed.

Lemma round_half_even_bounds (q : Q) :
  Qfloor q ≤ round_half_even q ≤ Qfloor q + 1.
Proof.
  unfold round_half_even. destruct (Qcompare _ _); [destruct (Z.even _)|..]; lia.
Qed.

(** Rounding does not pass an integer. *)
Lemma round_half_even_le (y : Q) (k : Z) :
  Qnum y ≤ k * Z.pos (Qden y) → round_half_even y ≤ k.
Proof.
  destruct y as [a b]. cbn [Qnum Qden]. intros Hk.
  unfold round_half_even. cbn [Qfloor].
  pose proof (Z.div_mod a (Z.pos b) ltac:(lia)) as Hdm.
  pose proof (Z.mod_pos_bound a (Z.pos b) ltac:(lia)) as Hmb.
  assert (a / Z.pos b ≤ k) as Hf by nia.
  destruct (Qcompare _ _) eqn:Hc; [destruct (Z.even _)|..]; try lia.
  all: destruct (decide (a / Z.pos b = k)) as [Heq|?]; [exfalso|lia].
  all: unfold Qcompare, Qminus, Qplus, Qopp, inject_Z in Hc; cbn [Qnum Qden] in Hc.
  all: rewrite ?Z.compare_eq_iff, ?Z.compare_gt_iff in Hc; nia.
Qed.

(** A fraction of a second, scaled to microseconds and rounded twice,
    to a double and to an integer, stays within a million. *)
Lemma round_double_micro (x : Q) :
  Z.abs (Qnum x) < 1000000 * Z.pos (Qden x) →
  -1000000 ≤ round_half_even (round_double x) ≤ 1000000.
Proof.
  intros Hx. unfold round_double.
  destruct (Z.eqb_spec (Qnum x) 0) as [_|Hnz]; [by vm_compute|].
  set (e := Z.max (binade x - 52) (-1074)).
  assert (e ≤ -32) as He.
  { subst e. unfold binade. cbv zeta.
    assert (Z.log2 (Z.abs (Qnum x)) ≤ 20 + Z.log2 (Z.pos (Qden x))) as Hl.
    { rewrite <-Z.log2_mul_pow2 by lia. apply Z.log2_le_mono. lia. }
    destruct (_ <=? _); lia. }
  unfold Qpow2. rewrite (proj2 (Z.leb_le 0 (- e))) by lia.
  rewrite (proj2 (Z.leb_gt 0 e)) by lia.
  set (P := 2 ^ (- e)).
  assert (0 < P) as HP by (subst P; apply Z.pow_pos_nonneg; lia).
  pose proof (round_half_even_bounds (x * inject_Z P)) as Hm.
  set (m := round_half_even (x * inject_Z P)) in *.
  destruct x as [a b]. cbn [Qnum Qden] in *.
  unfold Qmult, inject_Z in Hm. cbn [Qnum Qden Qfloor] in Hm.
  replace (Z.pos (b * 1)) with (Z.pos b) in Hm by lia.
  pose proof (Z.div_mod (a * P) (Z.pos b) ltac:(lia)) as Hdm.
  pose proof (Z.mod_pos_bound (a * P) (Z.pos b) ltac:(lia)) as Hmb.
  assert (- (1000000 * P) ≤ m ≤ 1000000 * P) as Hmm by nia.
  split.
  - pose proof (round_half_even_bounds (inject_Z m * (1 # Z.to_pos P))) as Hr.
    unfold Qmult, inject_Z in Hr. cbn [Qnum Qden Qfloor] in Hr.
    replace (Z.pos (1 * Z.to_pos P)) with P in Hr by lia.
    etrans; [|apply Hr]. apply Z.div_le_lower_bound; lia.
  - apply round_half_even_le. unfold Qmult, inject_Z. cbn [Qnum Qden].
    replace (Z.pos (1 * Z.to_pos P)) with P by lia. lia.
Qed.

Lemma timeval_micro (t : pynum) : 0 ≤ (timeval t).2 < 1000000.
Proof.
  destruct t as [z|f]; [cbn; lia|]. unfold timeval. cbv zeta.
  set (q := float_val f). set (x := ((q - _) * _)%Q).
  assert (Z.abs (Qnum x) < 1000000 * Z.pos (Qden x)) as Hx.
  { subst x. destruct q as [n d].
    unfold Qtrunc, Qminus, Qplus, Qopp, Qmult, inject_Z. cbn [Qnum Qden].
    pose proof (Z.quot_rem' n (Z.pos d)) as Hqr.
    pose proof (Z.rem_bound_abs n (Z.pos d) ltac:(lia)) as Hrb.
    set (r := Z.rem n (Z.pos d)) in *. set (ip := n ÷ Z.pos d) in *.
    replace ((n * 1 + - ip * Z.pos d) * 1000000) with (r * 1000000) by lia.
    replace (Z.pos (d * 1 * 1)) with (Z.pos d) by lia. lia. }
  pose proof (round_double_micro x Hx) as Hr.
  repeat case_match; cbn; lia.
Qed.

Lemma utcfromtimestamp_fields (t : pynum) (dt : datetime) :
  utcfromtimestamp t = ret dt →
  1 ≤ year dt ≤ 9999 ∧ 1 ≤ month dt ≤ 12 ∧ 1 ≤ day dt ≤ 31
  ∧ 0 ≤ hour dt < 24 ∧ 0 ≤ minute dt < 60 ∧ 0 ≤ second dt < 60
  ∧ 0 ≤ microsecond dt < 1000000.
Proof.
  unfold utcfromtimestamp. pose proof (timeval_micro t) as Hus.
  destruct (timeval t) as [sec us]. cbn in Hus.
  pose proof (ord2ymd_bounds (EPOCH_ORDINAL + sec / 86400)) as Hmd.
  destruct (ord2ymd _) as [[y m] d]. cbn in Hmd.
  destruct (_ && _) eqn:Hy; [|done]. intros [= <-]. cbn.
  split_and!; try lia.
  all: Z.div_mod_to_equations; lia.
Qed.
End DatetimeFacts.

Section StampFacts.
Context `{PyRuntime}.
Import Elasticsearch.

(** The timestamp text of a date and time: its fields in decimal, the
    microseconds cut down to milliseconds. *)
Lemma stamp_text (t : pynum) (dt : datetime) :
  utcfromtimestamp t = ret dt →
  drop_last 3 (strftime dt)
  = str_int (year dt) +:+ "-" +:+ dec 2 (month dt) +:+ "-" +:+ dec 2 (day dt)
    +:+ " " +:+ dec 2 (hour dt) +:+ ":" +:+ dec 2 (minute dt)
    +:+ ":" +:+ dec 2 (second dt) +:+ "." +:+ dec 3 (microsecond dt / 1000).
Proof.
  intros Hdt.
  apply utcfromtimestamp_fields in Hdt as (Hy & Hm & Hd & Hh & Hmi & Hs & Hus).
  unfold strftime.
  rewrite !(zpad_dec 2), (zpad_dec 6) by (cbn; lia).
  set (y := str_int _).
  replace (y +:+ "-" +:+ dec 2 (month dt) +:+ "-" +:+ dec 2 (day dt)
           +:+ " " +:+ dec 2 (hour dt) +:+ ":" +:+ dec 2 (minute dt)
           +:+ ":" +:+ dec 2 (second dt) +:+ "." +:+ dec 6 (microsecond dt))
    with ((y +:+ "-" +:+ dec 2 (month dt) +:+ "-" +:+ dec 2 (day dt)
           +:+ " " +:+ dec 2 (hour dt) +:+ ":" +:+ dec 2 (minute dt)
           +:+ ":" +:+ dec 2 (second dt) +:+ ".") +:+ dec 6 (microsecond dt))
    by (by rewrite !append_assoc).
  rewrite drop_last_dec_6. by rewrite !append_assoc.
Qed.

Lemma stamp_shape (t : pynum) (dt : datetime) :
  utcfromtimestamp t = ret dt → 1000 ≤ year dt →
  is_es_timestamp (drop_last 3 (strftime dt)) = true.
Proof.
  intros Hdt Hy. rewrite (stamp_text t) by done.
  apply utcfromtimestamp_fields in Hdt as (Hy' & _).
  rewrite str_int_year by lia. unfold is_es_timestamp.
  change "9999-99-99 99:99:99.999"
    with (nines 4 +:+ "-" +:+ nines 2 +:+ "-" +:+ nines 2 +:+ " " +:+ nines 2
          +:+ ":" +:+ nines 2 +:+ ":" +:+ nines 2 +:+ "." +:+ nines 3).
  repeat (apply shaped_app; [first [apply shaped_dec | reflexivity]|]).
  apply shaped_dec.
Qed.
End StampFacts.

(** ** Line feeds in what the encoder emits *)

Lemma count_lf_append (a b : string) :
  count_lf (a +:+ b) = (count_lf a + count_lf b)%nat.
Proof.
  induction a as [|x a IH]; [done|].
  rewrite append_cons. cbn [count_lf]. rewrite IH. lia.
Qed.

Lemma count_lf_uint (d : Decimal.uint) : count_lf (NilEmpty.string_of_uint d) = 0%nat.
Proof. induction d; cbn; auto. Qed.

Lemma count_lf_str_int (z : Z) : count_lf (str_int z) = 0%nat.
Proof.
  unfold str_int, NilZero.string_of_int, NilZero.string_of_uint.
  destruct (Z.to_int z) as [d|d]; destruct d; try reflexivity;
    first [exact (count_lf_uint _) | exact (count_lf_uint (D0 _))
          | cbn [count_lf]; exact (count_lf_uint _) ].
Qed.

Section OneLine.
Context `{PyRuntime}.
Import Elasticsearch.

Lemma count_lf_json_escape (c : ascii) : count_lf (json_escape c) = 0%nat.
Proof. destruct c as [[] [] [] [] [] [] [] []]; reflexivity. Qed.

Lemma count_lf_json_string (s : string) : count_lf (json_string s) = 0%nat.
Proof.
  unfold json_string. rewrite !count_lf_append.
  assert (count_lf (json_escape_all s) = 0%nat) as ->; [|done].
  induction s as [|c s IH]; [done|].
  cbn [json_escape_all]. by rewrite count_lf_append, count_lf_json_escape, IH.
Qed.

Lemma count_lf_json_value (v : pyval) :
  float_text_one_line → count_lf (json_value v) = 0%nat.
Proof.
  intros Hf. destruct v as [|s|[z|f]]; cbn [json_value];
    auto using count_lf_json_string, count_lf_str_int.
Qed.

Lemma count_lf_concat (l : list string) :
  Forall (λ s, count_lf s = 0%nat) l → count_lf (String.concat "," l) = 0%nat.
Proof.
  induction 1 as [|s l Hs Hl IH]; [done|].
  cbn [String.concat]. destruct l as [|s' l]; [done|].
  change (s ++ "," ++ ?r)%string with (s +:+ "," +:+ r).
  by rewrite !count_lf_append, Hs, IH.
Qed.

Lemma count_lf_json_object (members : list (string * string)) :
  Forall (λ m, count_lf m.2 = 0%nat) members →
  count_lf (json_object members) = 0%nat.
Proof.
  intros Hm. unfold json_object. rewrite !count_lf_append, count_lf_concat; [done|].
  apply Forall_fmap. eapply Forall_impl; [exact Hm|].
  intros [k r] Hr. cbn in *. by rewrite !count_lf_append, count_lf_json_string, Hr.
Qed.

Lemma count_lf_json_dumps (sort_keys : bool) (d : dict pyval) :
  float_text_one_line → count_lf (json_dumps sort_keys d) = 0%nat.
Proof.
  intros Hf. unfold json_dumps. apply count_lf_json_object, Forall_fmap, Forall_forall.
  intros [k v] _. cbn. by apply count_lf_json_value.
Qed.

Lemma count_lf_action_line (idx ty : pyval) (id : string) :
  float_text_one_line → count_lf (action_line idx ty id) = 0%nat.
Proof.
  intros Hf. unfold action_line.
  apply count_lf_json_object. repeat constructor. cbn [snd].
  apply count_lf_json_object. repeat constructor; cbn [snd];
    by apply count_lf_json_value.
Qed.

(** A fragment is two lines: the action and the document. *)
Lemma count_lf_fragment (idx ty : pyval) (id : string) (d : dict pyval) :
  float_text_one_line →
  count_lf (action_line idx ty id +:+ LF +:+ json_dumps true d +:+ LF) = 2%nat.
Proof.
  intros Hf.
  by rewrite !count_lf_append, count_lf_action_line, count_lf_json_dumps.
Qed.
End OneLine.

Section EffectiveTimestamp.
Context `{PyRuntime}.
Import Elasticsearch.

Lemma dict_get_resolved c bucket doc t k :
  k ≠ "bucket" →
  dict_get k (resolve_index c bucket doc t).1 = dict_get k doc.
Proof.
  intros Hk. rewrite resolve_index_doc. destruct (index_name c); [|done].
  rewrite dict_get_set. by rewrite decide_False.
Qed.
End EffectiveTimestamp.

(** C5, as amended. For a call that returns, the document is [values]
    merged with the metadata, a field of [values] winning over a metadata
    key of the same name, with the field [timestamp] set to the text of
    the effective timestamp and, where an index-naming function is
    configured, the field [bucket] set to the bucket. The effective
    timestamp is the event timestamp where one is given and is not zero,
    and the receive timestamp where none is given. Its text is the year,
    then month, day, hour, minute and second in two digits each and the
    milliseconds in three, in UTC and with no zone; with a year of four
    digits it has the shape [YYYY-MM-DD HH:MM:SS.mmm]. With an index name
    that is not empty, what goes into the Buffer is the action line with
    the index name, the type name and the id of the document, and the
    minified text of this document, two lines in all; with an empty index
    name nothing goes into the Buffer. The Sample of the scenario, with no
    index-naming function, gets the index name [cpu] and the document with
    the fields [host], [idle] and [timestamp]: the bucket is not a field
    of it. *)
Theorem document_of_sample `{PyRuntime} (c : Elasticsearch.client)
    (recv : pynum) (bucket : string) (values : dict pyval)
    (ts : option pynum) (metadata : dict pyval) (o : Elasticsearch.outcome)
    (f : float) :
  dict_wf values →
  Elasticsearch.process_values c recv bucket values ts metadata = ret o →
  float_text_one_line → float_repr f = "97.5" →
  let t := Elasticsearch.effective_timestamp ts recv in
  let md := Elasticsearch.merge_dict c metadata None in
  let doc := dict_content (Elasticsearch.out_values o) in
  let text := document_text doc in
  let idx := index_of c bucket (Elasticsearch.out_values o) t in
  let emitted :=
    action_text idx (type_of c bucket) (uuid5 Elasticsearch.NAMESPACE_DNS text)
    +:+ LF +:+ text +:+ LF in
  (∃ dt, Elasticsearch.utcfromtimestamp t = ret dt
     ∧ doc = document_of c bucket values md (stamp_of dt)
     ∧ doc !! "timestamp" = Some (PyStr (stamp_of dt))
     ∧ (∀ k v, dict_get k values = Some v → k ≠ "timestamp" → k ≠ "bucket" →
          doc !! k = Some v)
     ∧ (∀ k, dict_get k values = None → k ≠ "timestamp" → k ≠ "bucket" →
          doc !! k = dict_get k md)
     ∧ (1000 ≤ Elasticsearch.year dt → is_es_timestamp (stamp_of dt) = true))
  ∧ (ts = None → t = recv)
  ∧ (∀ e, ts = Some e → truthy (PyNum e) = true → t = e)
  ∧ (truthy idx = true →
     Elasticsearch.out_buffer o = Elasticsearch.buffer c ++ [emitted])
  ∧ (truthy idx = false → Elasticsearch.out_buffer o = Elasticsearch.buffer c)
  ∧ count_lf emitted = 2%nat
  ∧ (let scenario_text :=
       "{" +:+ quoted "host" +:+ ":" +:+ quoted "a1"
       +:+ "," +:+ quoted "idle" +:+ ":" +:+ "97.5"
       +:+ "," +:+ quoted "timestamp" +:+ ":" +:+ quoted "2023-11-14 22:13:20.000"
       +:+ "}" in
     Elasticsearch.process_values (plain_client []) recv "cpu"
       [("idle", PyNum (NFloat f))] (Some (NInt 1700000000))
       [("host", PyStr "a1")]
     = ret {| Elasticsearch.out_buffer :=
                [action_text (PyStr "cpu") (PyStr "cpu")
                   (uuid5 Elasticsearch.NAMESPACE_DNS scenario_text)
                 +:+ LF +:+ scenario_text +:+ LF];
              Elasticsearch.out_values :=
                [("idle", PyNum (NFloat f)); ("host", PyStr "a1");
                 ("timestamp", PyStr "2023-11-14 22:13:20.000")];
              Elasticsearch.out_metadata := [("host", PyStr "a1")] |}).
Proof.
  intros Hwf Ho Hlf Hf t md doc text idx emitted.
  pose proof (process_values_emits _ _ _ _ _ _ _ Hwf Ho) as Hb.
  cbv zeta in Hb. fold t doc text idx emitted in Hb.
  destruct (process_values_document _ _ _ _ _ _ _ Ho) as (dt & Hdt & Hdoc).
  fold t doc in Hdt, Hdoc. rewrite (stamp_text t) in Hdoc by done.
  fold (stamp_of dt) in Hdoc.
  change (Elasticsearch.merge_defaults c metadata) with md in Hdoc.
  assert (dict_wf (Elasticsearch.out_values o)) as Hwfo.
  { apply process_values_ret in Ho as (dt' & _ & -> & _).
    by apply resolve_index_wf, dict_set_wf, merge_dict_wf. }
  assert (∀ k, k ≠ "timestamp" → k ≠ "bucket" →
            doc !! k = (dict_content values ∪ dict_content md) !! k) as Hk.
  { intros k Ht Hbk. rewrite Hdoc. unfold document_of.
    destruct (Elasticsearch.index_name c);
      by rewrite ?(lookup_insert_ne _ "bucket"),
           ?(lookup_insert_ne _ "timestamp") by done. }
  split_and!.
  - exists dt. split_and!; [done..| | | |].
    + rewrite Hdoc. unfold document_of.
      destruct (Elasticsearch.index_name c);
        by rewrite ?(lookup_insert_ne _ "bucket"), lookup_insert_eq by done.
    + intros k v Hv Ht Hbk. rewrite Hk by done.
      apply lookup_union_Some_l. by rewrite <-dict_get_content.
    + intros k Hv Ht Hbk. rewrite Hk by done.
      rewrite lookup_union_r by (by rewrite <-dict_get_content).
      by rewrite <-dict_get_content.
    + intros Hy. unfold stamp_of. rewrite <-(stamp_text t dt) by done.
      by apply (stamp_shape t).
  - by intros ->.
  - intros e -> He. subst t. cbn [Elasticsearch.effective_timestamp]. by rewrite He.
  - intros Hi. by rewrite Hi in Hb.
  - intros Hi. by rewrite Hi in Hb.
  - subst emitted text doc.
    rewrite <-action_line_text, <-json_dumps_text by done.
    by apply count_lf_fragment.
  - cbv zeta. rewrite <-action_line_text.
    cbv -[uuid5 float_repr]. rewrite Hf. reflexivity.
Qed.

Lemma demo_float_text_one_line : @float_text_one_line demo_runtime.
Proof. intros []; reflexivity. Qed.

Lemma document_of_sample_witness :
  ∃ o, @Elasticsearch.process_values demo_runtime (plain_client ["pending"])
         (NInt 1700000001) "cpu" [("idle", PyNum (@NFloat demo_runtime F97_5))]
         None [("host", PyStr "a1"); ("idle", PyStr "no")] = ret o
       ∧ let text := @document_text demo_runtime
                       (dict_content (Elasticsearch.out_values o)) in
         Elasticsearch.out_buffer o
         = ["pending";
            @action_text demo_runtime (PyStr "cpu") (PyStr "cpu")
              (@uuid5 demo_runtime Elasticsearch.NAMESPACE_DNS text)
            +:+ LF +:+ text +:+ LF].
Proof.
  eexists. split; [vm_compute; reflexivity|].
  refine (proj1 (proj2 (proj2 (proj2
    (@document_of_sample demo_runtime (plain_client ["pending"])
       (NInt 1700000001) "cpu" [("idle", PyNum (@NFloat demo_runtime F97_5))]
       None [("host", PyStr "a1"); ("idle", PyStr "no")] _ F97_5
       _ _ demo_float_text_one_line eq_refl)))) _).
  - apply (bool_decide_unpack _). vm_compute. exact I.
  - vm_compute. reflexivity.
  - reflexivity.
Defined.

(** C5 as stated fails on its scenario: with no index-naming function the
    bucket is not put into the document, which has the three fields
    [idle], [host] and [timestamp] and no field [bucket]. *)
Lemma scenario_document_without_bucket :
  ∃ o, @Elasticsearch.process_values demo_runtime (plain_client [])
         (NInt 1700000000) "cpu" [("idle", PyNum (@NFloat demo_runtime F97_5))]
         (Some (NInt 1700000000)) [("host", PyStr "a1")] = ret o
       ∧ Elasticsearch.out_values o
         = [("idle", PyNum (@NFloat demo_runtime F97_5)); ("host", PyStr "a1");
            ("timestamp", PyStr "2023-11-14 22:13:20.000")]
       ∧ dict_get "bucket" (Elasticsearch.out_values o) = None
       ∧ dict_content (Elasticsearch.out_values o)
         ≠ dict_content
             [("bucket", PyStr "cpu"); ("host", PyStr "a1");
              ("idle", PyNum (@NFloat demo_runtime F97_5));
              ("timestamp", PyStr "2023-11-14 22:13:20.000")].
Proof.
  eexists. split; [vm_compute; reflexivity|]. cbn [Elasticsearch.out_values].
  split_and!; [reflexivity..|].
  intros Heq. apply (f_equal (λ m : gmap string pyval, m !! "bucket")) in Heq.
  rewrite <-!dict_get_content in Heq. vm_compute in Heq. discriminate.
Qed.

Lemma document_id_by_content_witness :
  ∃ o1 o2,
    @Elasticsearch.process_values demo_runtime (plain_client []) (NInt 5) "cpu"
      [("idle", PyNum (@NFloat demo_runtime F97_5)); ("user", PyNum (NInt 2))]
      (Some (NInt 1700000000)) [("host", PyStr "a1")] = ret o1
    ∧ @Elasticsearch.process_values demo_runtime (plain_client []) (NInt 5) "cpu"
        [("user", PyNum (NInt 2)); ("idle", PyNum (@NFloat demo_runtime F97_5))]
        (Some (NInt 1700000000)) [("host", PyStr "a1")] = ret o2
    ∧ Elasticsearch.out_values o1 ≠ Elasticsearch.out_values o2
    ∧ Elasticsearch.out_buffer o2 = Elasticsearch.out_buffer o1.
Proof.
  eexists _, _. split; [vm_compute; reflexivity|].
  split; [vm_compute; reflexivity|]. split; [discriminate|].
  refine (proj2 (proj2 (proj2 (proj2 (proj2
    (@document_id_by_content demo_runtime (plain_client []) (NInt 5) "cpu"
       [("idle", PyNum (@NFloat demo_runtime F97_5)); ("user", PyNum (NInt 2))]
       [("user", PyNum (NInt 2)); ("idle", PyNum (@NFloat demo_runtime F97_5))]
       (Some (NInt 1700000000)) [("host", PyStr "a1")] _ _ _ _ _ _ _))))
    eq_refl _)).
  - apply (bool_decide_unpack _). vm_compute. exact I.
  - apply (bool_decide_unpack _). vm_compute. exact I.
  - apply map_eq. intros k. rewrite <-!dict_get_content. cbn.
    repeat case_decide; congruence.
  - vm_compute. reflexivity.
  - vm_compute. reflexivity.
  - discriminate.
Defined.

Lemma index_name_resolution_witness :
  let c :=
    Elasticsearch.init_cfg
      {| Elasticsearch.cfg_index_name :=
           Elasticsearch.IndexCallable
             (λ bucket _ _, if bool_decide (bucket = "cpu") then PyStr ""
                            else PyStr bucket);
         Elasticsearch.cfg_type_name := PyNone;
         Elasticsearch.cfg_compression := PyStr "gzip" |}
      (λ d, d) ["pending"] in
  (∃ o, @Elasticsearch.process_values demo_runtime c (NInt 1700000000) "cpu"
          [("idle", PyNum (NInt 3))] None [("host", PyStr "a1")] = ret o
        ∧ Elasticsearch.out_buffer o = ["pending"])
  ∧ (∃ o, @Elasticsearch.process_values demo_runtime c (NInt 1700000000) "mem"
            [("idle", PyNum (NInt 3))] None [("host", PyStr "a1")] = ret o
          ∧ let text :=
              @document_text demo_runtime
                (dict_content (Elasticsearch.out_values o)) in
            Elasticsearch.out_buffer o
            = ["pending";
               @action_text demo_runtime (PyStr "mem") (PyStr "mem")
                 (@uuid5 demo_runtime Elasticsearch.NAMESPACE_DNS text)
               +:+ LF +:+ text +:+ LF]).
Proof.
  intros c. split.
  - destruct (@index_name_resolution demo_runtime c (NInt 1700000000) "cpu"
                [("idle", PyNum (NInt 3))] None [("host", PyStr "a1")]
                (Elasticsearch.mk_datetime 2023 11 14 22 13 20 0))
      as (o & Ho & Hfn & _).
    + apply (bool_decide_unpack _). vm_compute. exact I.
    + vm_compute. reflexivity.
    + exists o. split; [exact Ho|].
      refine (proj2 (proj2 (Hfn _ eq_refl)) _). right. left. reflexivity.
  - destruct (@index_name_resolution demo_runtime c (NInt 1700000000) "mem"
                [("idle", PyNum (NInt 3))] None [("host", PyStr "a1")]
                (Elasticsearch.mk_datetime 2023 11 14 22 13 20 0))
      as (o & Ho & Hfn & _).
    + apply (bool_decide_unpack _). vm_compute. exact I.
    + vm_compute. reflexivity.
    + exists o. split; [exact Ho|].
      exact (proj1 (proj2 (Hfn _ eq_refl)) eq_refl).
Defined.

(** C10, as amended. An event timestamp that is [None], the int 0 or a
    float equal to zero is replaced by the receive timestamp: the call
    does what it does with no event timestamp at all, and the [timestamp]
    field of the document is the text of the receive timestamp. (The
    epoch itself is what gets encoded when the receive timestamp is zero
    too.) *)
Theorem falsy_timestamp_replaced `{PyRuntime} (c : Elasticsearch.client)
    (recv : pynum) (bucket : string) (values : dict pyval)
    (ts : option pynum) (metadata : dict pyval) :
  ts = None ∨ ts = Some (NInt 0)
  ∨ (∃ f, ts = Some (NFloat f) ∧ (float_val f == 0)%Q) →
  Elasticsearch.effective_timestamp ts recv = recv
  ∧ Elasticsearch.process_values c recv bucket values ts metadata
    = Elasticsearch.process_values c recv bucket values None metadata
  ∧ ∀ o, Elasticsearch.process_values c recv bucket values ts metadata = ret o →
         ∃ dt, Elasticsearch.utcfromtimestamp recv = ret dt
               ∧ dict_get "timestamp" (Elasticsearch.out_values o)
                 = Some (PyStr (Elasticsearch.drop_last 3
                                  (Elasticsearch.strftime dt))).
Proof.
  intros Hts.
  assert (Elasticsearch.effective_timestamp ts recv = recv) as He.
  { destruct Hts as [->|[->|(f & -> & Hf)]]; [done..|].
    cbn. unfold Qeq in Hf. cbn in Hf.
    assert (Qnum (float_val f) = 0) as -> by lia. done. }
  split_and!; [done| |].
  - by rewrite !process_values_unfold, He.
  - intros o Ho. apply process_values_ret in Ho as (dt & Hdt & Hv & _).
    rewrite He in Hdt, Hv. exists dt. split; [done|].
    rewrite Hv, dict_get_resolved, dict_get_set by done. by rewrite decide_True.
Qed.

Lemma falsy_timestamp_replaced_witness :
  @Elasticsearch.effective_timestamp demo_runtime
     (Some (@NFloat demo_runtime F0_0)) (NInt 1700000000) = NInt 1700000000
  ∧ @Elasticsearch.process_values demo_runtime (plain_client []) (NInt 1700000000)
      "cpu" [("idle", PyNum (NInt 3))] (Some (@NFloat demo_runtime F0_0)) []
    = @Elasticsearch.process_values demo_runtime (plain_client []) (NInt 1700000000)
        "cpu" [("idle", PyNum (NInt 3))] None []
  ∧ ∀ o, @Elasticsearch.process_values demo_runtime (plain_client [])
           (NInt 1700000000) "cpu" [("idle", PyNum (NInt 3))]
           (Some (@NFloat demo_runtime F0_0)) [] = ret o →
         ∃ dt, @Elasticsearch.utcfromtimestamp demo_runtime (NInt 1700000000) = ret dt
               ∧ dict_get "timestamp" (Elasticsearch.out_values o)
                 = Some (PyStr (Elasticsearch.drop_last 3
                                  (Elasticsearch.strftime dt))).
Proof.
  apply (@falsy_timestamp_replaced demo_runtime).
  right. right. exists F0_0. split; reflexivity.
Defined.

(** C10 as stated fails where the receive timestamp is zero as well: the
    event timestamp 0 is then encoded as the epoch. *)
Lemma epoch_encoded :
  ∃ o, @Elasticsearch.process_values demo_runtime (plain_client []) (NInt 0)
         "cpu" [("idle", PyNum (NInt 3))] (Some (NInt 0)) [] = ret o
       ∧ dict_get "timestamp" (Elasticsearch.out_values o)
         = Some (PyStr "1970-01-01 00:00:00.000").
Proof. eexists. split; vm_compute; reflexivity. Qed.

(** ** Pushing *)

Ltac all_calls :=
  repeat (apply Forall_cons; split; [auto|]); apply Forall_nil_2.

(** C6, as amended. An upload makes one request, a POST to [/_bulk]
    whose body is the concatenation of the fragments, encoded and passed
    through the configured compressor (with neither gzip nor deflate
    configured, the encoded concatenation itself). It raises exactly when
    a call on the connection raises or the status of the response is not
    200, a 2xx status other than 200 included; with status 200 and no such
    exception it reads the body of the response and raises nothing. *)
Theorem bulk_upload_outcome `{PyRuntime} (compression : string)
    (env : Elasticsearch.http_env) (docs : list string) :
  let body :=
    Elasticsearch.compressor compression (encode (String.concat "" docs)) in
  let req :=
    Elasticsearch.Request "POST" "/_bulk" body
      [("Content-Type", "application/x-ndjson");
       ("Content-Encoding", compression); ("Accept-Encoding", compression)] in
  let calls := (Elasticsearch.bulk_upload compression env docs).1 in
  let r := (Elasticsearch.bulk_upload compression env docs).2 in
  (∃ rest, calls = req :: rest
           ∧ Forall (λ call, call = Elasticsearch.GetResponse
                             ∨ call = Elasticsearch.Read) rest)
  ∧ (compression ≠ "gzip" → compression ≠ "deflate" →
     body = encode (String.concat "" docs))
  ∧ (raises r ↔
     raises (Elasticsearch.on_request env)
     ∨ raises (Elasticsearch.on_getresponse env)
     ∨ (∃ status, Elasticsearch.on_getresponse env = ret status ∧ status ≠ 200)
     ∨ raises (Elasticsearch.on_read env))
  ∧ (returns (Elasticsearch.on_request env) →
     Elasticsearch.on_getresponse env = ret 200 →
     returns (Elasticsearch.on_read env) →
     calls = [req; Elasticsearch.GetResponse; Elasticsearch.Read] ∧ r = ret tt)
  ∧ (∀ status, returns (Elasticsearch.on_request env) →
       Elasticsearch.on_getresponse env = ret status → status ≠ 200 →
       calls = [req; Elasticsearch.GetResponse]
       ∧ r = raise (ConnectionError ("Elasticsearch error code " +:+ str_int status))).
Proof.
  intros body req calls r. subst calls r body req.
  unfold Elasticsearch.bulk_upload. cbn [dict_set]. cbn [decide].
  assert (∀ s, dict_set "Accept-Encoding" s
                 (dict_set "Content-Encoding" s
                    [("Content-Type", "application/x-ndjson")])
               = [("Content-Type", "application/x-ndjson"); ("Content-Encoding", s);
                  ("Accept-Encoding", s)]) as -> by done.
  split_and!.
  - destruct (Elasticsearch.on_request env) as [e|[]].
    { eexists. split; [reflexivity|]. constructor. }
    destruct (Elasticsearch.on_getresponse env) as [e|status].
    { eexists. split; [reflexivity|]. all_calls. }
    destruct (status =? 200); cbn [negb].
    + destruct (Elasticsearch.on_read env);
        (eexists; split; [reflexivity|]; all_calls).
    + eexists. split; [reflexivity|]. all_calls.
  - intros Hg Hd. unfold Elasticsearch.compressor.
    by rewrite !bool_decide_false.
  - unfold raises.
    destruct (Elasticsearch.on_request env) as [e|[]].
    { split; intros _; [left|]; by eexists. }
    destruct (Elasticsearch.on_getresponse env) as [e|status].
    { split; intros _; [right; left|]; by eexists. }
    destruct (Z.eqb_spec status 200) as [->|Hne]; cbn [negb].
    2:{ split; intros _; [right; right; left; by exists status|by eexists]. }
    destruct (Elasticsearch.on_read env) as [e|b]; cbn [snd].
    { split; intros _; [do 3 right|]; by eexists. }
    split; [by intros [? ?]|].
    intros [[? ?]|[[? ?]|[(? & ? & ?)|[? ?]]]]; unfold ret in *; congruence.
  - intros [[] ->] -> [b ->]. done.
  - intros status [[] ->] -> Hne. cbv [ret].
    by rewrite (proj2 (Z.eqb_neq status 200)).
Qed.

(** C6 as stated, a non-success status being one outside 200..299, fails
    for status 204: the upload raises on this success status. *)
Lemma bulk_upload_raises_on_204 :
  (@Elasticsearch.bulk_upload demo_runtime "identity"
     {| Elasticsearch.on_request := ret tt;
        Elasticsearch.on_getresponse := ret 204;
        Elasticsearch.on_read := ret [] |}
     ["{}" +:+ LF]).2
  = raise (ConnectionError "Elasticsearch error code 204")
  ∧ 200 ≤ 204 < 300.
Proof. split; [reflexivity|lia]. Qed.

Section PushFacts.
Context `{PyRuntime}.

(** [push_buffer] reads the Buffer and leaves it as it is. *)
Lemma push_buffer_keeps env st :
  PushClient.buffer (Carbon.push_buffer env st).1.1 = PushClient.buffer st.
Proof.
  unfold Carbon.push_buffer.
  by destruct (Carbon.current_socket env st) as [calls [e|s]].
Qed.

(** [push_chunk] returns no fragment to send again, or raises. *)
Lemma push_chunk_result c env chunk :
  (Elasticsearch.push_chunk c env chunk).2 = ret []
  ∨ raises (Elasticsearch.push_chunk c env chunk).2.
Proof.
  unfold Elasticsearch.push_chunk.
  destruct (Elasticsearch.bulk_upload _ _ _) as [calls [e|[]]]; cbn;
    [right; by eexists|by left].
Qed.

(** A flush whose push leaves the Buffer alone either empties the
    Buffer or leaves it alone and drops the socket. *)
Lemma flush_outcome {call} (push : PushClient.state → PushClient.state * list call * result unit) st :
  (∀ st, PushClient.buffer (push st).1.1 = PushClient.buffer st) →
  let '(st', _, ok) := PushClient.flush push st in
  if ok then PushClient.buffer st' = []
  else PushClient.buffer st' = PushClient.buffer st
       ∧ PushClient.socket st' = None ∧ raises (push st).2
       ∧ PushClient.buffer st ≠ [].
Proof.
  intros Hpush. unfold PushClient.flush.
  destruct (PushClient.buffer st) as [|x l] eqn:Hb; [done|].
  specialize (Hpush st). destruct (push st) as [[st' calls] [e|[]]]; cbn in *; [|done].
  split_and!; [congruence|done|by eexists|done].
Qed.

Lemma state_eta (st : PushClient.state) sock buf :
  PushClient.socket st = sock → PushClient.buffer st = buf →
  st = {| PushClient.socket := sock; PushClient.buffer := buf |}.
Proof. destruct st. cbn. by intros -> ->. Qed.

Lemma carbon_flush_failed env st :
  (Carbon.flush env st).2 = false →
  (Carbon.flush env st).1.1
  = {| PushClient.socket := None; PushClient.buffer := PushClient.buffer st |}
  ∧ PushClient.buffer st ≠ [] ∧ raises (Carbon.push_buffer env st).2.
Proof.
  unfold Carbon.flush.
  pose proof (flush_outcome (Carbon.push_buffer env) st (push_buffer_keeps env)) as Hf.
  destruct (PushClient.flush _ st) as [[st' calls] ok]. cbn. intros ->.
  destruct Hf as (Hb & Hs & Hr & Hne). split_and!; [by apply state_eta|done..].
Qed.

Lemma es_flush_failed c env st :
  (Elasticsearch.flush c env st).2 = false →
  (Elasticsearch.flush c env st).1.1
  = {| PushClient.socket := None; PushClient.buffer := PushClient.buffer st |}
  ∧ PushClient.buffer st ≠ []
  ∧ raises (Elasticsearch.push_chunk c env (PushClient.buffer st)).2.
Proof.
  unfold Elasticsearch.flush. set (push := λ st0 : PushClient.state, _).
  pose proof (flush_outcome push st) as Hf.
  destruct (PushClient.flush push st) as [[st' calls] ok]. cbn. intros ->.
  destruct Hf as (Hb & Hs & Hr & Hne).
  { intros st0. subst push. cbn beta. by destruct (Elasticsearch.push_chunk _ _ _). }
  split_and!; [by apply state_eta|done|]. subst push. cbn beta in Hr.
  destruct (Elasticsearch.push_chunk _ _ _) as [calls' [e|l]]; cbn in *; [by eexists|].
  by destruct Hr as [e' ?].
Qed.
End PushFacts.

(** C7. Neither push operation changes the Buffer: [push_buffer] leaves
    it as it was whether it raises or not, and [push_chunk] is given the
    fragments and returns none of them to send again unless it raises.
    So a flush whose push raises leaves the Buffer equal to what it was
    before, a flush whose push succeeds leaves it empty, and the flush
    after a failed one sends the fragments that were in the Buffer
    followed by those appended since, in that order. *)
Theorem buffer_kept_until_pushed `{PyRuntime} :
  (∀ env st,
     PushClient.buffer (Carbon.push_buffer env st).1.1 = PushClient.buffer st)
  ∧ (∀ c env chunk,
       (Elasticsearch.push_chunk c env chunk).2 = ret []
       ∨ raises (Elasticsearch.push_chunk c env chunk).2)
  ∧ (∀ env st,
       let '(st', _, ok) := Carbon.flush env st in
       if ok then PushClient.buffer st' = []
       else PushClient.buffer st' = PushClient.buffer st
            ∧ raises (Carbon.push_buffer env st).2)
  ∧ (∀ c env st,
       let '(st', _, ok) := Elasticsearch.flush c env st in
       if ok then PushClient.buffer st' = []
       else PushClient.buffer st' = PushClient.buffer st
            ∧ raises (Elasticsearch.push_chunk c env (PushClient.buffer st)).2)
  ∧ (∀ env1 env2 st more sock,
       (Carbon.flush env1 st).2 = false →
       Carbon.on_connect env2 = ret sock → Carbon.on_sendall env2 = ret tt →
       Carbon.flush env2 (PushClient.append more (Carbon.flush env1 st).1.1)
       = ({| PushClient.socket := Some sock; PushClient.buffer := [] |},
          [Carbon.Connect;
           Carbon.SendAll sock
             (encode (String.concat "" (PushClient.buffer st ++ more)))],
          true))
  ∧ (∀ c env1 env2 st more,
       (Elasticsearch.flush c env1 st).2 = false →
       Elasticsearch.on_request env2 = ret tt →
       Elasticsearch.on_getresponse env2 = ret 200 →
       returns (Elasticsearch.on_read env2) →
       ∃ req rest,
         Elasticsearch.flush c env2
           (PushClient.append more (Elasticsearch.flush c env1 st).1.1)
         = ({| PushClient.socket := None; PushClient.buffer := [] |},
            req :: rest, true)
         ∧ ∃ headers,
             req = Elasticsearch.Request "POST" "/_bulk"
                     (Elasticsearch.compressor (Elasticsearch.compression c)
                        (encode (String.concat "" (PushClient.buffer st ++ more))))
                     headers).
Proof.
  split_and!.
  - apply push_buffer_keeps.
  - apply push_chunk_result.
  - intros env st. pose proof (carbon_flush_failed env st) as Hfail.
    pose proof (flush_outcome (Carbon.push_buffer env) st (push_buffer_keeps env)) as Hf.
    unfold Carbon.flush in *.
    destruct (PushClient.flush _ st) as [[st' calls] [|]]; [done|].
    by destruct Hf as (? & _ & ? & _).
  - intros c env st. pose proof (es_flush_failed c env st) as Hfail.
    unfold Elasticsearch.flush in *. set (push := λ st0 : PushClient.state, _) in *.
    pose proof (flush_outcome push st) as Hf.
    destruct (PushClient.flush push st) as [[st' calls] [|]].
    + apply Hf. intros st0. subst push. cbn beta.
      by destruct (Elasticsearch.push_chunk c env (PushClient.buffer st0)).
    + destruct (Hfail eq_refl) as (Hst & _ & Hr). cbn in Hst. by subst st'.
  - intros env1 env2 st more sock Hfail Hc Hs.
    destruct (carbon_flush_failed env1 st Hfail) as (-> & Hne & _).
    unfold Carbon.flush, PushClient.flush, PushClient.append.
    cbn [PushClient.buffer PushClient.socket].
    destruct (PushClient.buffer st ++ more) as [|x l] eqn:Hbuf.
    { by apply app_eq_nil in Hbuf as [? _]. }
    unfold Carbon.push_buffer, Carbon.current_socket.
    cbn [PushClient.buffer PushClient.socket]. rewrite Hc, Hs. done.
  - intros c env1 env2 st more Hfail Hq Hg [b Hr].
    destruct (es_flush_failed c env1 st Hfail) as (-> & Hne & _).
    unfold Elasticsearch.flush, PushClient.flush, PushClient.append.
    cbn [PushClient.buffer PushClient.socket].
    destruct (PushClient.buffer st ++ more) as [|x l] eqn:Hbuf.
    { by apply app_eq_nil in Hbuf as [? _]. }
    unfold Elasticsearch.push_chunk, Elasticsearch.bulk_upload.
    rewrite Hq, Hg, Hr. cbn [Z.eqb Pos.eqb negb bind ret PushClient.socket].
    eexists _, _. split; [reflexivity|]. by eexists.
Qed.

Lemma buffer_kept_until_pushed_witness :
  Carbon.flush
     {| Carbon.on_connect := ret 7%nat; Carbon.on_sendall := ret tt |}
     (PushClient.append ["c"]
        (Carbon.flush
           {| Carbon.on_connect := raise NetworkError;
              Carbon.on_sendall := ret tt |}
           {| PushClient.socket := None; PushClient.buffer := ["a"; "b"] |}).1.1)
  = ({| PushClient.socket := Some 7%nat; PushClient.buffer := [] |},
     [Carbon.Connect;
      Carbon.SendAll 7%nat (encode (String.concat "" (["a"; "b"] ++ ["c"])))],
     true).
Proof.
  refine (proj1 (proj2 (proj2 (proj2 (proj2 (@buffer_kept_until_pushed demo_runtime)))))
            {| Carbon.on_connect := raise NetworkError; Carbon.on_sendall := ret tt |}
            {| Carbon.on_connect := ret 7%nat; Carbon.on_sendall := ret tt |}
            {| PushClient.socket := None; PushClient.buffer := ["a"; "b"] |}
            ["c"] 7%nat _ _ _); reflexivity.
Defined.

(** ** The supervisor *)

Section MainFacts.
Context {sample : Type}.
Variable process_join_timeout : Z.
Variable repr_children : list string → string.
Variable servers clients : list string.

Abbreviation action := (@Main.action sample).
Abbreviation shutdown :=
  (@Main.shutdown sample process_join_timeout repr_children servers clients).
Abbreviation iteration :=
  (@Main.iteration sample process_join_timeout repr_children servers clients).
Abbreviation forward :=
  (@Main.forward sample process_join_timeout repr_children servers clients).
Abbreviation check_servers :=
  (@Main.check_servers sample process_join_timeout repr_children servers clients).
Abbreviation loop :=
  (@Main.loop sample process_join_timeout repr_children servers clients).
Abbreviation run :=
  (@Main.run sample process_join_timeout repr_children servers clients).

Lemma flat_map_singleton {A B} (f : A → B) (l : list A) :
  flat_map (λ x, [f x]) l = f <$> l.
Proof. induction l as [|x l IH]; [done|]. cbn. by rewrite IH. Qed.

Lemma for_each_emits {A} (l : list A) (body : A → @Main.M sample unit)
    (f : A → list action) :
  (∀ x, x ∈ l → body x = (f x, ret tt)) →
  Main.for_each l body = (flat_map f l, ret tt).
Proof.
  induction l as [|x l IH]; intros Hb; [done|].
  cbn [Main.for_each flat_map]. rewrite (Hb x) by left.
  rewrite IH by (intros y Hy; apply Hb; by right). done.
Qed.

Lemma for_each_app {A} (l1 l2 : list A) (body : A → @Main.M sample unit) :
  Main.for_each (l1 ++ l2) body
  = Main.then_M (Main.for_each l1 body) (Main.for_each l2 body).
Proof.
  induction l1 as [|x l1 IH]; cbn [Main.for_each app].
  - unfold Main.then_M, Main.bind_M, Main.unit_M. cbn.
    by destruct (Main.for_each l2 body).
  - rewrite IH. unfold Main.then_M, Main.bind_M.
    destruct (body x) as [tr [e|[]]]; [done|].
    destruct (Main.for_each l1 body) as [tr1 [e|[]]]; [done|].
    destruct (Main.for_each l2 body) as [tr2 r]. by rewrite app_assoc.
Qed.

Lemma then_M_ret {A B} (tr : list action) (a : A) (k : @Main.M sample B) :
  Main.then_M (tr, ret a) k = (tr ++ k.1, k.2).
Proof. unfold Main.then_M, Main.bind_M, ret. by destruct k. Qed.

Abbreviation stop_actions :=
  (@Main.stop_actions sample process_join_timeout servers clients).

Lemma shutdown_unfold active_children err :
  shutdown active_children err
  = let children :=
      filter (λ child, negb (String.prefix "SyncManager" child)) active_children in
    (stop_actions active_children,
     if bool_decide (children = []) && bool_decide (err = "") then ret tt
     else raise (BuckyError
                   (if bool_decide (err = "")
                    then "Not all children died gracefully: "
                           +:+ repr_children children
                    else err))).
Proof.
  unfold Main.shutdown, Main.stop_actions. cbv zeta.
  rewrite !(for_each_emits _ _ (λ s, [_; _])) by done.
  rewrite !then_M_ret. cbn [fst snd].
  set (children := filter _ active_children).
  destruct (bool_decide (children = [])), (bool_decide_reflect (err = "")) as [->|He];
    cbn; rewrite ?app_nil_r; try done.
  all: rewrite bool_decide_false by done; cbn; by rewrite app_nil_r.
Qed.

Lemma shutdown_raises active_children err :
  err ≠ "" →
  shutdown active_children err
  = (stop_actions active_children, raise (BuckyError err)).
Proof.
  intros He. rewrite shutdown_unfold. cbv zeta.
  by rewrite (bool_decide_false (err = "")), andb_false_r.
Qed.

Lemma stop_actions_send_no_sample active_children :
  Forall (λ a, ¬ Main.sends_sample a) (stop_actions active_children).
Proof.
  unfold Main.stop_actions. rewrite !Forall_app. split_and!;
    apply Forall_flat_map, Forall_forall; intros x _;
    repeat (apply Forall_cons; split; [by intros (? & ? & ?)|]);
    apply Forall_nil_2.
Qed.

(** Forwarding reaches a dead client after it has sent the Sample to
    the clients before it, shuts down and raises. *)
Lemma forward_dead_client t s pre c post :
  clients = pre ++ c :: post →
  (∀ x, x ∈ pre → Main.alive t x = true) → Main.alive t c = false →
  forward t s
  = (((λ x, Main.Send x (Some s)) <$> pre)
     ++ stop_actions (Main.active_children t),
     raise (BuckyError "Client process died. Exiting.")).
Proof.
  intros Hcl Hpre Hc. unfold Main.forward.
  rewrite Hcl at 1. rewrite for_each_app.
  rewrite (for_each_emits pre _ (λ x, [Main.Send x (Some s)])).
  2:{ intros x Hx. by rewrite Hpre. }
  cbn [Main.for_each]. rewrite Hc. cbn [negb].
  rewrite shutdown_raises by done. rewrite then_M_ret. cbn.
  by rewrite flat_map_singleton.
Qed.

Lemma check_servers_alive t :
  (∀ srv, srv ∈ servers → Main.alive t srv = true) →
  check_servers t = ([], ret tt).
Proof.
  intros Hs. unfold Main.check_servers.
  rewrite (for_each_emits _ _ (λ _, [])).
  - f_equal. clear Hs. generalize servers. intros l. by induction l.
  - intros x Hx. by rewrite Hs.
Qed.
Lemma loop_app before rest tr0 :
  loop before = (tr0, ret None) →
  loop (before ++ rest) = (tr0 ++ (loop rest).1, (loop rest).2).
Proof.
  revert tr0. induction before as [|t before IH]; intros tr0.
  - cbn. intros [= <-]. by destruct (loop rest).
  - cbn [Main.loop app]. unfold Main.bind_M.
    destruct (iteration t) as [tr1 [e|[|]]]; [done| |].
    + destruct (loop before) as [tr2 r2] eqn:Hl. intros [= <- ->].
      rewrite (IH tr2) by done. by rewrite app_assoc.
    + cbn. by intros [= _ ?].
Qed.

(** C9, as amended. A shutdown closes and joins every collector, then
    sends the sentinel to every client and joins it, then terminates
    and joins every child still active whose name does not start with
    [SyncManager]; a child with such a name is left alone. It raises,
    and the executable exits with a status other than zero, exactly
    when a child had to be terminated or the shutdown was given an
    error; with no such child and no error it returns. *)
Theorem shutdown_sequence (active_children : list string) (err : string) :
  let children :=
    filter (λ child, negb (String.prefix "SyncManager" child)) active_children in
  let tr := (shutdown active_children err).1 in
  let r := (shutdown active_children err).2 in
  tr = flat_map (λ s, [Main.Close s; Main.Join s process_join_timeout]) servers
       ++ flat_map (λ c, [Main.Send c None; Main.Join c process_join_timeout])
            clients
       ++ flat_map (λ ch, [Main.Terminate ch; Main.Join ch 1]) children
  ∧ (raises r ↔ children ≠ [] ∨ err ≠ "")
  ∧ (r = ret tt ↔ children = [] ∧ err = "")
  ∧ (Main.exit_status r ≠ 0 ↔ children ≠ [] ∨ err ≠ "")
  ∧ (∀ ch, Main.Terminate ch ∈ tr ↔
           ch ∈ active_children ∧ String.prefix "SyncManager" ch = false).
Proof.
  intros children tr r. subst tr r. rewrite shutdown_unfold. cbv zeta.
  fold children. cbn [fst snd]. split_and!.
  - done.
  - destruct (bool_decide_reflect (children = [])) as [Hc|Hc],
      (bool_decide_reflect (err = "")) as [He|He]; cbn [andb];
      (split; [intros [e Hr]|intros Hor]); try done;
      try (by eexists); try tauto; try (destruct Hor; done).
  - destruct (bool_decide_reflect (children = [])) as [Hc|Hc],
      (bool_decide_reflect (err = "")) as [He|He]; cbn [andb];
      (split; [intros Hr|intros [? ?]]); done.
  - destruct (bool_decide_reflect (children = [])) as [Hc|Hc],
      (bool_decide_reflect (err = "")) as [He|He]; cbn [andb Main.exit_status];
      (split; [intros Hr|intros Hor]); try done; try tauto;
      try (destruct Hor; done).
  - intros ch. unfold Main.stop_actions. fold children.
    rewrite !elem_of_app, !list_elem_of_In, !in_flat_map.
    split.
    + intros [(x & _ & Hx)|[(x & _ & Hx)|(x & Hin & Hx)]].
      * by destruct Hx as [?|[?|[]]].
      * by destruct Hx as [?|[?|[]]].
      * cbn in Hx. destruct Hx as [[= ->]|[?|[]]]; [|done].
        apply list_elem_of_In, list_elem_of_filter in Hin as [Hp Hin].
        split; [by apply list_elem_of_In|].
        by apply negb_prop_elim, Is_true_false in Hp.
    + intros [Hin Hp]. right. right. exists ch. split; [|by left].
      apply list_elem_of_In, list_elem_of_filter.
      split; [by rewrite Hp|by apply list_elem_of_In].
Qed.

(** C8, as amended. In an iteration that got a Sample from the queue,
    the supervisor forwards the Sample to the clients in order until it
    comes to one that is not alive; it then shuts down and raises, and
    the main loop with it, whatever the queue would have yielded later:
    the Sample has gone to the clients before the dead one, and what
    follows the detection is the actions of the shutdown, none of which
    forwards a Sample. An iteration whose wait on the queue timed out,
    or was interrupted, does not look at the clients: with every
    collector alive it does nothing and the loop goes on. *)
Theorem dead_client_stops_forwarding (before after : list Main.tick)
    (t : Main.tick) (s : sample) (pre post : list string) (c : string)
    (tr0 : list action) :
  loop before = (tr0, ret None) →
  Main.poll t = Main.Got s →
  clients = pre ++ c :: post →
  (∀ x, x ∈ pre → Main.alive t x = true) → Main.alive t c = false →
  let stop := stop_actions (Main.active_children t) in
  let sent := (λ x, Main.Send x (Some s)) <$> pre in
  let died := BuckyError "Client process died. Exiting." in
  iteration t = (sent ++ stop, raise died)
  ∧ run (before ++ t :: after)
    = ((Main.Start <$> servers) ++ (Main.Start <$> clients)
       ++ tr0 ++ sent ++ stop,
       raise died)
  ∧ Forall (λ a, ¬ Main.sends_sample a) stop
  ∧ (∀ t', Main.poll t' = Main.Empty ∨ Main.poll t' = Main.IOError →
           (∀ srv, srv ∈ servers → Main.alive t' srv = true) →
           iteration t' = ([], ret Main.Continue)).
Proof.
  intros Hbefore Hpoll Hcl Hpre Hc stop sent died.
  assert (iteration t = (sent ++ stop, raise died)) as Hit.
  { unfold Main.iteration. rewrite Hpoll.
    by rewrite (forward_dead_client t s pre c post). }
  split_and!; [done| |apply stop_actions_send_no_sample|].
  - unfold Main.run.
    rewrite !(for_each_emits _ _ (λ x, [Main.Start x])) by done.
    rewrite !flat_map_singleton, !then_M_ret.
    rewrite (loop_app before (t :: after) tr0) by done.
    cbn [Main.loop]. rewrite Hit. done.
  - intros t' Hp Hsrv. unfold Main.iteration.
    destruct Hp as [-> | ->]; [|done].
    by rewrite check_servers_alive.
Qed.
End MainFacts.

Lemma dead_client_stops_forwarding_witness :
  let up : Main.tick (sample := nat) :=
    {| Main.poll := Main.Empty; Main.alive := λ _, true;
       Main.active_children := [] |} in
  let down (n : nat) : Main.tick :=
    {| Main.poll := Main.Got n;
       Main.alive := λ p, negb (bool_decide (p = "influxdb"));
       Main.active_children := ["statsd"] |} in
  Main.run 5 (λ _, "") ["statsd"] ["carbon"; "influxdb"; "prometheus"]
    ([up] ++ down 1%nat :: [down 2%nat])
  = ([Main.Start "statsd"; Main.Start "carbon"; Main.Start "influxdb";
      Main.Start "prometheus"; Main.Send "carbon" (Some 1%nat);
      Main.Close "statsd"; Main.Join "statsd" 5;
      Main.Send "carbon" None; Main.Join "carbon" 5;
      Main.Send "influxdb" None; Main.Join "influxdb" 5;
      Main.Send "prometheus" None; Main.Join "prometheus" 5;
      Main.Terminate "statsd"; Main.Join "statsd" 1],
     raise (BuckyError "Client process died. Exiting.")).
Proof.
  intros up down.
  refine (proj1 (proj2
    (@dead_client_stops_forwarding nat 5 (λ _, "") ["statsd"]
       ["carbon"; "influxdb"; "prometheus"] [up] [down 2%nat] (down 1%nat)
       1%nat ["carbon"] ["prometheus"] "influxdb" [] _ _ _ _ _))).
  - reflexivity.
  - reflexivity.
  - reflexivity.
  - intros x Hx. apply list_elem_of_singleton in Hx as ->. reflexivity.
  - reflexivity.
Defined.

(** C8 as stated fails in an iteration whose wait on the queue times out:
    a client that is not alive goes unnoticed, and the loop goes on
    without a shutdown. *)
Lemma dead_client_unnoticed_on_timeout :
  Main.iteration (sample := nat) 5 (λ _, "") ["statsd"] ["carbon"]
    {| Main.poll := Main.Empty;
       Main.alive := λ p, negb (bool_decide (p = "carbon"));
       Main.active_children := ["statsd"] |}
  = ([], ret Main.Continue).
Proof. reflexivity. Qed.

(** C9 as stated fails for a child whose name starts with [SyncManager]:
    it is still alive and is not terminated, and the shutdown returns. *)
Lemma shutdown_spares_sync_manager :
  Main.shutdown (sample := nat) 5 (λ _, "") ["statsd"] ["carbon"]
    ["SyncManager-1"] ""
  = ([Main.Close "statsd"; Main.Join "statsd" 5;
      Main.Send "carbon" None; Main.Join "carbon" 5],
     ret tt).
Proof. reflexivity. Qed.

(** * Further properties *)

(** ** The plaintext encoder: when a name cannot be built *)

Lemma mapM_ext {A B} (f g : A → result B) (l : list A) :
  (∀ a, a ∈ l → f a = g a) → mapM f l = mapM g l.
Proof.
  induction l as [|a l IH]; intros Hfg; [done|].
  cbn. rewrite (Hfg a) by left. rewrite IH; [done|].
  intros b Hb. apply Hfg. by right.
Qed.

Lemma dict_get_elem {V} k (v : V) (d : dict V) :
  dict_wf d → (k, v) ∈ d → dict_get k d = Some v.
Proof.
  unfold dict_wf, dict_keys. induction d as [|[k' v'] d IH]; [by intros _ ?%elem_of_nil|].
  cbn. intros [Hk' Hd]%NoDup_cons [[= -> ->]|Hin]%elem_of_cons.
  - by rewrite decide_True.
  - rewrite decide_False; [by apply IH|]. intros ->. apply Hk'.
    apply list_elem_of_fmap. by exists (k', v).
Qed.

Lemma dict_get_Some_elem {V} k (v : V) (d : dict V) :
  dict_get k d = Some v → (k, v) ∈ d.
Proof.
  induction d as [|[k' v'] d IH]; [done|].
  cbn. case_decide as Hk; [intros [= ->]; subst; left|]. intros Hg. right. by apply IH.
Qed.

Lemma dict_del_content {V} k (d : dict V) :
  dict_wf d → dict_content (dict_del k d) = delete k (dict_content d).
Proof.
  intros Hd. apply map_eq. intros k'.
  rewrite <-dict_get_content, dict_get_del by done.
  case_decide as Hk.
  - subst. by rewrite lookup_delete_eq.
  - rewrite lookup_delete_ne by done. apply dict_get_content.
Qed.

Section CarbonErrors.
Context `{PyRuntime}.
Implicit Types (md : dict pyval) (o ks : list string).

Lemma found_mappings_elem o md k :
  k ∈ Carbon.found_mappings o md ↔ k ∈ o ∧ k ∈ dict_keys md.
Proof.
  unfold Carbon.found_mappings. rewrite list_elem_of_filter, <-dict_has_keys.
  rewrite Is_true_true. tauto.
Qed.

(** Popping raises at the first key that the dictionary lacks by then: a
    key that was never there, or one that an earlier pop has taken. *)
Lemma pop_each_raises ks md :
  dict_wf md → ¬ (NoDup ks ∧ ∀ k, k ∈ ks → k ∈ dict_keys md) →
  ∃ k, k ∈ ks ∧ Carbon.pop_each ks md = raise (KeyError k).
Proof.
  revert md. induction ks as [|k ks IH]; intros md Hmd Hno.
  - exfalso. apply Hno. split; [apply NoDup_nil_2|]. by intros k ?%elem_of_nil.
  - cbn [Carbon.pop_each]. unfold dict_pop.
    destruct (dict_get k md) as [v|] eqn:Hv.
    2:{ exists k. split; [left|done]. }
    destruct (IH (dict_del k md)) as (k0 & Hk0 & Hpop); [by apply dict_del_wf| |].
    + intros [Hnd Hin]. apply Hno. split.
      * apply NoDup_cons. split; [|done]. intros Hk.
        apply Hin, dict_has_keys in Hk. unfold dict_has in Hk.
        apply bool_decide_eq_true in Hk. rewrite dict_get_del in Hk by done.
        rewrite decide_True in Hk by done. by destruct Hk.
      * intros k' [->|Hk']%elem_of_cons; [by eapply dict_get_Some_keys|].
        apply Hin, dict_has_keys in Hk'. unfold dict_has in Hk'.
        apply bool_decide_eq_true in Hk'. rewrite dict_get_del in Hk' by done.
        case_decide; [by destruct Hk'|].
        apply dict_has_keys. unfold dict_has. by apply bool_decide_eq_true.
    + exists k0. split; [by right|]. cbn. by rewrite Hpop.
Qed.

(** What [build_name] joins, for a configured order that may repeat
    keys the mapping lacks. *)
Lemma build_name_joins_found o md :
  NoDup (Carbon.found_mappings o md) → dict_wf md →
  Carbon.build_name o md
  = str_join "."
      (omap (λ k, dict_get k md) o
       ++ omap (λ k, dict_get k md)
            (sorted (elements (dom (dict_content md) ∖ list_to_set o : gset string)))).
Proof.
  intros Ho Hmd. unfold Carbon.build_name.
  destruct (pop_each_spec (Carbon.found_mappings o md) md)
    as (md' & -> & Hmd' & Hget); [done..| |].
  { intros k Hk. by apply found_mappings_elem in Hk as [_ ?]. }
  cbn.
  rewrite (mapM_ret _ (λ k, default PyNone (dict_get k md'))).
  2:{ intros k Hk. rewrite sorted_elem in Hk. unfold dict_item.
      by destruct (dict_keys_get k md' Hk) as [v ->]. }
  cbn. f_equal. f_equal.
  - unfold Carbon.found_mappings.
    rewrite (list_filter_iff _ (λ k, is_Some (dict_get k md))).
    + by rewrite omap_filter_is_Some.
    + intros k. unfold dict_has. by rewrite bool_decide_spec.
  - rewrite (remaining_keys_sorted o md md') by done.
    symmetry. apply omap_Some_fmap. intros k Hk. rewrite sorted_elem in Hk.
    apply elem_of_elements, elem_of_difference in Hk as [Hd Hno].
    apply elem_of_dom in Hd as [v Hv]. rewrite <-dict_get_content in Hv.
    rewrite Hget. rewrite decide_False.
    + by rewrite Hv.
    + intros [Hin _]%found_mappings_elem. apply Hno.
      by apply elem_of_list_to_set.
Qed.

(** The values joined are the values of the mapping. *)
Lemma joined_values_elem o md v :
  v ∈ omap (λ k, dict_get k md) o
      ++ omap (λ k, dict_get k md)
           (sorted (elements (dom (dict_content md) ∖ list_to_set o : gset string)))
  ↔ ∃ k, dict_get k md = Some v.
Proof.
  rewrite elem_of_app, !list_elem_of_omap. split.
  - intros [(k & _ & Hk)|(k & _ & Hk)]; eauto.
  - intros (k & Hk). destruct (decide (k ∈ o)) as [Hin|Hin]; [left; eauto|].
    right. exists k. split; [|done].
    rewrite sorted_elem, elem_of_elements, elem_of_difference, elem_of_dom,
      elem_of_list_to_set, <-dict_get_content. split; [by eexists|done].
Qed.

Lemma str_join_cases sep (l : list pyval) :
  if forallb is_str l then returns (str_join sep l)
  else str_join sep l = raise TypeError.
Proof.
  unfold str_join.
  assert (if forallb is_str l then returns (mapM as_str l)
          else mapM as_str l = raise TypeError) as Hm.
  { induction l as [|v l IH]; [by eexists|].
    cbn [forallb mapM]. destruct v as [|s|n]; cbn; try done.
    destruct (forallb is_str l).
    - destruct IH as [ss ->]. by eexists.
    - by rewrite IH. }
  destruct (forallb is_str l).
  - destruct Hm as [ss ->]. by eexists.
  - by rewrite Hm.
Qed.

Lemma all_str_spec md :
  dict_wf md → all_str md = true ↔ ∀ k v, dict_get k md = Some v → is_str v = true.
Proof.
  intros Hmd. unfold all_str. rewrite forallb_forall. split.
  - intros Hall k v Hg. apply dict_get_Some_elem, list_elem_of_In in Hg.
    exact (Hall (k, v) Hg).
  - intros Hall [k v] Hin. apply Hall with k.
    by apply dict_get_elem, list_elem_of_In.
Qed.

(** With a key of the mapping named twice, the second pop raises. *)
Lemma build_name_repeated o md :
  dict_wf md → ¬ NoDup (Carbon.found_mappings o md) →
  ∃ k, Carbon.build_name o md = raise (KeyError k) ∧ k ∈ o ∧ k ∈ dict_keys md.
Proof.
  intros Hmd Hnd.
  destruct (pop_each_raises (Carbon.found_mappings o md) md)
    as (k & Hk & Hpop); [done|by intros [? _]|].
  exists k. apply found_mappings_elem in Hk as [? ?].
  split_and!; [|done..]. unfold Carbon.build_name. by rewrite Hpop.
Qed.

(** With no such key, the join decides: it takes strings only. *)
Lemma build_name_joined o md :
  dict_wf md → NoDup (Carbon.found_mappings o md) →
  if all_str md then returns (Carbon.build_name o md)
  else Carbon.build_name o md = raise TypeError.
Proof.
  intros Hmd Hnd. rewrite build_name_joins_found by done.
  pose proof (str_join_cases "."
    (omap (λ k, dict_get k md) o
     ++ omap (λ k, dict_get k md)
          (sorted (elements (dom (dict_content md) ∖ list_to_set o : gset string)))))
    as Hj.
  destruct (all_str md) eqn:Hs, (forallb is_str _) eqn:Hf; try done; exfalso.
  - apply not_true_iff_false in Hf. apply Hf, forallb_forall.
    intros v Hv%list_elem_of_In%joined_values_elem. destruct Hv as [k Hk].
    rewrite all_str_spec in Hs by done. by apply (Hs k).
  - apply not_true_iff_false in Hs. apply Hs, all_str_spec; [done|].
    intros k v Hg. rewrite forallb_forall in Hf. apply Hf, list_elem_of_In.
    apply joined_values_elem. eauto.
Qed.

Lemma build_name_returns_iff o md :
  dict_wf md →
  returns (Carbon.build_name o md)
  ↔ NoDup (Carbon.found_mappings o md) ∧ all_str md = true.
Proof.
  intros Hmd. split.
  - intros [name Hn].
    destruct (decide (NoDup (Carbon.found_mappings o md))) as [Hnd|Hnd].
    + split; [done|]. pose proof (build_name_joined o md Hmd Hnd) as Hj.
      destruct (all_str md); [done|]. rewrite Hj in Hn. discriminate.
    + destruct (build_name_repeated o md Hmd Hnd) as (k & Hraise & _).
      rewrite Hraise in Hn. discriminate.
  - intros [Hnd Hs]. pose proof (build_name_joined o md Hmd Hnd) as Hj.
    by rewrite Hs in Hj.
Qed.
End CarbonErrors.

(** X1. For a metadata mapping with values of any kind, [build_name]
    raises [KeyError] when the configured order names twice a key that the
    mapping has, and the exception then names a key of the mapping;
    otherwise it raises [TypeError] when a value of the mapping is not a
    string, and returns a name when all of them are. Keys of the
    configured order that the mapping lacks play no part. *)
Theorem build_name_errors `{PyRuntime} (o : list string) (md : dict pyval) :
  dict_wf md →
  let found := Carbon.found_mappings o md in
  (¬ NoDup found →
   ∃ k, Carbon.build_name o md = raise (KeyError k) ∧ k ∈ o ∧ k ∈ dict_keys md)
  ∧ (NoDup found → all_str md = false → Carbon.build_name o md = raise TypeError)
  ∧ (NoDup found → all_str md = true → returns (Carbon.build_name o md)).
Proof.
  intros Hmd found. split_and!.
  - by apply build_name_repeated.
  - intros Hnd Hs. pose proof (build_name_joined o md Hmd Hnd) as Hj.
    by rewrite Hs in Hj.
  - intros Hnd Hs. pose proof (build_name_joined o md Hmd Hnd) as Hj.
    by rewrite Hs in Hj.
Qed.

Lemma build_name_errors_witness :
  (∃ k, @Carbon.build_name demo_runtime ["dc"; "host"; "dc"; "host"]
          [("host", PyStr "a1"); ("n", PyNum (NInt 1))]
        = raise (KeyError k)
        ∧ k ∈ ["dc"; "host"; "dc"; "host"] ∧ k ∈ ["host"; "n"])
  ∧ @Carbon.build_name demo_runtime ["dc"; "host"; "dc"]
      [("host", PyStr "a1"); ("n", PyNum (NInt 1))] = raise TypeError.
Proof.
  split.
  - refine (proj1 (@build_name_errors demo_runtime ["dc"; "host"; "dc"; "host"]
                     [("host", PyStr "a1"); ("n", PyNum (NInt 1))] _) _).
    + apply (bool_decide_unpack _). vm_compute. exact I.
    + apply (bool_decide_unpack _). vm_compute. exact I.
  - refine (proj1 (proj2 (@build_name_errors demo_runtime ["dc"; "host"; "dc"]
                     [("host", PyStr "a1"); ("n", PyNum (NInt 1))] _)) _ _).
    + apply (bool_decide_unpack _). vm_compute. exact I.
    + apply (bool_decide_unpack _). vm_compute. exact I.
    + reflexivity.
Defined.

(** ** The plaintext encoder: all the lines of a Sample, or none *)

Section CarbonAtomic.
Context `{PyRuntime}.
Implicit Types (md : dict pyval) (o ks : list string).

Lemma dict_has_set {V} k k' (v : V) (d : dict V) :
  dict_has k' (dict_set k v d) = bool_decide (k' = k) || dict_has k' d.
Proof.
  unfold dict_has. rewrite dict_get_set. case_decide as Hk.
  - rewrite (bool_decide_true (k' = k)) by done. by apply bool_decide_true.
  - by rewrite (bool_decide_false (k' = k)) by done.
Qed.

Lemma all_str_set k s s' md :
  all_str (dict_set k (PyStr s) md) = all_str (dict_set k (PyStr s') md).
Proof.
  unfold all_str. induction md as [|[k' v'] md IH]; [done|].
  cbn. case_decide; [done|]. cbn. by rewrite IH.
Qed.

(** Whether a name can be built does not depend on the field. *)
Lemma build_name_any_field o md k k' :
  dict_wf md →
  returns (Carbon.build_name o (dict_set "value" (PyStr k) md)) →
  returns (Carbon.build_name o (dict_set "value" (PyStr k') md)).
Proof.
  intros Hmd. rewrite !build_name_returns_iff by by apply dict_set_wf.
  rewrite (all_str_set _ k k').
  assert (Carbon.found_mappings o (dict_set "value" (PyStr k) md)
          = Carbon.found_mappings o (dict_set "value" (PyStr k') md)) as ->; [|done].
  unfold Carbon.found_mappings. apply list_filter_iff. intros x.
  by rewrite !dict_has_set.
Qed.

Lemma process_fields_returns o bucket fields ts md buffer :
  (∀ k, returns (Carbon.build_name o
                   (dict_set "value" (PyStr k)
                      (dict_set "bucket" (PyStr bucket) md)))) →
  ∃ lines, Carbon.process_fields o bucket fields ts md buffer
           = (buffer ++ lines, ret tt)
           ∧ length lines = length fields.
Proof.
  intros Hall. revert buffer.
  induction fields as [|[k v] fields IH]; intros buffer.
  - exists []. by rewrite app_nil_r.
  - cbn [Carbon.process_fields]. destruct (Hall k) as [name ->].
    destruct (IH (buffer ++ [name +:+ " " +:+ py_str v +:+ " "
                                  +:+ str_int (py_int ts) +:+ LF]))
      as (lines & -> & Hlen).
    eexists (_ :: lines). rewrite <-app_assoc. split; [done|]. cbn. by rewrite Hlen.
Qed.

Lemma process_fields_all_or_nothing o bucket fields ts md buffer :
  dict_wf md →
  (∃ lines, Carbon.process_fields o bucket fields ts md buffer
            = (buffer ++ lines, ret tt)
            ∧ length lines = length fields)
  ∨ (∃ e, Carbon.process_fields o bucket fields ts md buffer = (buffer, raise e)
          ∧ fields ≠ []).
Proof.
  intros Hmd. destruct fields as [|[k v] fields].
  { left. exists []. by rewrite app_nil_r. }
  destruct (Carbon.build_name o
              (dict_set "value" (PyStr k) (dict_set "bucket" (PyStr bucket) md)))
    as [e|name] eqn:Hn.
  - right. exists e. cbn [Carbon.process_fields]. by rewrite Hn.
  - left. apply process_fields_returns. intros k'.
    apply (build_name_any_field o _ k k'); [by apply dict_set_wf|]. by eexists.
Qed.

(** *** The name depends on the content of the mapping only *)

Lemma pop_each_content ks md1 md2 :
  dict_wf md1 → dict_wf md2 → dict_content md1 = dict_content md2 →
  match Carbon.pop_each ks md1, Carbon.pop_each ks md2 with
  | inl e1, inl e2 => e1 = e2
  | inr (vs1, m1), inr (vs2, m2) =>
      vs1 = vs2 ∧ dict_wf m1 ∧ dict_wf m2 ∧ dict_content m1 = dict_content m2
  | _, _ => False
  end.
Proof.
  revert md1 md2. induction ks as [|k ks IH]; intros md1 md2 H1 H2 Hc; [done|].
  cbn [Carbon.pop_each]. unfold dict_pop.
  rewrite !dict_get_content, Hc.
  destruct (dict_content md2 !! k) as [v|]; [|done]. cbn.
  assert (dict_content (dict_del k md1) = dict_content (dict_del k md2)) as Hc'
    by (by rewrite !dict_del_content, Hc).
  specialize (IH (dict_del k md1) (dict_del k md2)
                 (dict_del_wf k md1 H1) (dict_del_wf k md2 H2) Hc').
  destruct (Carbon.pop_each ks (dict_del k md1)) as [e1|[vs1 m1]],
    (Carbon.pop_each ks (dict_del k md2)) as [e2|[vs2 m2]]; cbn; try done.
  by destruct IH as (-> & ? & ? & ?).
Qed.

Lemma build_name_content o md1 md2 :
  dict_wf md1 → dict_wf md2 → dict_content md1 = dict_content md2 →
  Carbon.build_name o md1 = Carbon.build_name o md2.
Proof.
  intros H1 H2 Hc. unfold Carbon.build_name.
  assert (Carbon.found_mappings o md1 = Carbon.found_mappings o md2) as ->.
  { unfold Carbon.found_mappings. apply list_filter_iff. intros k.
    by rewrite (dict_has_content k md1 md2). }
  pose proof (pop_each_content (Carbon.found_mappings o md2) md1 md2 H1 H2 Hc) as Hp.
  destruct (Carbon.pop_each _ md1) as [e1|[vs1 m1]],
    (Carbon.pop_each _ md2) as [e2|[vs2 m2]]; try done; [by subst|].
  destruct Hp as (-> & Hm1 & Hm2 & Hmc). cbn.
  rewrite (sorted_perm _ (dict_keys m2)) by by apply dict_content_keys_perm.
  rewrite (mapM_ext (λ k, dict_item k m1) (λ k, dict_item k m2)); [done|].
  intros k _. unfold dict_item. by rewrite !dict_get_content, Hmc.
Qed.

End CarbonAtomic.

(** X2. [process_values] appends the lines of all the fields of a Sample
    or none of them: whether a name can be built depends on the metadata
    and the configured order, not on the field, so the call either
    returns with one line more for every field, or raises at the first
    field and leaves the Buffer as it was. With no field it returns and
    appends nothing, whatever the metadata holds. *)
Theorem process_values_all_or_nothing `{PyRuntime} (o : list string)
    (buffer : list string) (bucket : string) (values : dict pyval)
    (ts : pynum) (metadata : option (dict pyval)) :
  (∀ md, metadata = Some md → dict_wf md) →
  let r := Carbon.process_values o buffer bucket values ts metadata in
  ((∃ lines, r = (buffer ++ lines, ret tt) ∧ length lines = length values)
   ∨ (∃ e, r = (buffer, raise e) ∧ values ≠ []))
  ∧ (values = [] → r = (buffer, ret tt)).
Proof.
  intros Hmd r. subst r. unfold Carbon.process_values. split.
  - apply process_fields_all_or_nothing.
    destruct metadata as [md|]; [by apply Hmd|apply NoDup_nil_2].
  - by intros ->.
Qed.

Lemma process_values_all_or_nothing_witness :
  (∃ lines,
     @Carbon.process_values demo_runtime ["host"; "host"] ["pending"] "cpu"
       [("idle", PyNum (NInt 1)); ("user", PyNone)] (NInt 5)
       (Some [("dc", PyStr "d1")])
     = (["pending"] ++ lines, ret tt) ∧ length lines = 2%nat)
  ∨ (∃ e,
       @Carbon.process_values demo_runtime ["host"; "host"] ["pending"] "cpu"
         [("idle", PyNum (NInt 1)); ("user", PyNone)] (NInt 5)
         (Some [("dc", PyStr "d1")])
       = (["pending"], raise e)
       ∧ [("idle", PyNum (NInt 1)); ("user", @PyNone demo_runtime)] ≠ []).
Proof.
  refine (proj1 (@process_values_all_or_nothing demo_runtime ["host"; "host"]
                   ["pending"] "cpu" [("idle", PyNum (NInt 1)); ("user", PyNone)]
                   (NInt 5) (Some [("dc", PyStr "d1")]) _)).
  intros md [= <-]. apply (bool_decide_unpack _). vm_compute. exact I.
Defined.

(** X3. What [process_values] appends depends on the content of the
    metadata only, and not on what the metadata holds under [bucket] and
    [value]: these two keys are overwritten with the bucket of the Sample
    and the key of the field, for a call that raises as for one that
    returns. *)
Theorem metadata_bucket_value_overwritten `{PyRuntime} (o : list string)
    (buffer : list string) (bucket : string) (values : dict pyval)
    (ts : pynum) (md1 md2 : dict pyval) :
  dict_wf md1 → dict_wf md2 →
  delete "value" (delete "bucket" (dict_content md1))
  = delete "value" (delete "bucket" (dict_content md2)) →
  Carbon.process_values o buffer bucket values ts (Some md1)
  = Carbon.process_values o buffer bucket values ts (Some md2).
Proof.
  intros H1 H2 Hc.
  change (Carbon.process_fields o bucket values ts md1 buffer
          = Carbon.process_fields o bucket values ts md2 buffer).
  revert buffer.
  induction values as [|[k v] fields IH]; intros buffer; [done|].
  cbn [Carbon.process_fields].
  rewrite (build_name_content o
             (dict_set "value" (PyStr k) (dict_set "bucket" (PyStr bucket) md1))
             (dict_set "value" (PyStr k) (dict_set "bucket" (PyStr bucket) md2)));
    auto using dict_set_wf.
  - destruct (Carbon.build_name _ _); [done|]. apply IH.
  - rewrite !dict_set_content. apply map_eq. intros x.
    apply (f_equal (λ m : gmap string pyval, m !! x)) in Hc.
    destruct (decide (x = "value")) as [->|Hv]; [by rewrite !lookup_insert_eq|].
    rewrite !(lookup_insert_ne _ "value") by done.
    destruct (decide (x = "bucket")) as [->|Hb]; [by rewrite !lookup_insert_eq|].
    rewrite !(lookup_insert_ne _ "bucket") by done.
    by rewrite !lookup_delete_ne in Hc by done.
Qed.

Lemma metadata_bucket_value_overwritten_witness :
  @Carbon.process_values demo_runtime ["host"] [] "cpu"
    [("idle", PyNum (NInt 1))] (NInt 5)
    (Some [("value", PyNone); ("host", PyStr "a1"); ("bucket", PyStr "mem")])
  = @Carbon.process_values demo_runtime ["host"] [] "cpu"
      [("idle", PyNum (NInt 1))] (NInt 5) (Some [("host", PyStr "a1")]).
Proof.
  apply (@metadata_bucket_value_overwritten demo_runtime).
  - apply (bool_decide_unpack _). vm_compute. exact I.
  - apply (bool_decide_unpack _). vm_compute. exact I.
  - apply map_eq. intros k.
    destruct (decide (k = "value")) as [->|Hv]; [by rewrite !lookup_delete_eq|].
    rewrite !(lookup_delete_ne _ "value") by done.
    destruct (decide (k = "bucket")) as [->|Hb]; [by rewrite !lookup_delete_eq|].
    rewrite !(lookup_delete_ne _ "bucket") by done.
    rewrite <-!dict_get_content. cbn. repeat case_decide; congruence.
Defined.

(** ** The plaintext encoder: what goes on the wire *)

Section Wire.
Context `{PyRuntime}.

Lemma encode_append (a b : string) : encode (a +:+ b) = encode a ++ encode b.
Proof.
  induction a as [|c a IH]; [done|].
  rewrite append_cons. cbn [encode]. by rewrite IH, app_assoc.
Qed.

(** Encoding the joined fragments yields their encodings, in order. *)
Lemma encode_concat (l : list string) :
  encode (String.concat "" l) = flat_map encode l.
Proof.
  induction l as [|s l IH]; [done|].
  cbn [String.concat flat_map]. destruct l as [|s' l].
  - by rewrite app_nil_r.
  - change (s ++ "" ++ ?r)%string with (s +:+ "" +:+ r).
    by rewrite !encode_append, IH.
Qed.
End Wire.

(** X4. [push_buffer] makes a connection only when the client holds no
    socket, and then keeps the socket it got, also when sending raises;
    it sends at most once, and what it sends is the encodings of the
    fragments of the Buffer in their order. If the connection cannot be
    made nothing is sent and the client is left as it was. A second call
    sends on the socket the first one has left, without connecting. *)
Theorem push_buffer_protocol `{PyRuntime} (env env2 : Carbon.net_env)
    (st : PushClient.state) :
  let payload := flat_map encode (PushClient.buffer st) in
  (∀ s, PushClient.socket st = Some s →
        Carbon.push_buffer env st
        = (st, [Carbon.SendAll s payload], Carbon.on_sendall env))
  ∧ (∀ e, PushClient.socket st = None → Carbon.on_connect env = raise e →
          Carbon.push_buffer env st = (st, [Carbon.Connect], raise e))
  ∧ (∀ s, PushClient.socket st = None → Carbon.on_connect env = ret s →
          Carbon.push_buffer env st
          = ({| PushClient.socket := Some s;
                PushClient.buffer := PushClient.buffer st |},
             [Carbon.Connect; Carbon.SendAll s payload], Carbon.on_sendall env))
  ∧ (∀ s, PushClient.socket (Carbon.push_buffer env st).1.1 = Some s →
          Carbon.push_buffer env2 (Carbon.push_buffer env st).1.1
          = ((Carbon.push_buffer env st).1.1, [Carbon.SendAll s payload],
             Carbon.on_sendall env2)).
Proof.
  intros payload. subst payload. rewrite <-encode_concat.
  assert (∀ st0 s, PushClient.socket st0 = Some s →
            Carbon.push_buffer env2 st0
            = (st0, [Carbon.SendAll s (encode (String.concat "" (PushClient.buffer st0)))],
               Carbon.on_sendall env2)) as Hheld.
  { intros [sock buf] s. cbn. intros ->. done. }
  split_and!.
  - intros s Hs. destruct st as [sock buf]. cbn in *. by subst.
  - intros e Hs He. unfold Carbon.push_buffer, Carbon.current_socket.
    by rewrite Hs, He.
  - intros s Hs Hc. unfold Carbon.push_buffer, Carbon.current_socket.
    by rewrite Hs, Hc.
  - intros s Hs. rewrite (Hheld _ s Hs). by rewrite push_buffer_keeps.
Qed.

(** ** The bulk encoder: what the configuration makes of it *)

(** X5. Whatever the configuration gives as compression, the client
    ends up with [gzip], [deflate] or [identity], and with [gzip] or
    [deflate] only where the configuration says just that; any other
    value, [None] or a value that is no string included, makes the
    upload send the encoded fragments as they are, and name [identity]
    in the two encoding headers. *)
Theorem compression_normalised `{PyRuntime} (cfg : Elasticsearch.cfg)
    (defaults : dict pyval → dict pyval) (buf : list string)
    (env : Elasticsearch.http_env) (chunk : list string) :
  let c := Elasticsearch.init_cfg cfg defaults buf in
  Elasticsearch.compression c ∈ ["gzip"; "deflate"; "identity"]
  ∧ (∀ s, s = "gzip" ∨ s = "deflate" →
          Elasticsearch.compression c = s
          ↔ Elasticsearch.cfg_compression cfg = PyStr s)
  ∧ (Elasticsearch.cfg_compression cfg ≠ PyStr "gzip" →
     Elasticsearch.cfg_compression cfg ≠ PyStr "deflate" →
     ∃ rest,
       (Elasticsearch.push_chunk c env chunk).1
       = Elasticsearch.Request "POST" "/_bulk" (flat_map encode chunk)
           [("Content-Type", "application/x-ndjson");
            ("Content-Encoding", "identity"); ("Accept-Encoding", "identity")]
         :: rest).
Proof.
  intros c. subst c.
  assert (∀ s, s ≠ "gzip" → s ≠ "deflate" →
            bool_decide (s = "gzip") || bool_decide (s = "deflate") = false) as Hother.
  { intros s Hg Hd. by rewrite !bool_decide_false. }
  split_and!.
  - cbn. destruct (Elasticsearch.cfg_compression cfg) as [|s|n];
      try (right; right; left).
    destruct (bool_decide_reflect (s = "gzip")) as [->|Hg]; [left|].
    destruct (bool_decide_reflect (s = "deflate")) as [->|Hd]; [right; left|].
    right; right; left.
  - intros s Hs. cbn. destruct (Elasticsearch.cfg_compression cfg) as [|s'|n];
      try (split; [by destruct Hs as [-> | ->]|done]).
    destruct (bool_decide_reflect (s' = "gzip")) as [->|Hg];
      [cbn; split; congruence|].
    destruct (bool_decide_reflect (s' = "deflate")) as [->|Hd];
      [cbn; split; congruence|].
    cbn. split; [by destruct Hs as [-> | ->]|]. by intros [= ->]; destruct Hs.
  - intros Hg Hd.
    assert (Elasticsearch.compression (Elasticsearch.init_cfg cfg defaults buf)
            = "identity") as Hc.
    { cbn. destruct (Elasticsearch.cfg_compression cfg) as [|s|n]; try done.
      rewrite Hother; [done|congruence..]. }
    unfold Elasticsearch.push_chunk, Elasticsearch.bulk_upload. rewrite Hc.
    rewrite encode_concat.
    destruct (Elasticsearch.on_request env) as [e|[]]; [by eexists|].
    destruct (Elasticsearch.on_getresponse env) as [e|status]; [by eexists|].
    destruct (negb (status =? 200)); [by eexists|].
    destruct (Elasticsearch.on_read env); by eexists.
Qed.

(** X6. An index name that the configuration gives as a constant other
    than [None] names the index of every document: the bucket is put
    into the document, and the action line carries the constant. Where
    the constant is falsy, the empty string or zero, every Sample the
    client is given is dropped: the document gets its timestamp and its
    bucket, and nothing goes into the Buffer. *)
Theorem constant_index_name `{PyRuntime} (cfg : Elasticsearch.cfg)
    (defaults : dict pyval → dict pyval) (buf : list string) (v : pyval)
    (recv : pynum) (bucket : string) (values : dict pyval)
    (ts : option pynum) (metadata : dict pyval) (o : Elasticsearch.outcome) :
  Elasticsearch.cfg_index_name cfg = Elasticsearch.IndexValue v → v ≠ PyNone →
  let c := Elasticsearch.init_cfg cfg defaults buf in
  Elasticsearch.process_values c recv bucket values ts metadata = ret o →
  dict_get "bucket" (Elasticsearch.out_values o) = Some (PyStr bucket)
  ∧ is_Some (dict_get "timestamp" (Elasticsearch.out_values o))
  ∧ (truthy v = false → Elasticsearch.out_buffer o = buf)
  ∧ (truthy v = true →
     ∃ ty id doc,
       Elasticsearch.out_buffer o
       = buf ++ [Elasticsearch.action_line v ty id +:+ LF +:+ doc +:+ LF]).
Proof.
  intros Hcfg Hv c Ho.
  assert (Elasticsearch.index_name c = Some (λ _ _ _, v)) as Hidx.
  { subst c. cbn. rewrite Hcfg. by destruct v. }
  apply process_values_ret in Ho as (dt & _ & Hvals & _ & Hbuf).
  unfold Elasticsearch.resolve_index in Hvals, Hbuf. rewrite Hidx in Hvals, Hbuf.
  cbn [fst snd] in Hvals, Hbuf. split_and!.
  - rewrite Hvals, dict_get_set. by rewrite decide_True.
  - rewrite Hvals, !dict_get_set. rewrite decide_False by done.
    rewrite decide_True by done. by eexists.
  - intros Hf. by rewrite Hbuf, Hf.
  - intros Ht. rewrite Hbuf, Ht. by eexists _, _, _.
Qed.

Lemma constant_index_name_witness :
  ∃ o, @Elasticsearch.process_values demo_runtime
         (Elasticsearch.init_cfg
            {| Elasticsearch.cfg_index_name := Elasticsearch.IndexValue (PyStr "");
               Elasticsearch.cfg_type_name := PyNone;
               Elasticsearch.cfg_compression := PyNone |}
            (λ d, d) ["pending"])
         (NInt 1700000000) "cpu" [("idle", PyNum (NInt 3))] None [] = ret o
       ∧ dict_get "bucket" (Elasticsearch.out_values o) = Some (PyStr "cpu")
       ∧ Elasticsearch.out_buffer o = ["pending"].
Proof.
  eexists. split; [vm_compute; reflexivity|].
  pose proof (@constant_index_name demo_runtime
    {| Elasticsearch.cfg_index_name := Elasticsearch.IndexValue (PyStr "");
       Elasticsearch.cfg_type_name := PyNone;
       Elasticsearch.cfg_compression := PyNone |}
    (λ d, d) ["pending"] (PyStr "") (NInt 1700000000) "cpu"
    [("idle", PyNum (NInt 3))] None [] _ eq_refl ltac:(discriminate)
    ltac:(vm_compute; reflexivity)) as (Hb & _ & Hf & _).
  split; [exact Hb|exact (Hf eq_refl)].
Defined.

(** ** The bulk encoder: the timestamps it can encode *)

Section TimestampRange.
Context `{PyRuntime}.
Import Elasticsearch.

(** The year of an ordinal, without the month and the day *)
Lemma ord2ymd_year (ordinal : Z) :
  (ord2ymd ordinal).1.1
  = let n := ordinal - 1 in
    let n400 := n / 146097 in
    let n := n mod 146097 in
    let n100 := n / 36524 in
    let n := n mod 36524 in
    let n4 := n / 1461 in
    let n := n mod 1461 in
    let n1 := n / 365 in
    let year := n400 * 400 + 1 + n100 * 100 + n4 * 4 + n1 in
    if (n1 =? 4) || (n100 =? 4) then year - 1 else year.
Proof.
  unfold ord2ymd. cbv zeta. destruct (_ || _); [done|].
  by destruct (month_day _ _).
Qed.

(** The years 1 to 9999 are the ordinals 1 to 3652059. *)
Lemma ord2ymd_year_range (ordinal : Z) :
  1 ≤ (ord2ymd ordinal).1.1 ≤ 9999 ↔ 1 ≤ ordinal ≤ 3652059.
Proof.
  rewrite ord2ymd_year. cbv zeta.
  destruct (_ || _) eqn:Hb.
  - apply orb_true_iff in Hb. rewrite !Z.eqb_eq in Hb.
    Z.div_mod_to_equations. lia.
  - apply orb_false_iff in Hb. rewrite !Z.eqb_neq in Hb.
    Z.div_mod_to_equations. lia.
Qed.

Lemma utcfromtimestamp_range (t : pynum) :
  (-62135596800 ≤ (timeval t).1 < 253402300800 → returns (utcfromtimestamp t))
  ∧ (¬ -62135596800 ≤ (timeval t).1 < 253402300800 →
     utcfromtimestamp t = raise RangeError).
Proof.
  unfold utcfromtimestamp. destruct (timeval t) as [sec us]. cbn [fst].
  pose proof (ord2ymd_year_range (EPOCH_ORDINAL + sec / 86400)) as Hy.
  destruct (ord2ymd _) as [[y m] d]. cbn [fst] in Hy.
  assert (1 ≤ EPOCH_ORDINAL + sec / 86400 ≤ 3652059
          ↔ -62135596800 ≤ sec < 253402300800) as Hs.
  { unfold EPOCH_ORDINAL. Z.div_mod_to_equations. lia. }
  rewrite Hs in Hy.
  destruct ((1 <=? y) && (y <=? 9999)) eqn:Hb.
  - split; [intros _; by eexists|]. intros Hno. exfalso. apply Hno, Hy. lia.
  - split; [|done]. intros Hr. apply Hy in Hr. lia.
Qed.
End TimestampRange.

(** X7. [process_values] returns exactly for an effective timestamp from
    the first second of the year 1 to the last second of the year 9999,
    its seconds counted after the microseconds are rounded, and raises
    for any other. For a timestamp that is an int these seconds are the
    int itself: the call returns for -62135596800 to 253402300799 and
    for no other int. *)
Theorem timestamp_range `{PyRuntime} (c : Elasticsearch.client)
    (recv : pynum) (bucket : string) (values : dict pyval)
    (ts : option pynum) (metadata : dict pyval) :
  let t := Elasticsearch.effective_timestamp ts recv in
  let sec := (Elasticsearch.timeval t).1 in
  (returns (Elasticsearch.process_values c recv bucket values ts metadata)
   ↔ -62135596800 ≤ sec ≤ 253402300799)
  ∧ (¬ -62135596800 ≤ sec ≤ 253402300799 →
     Elasticsearch.process_values c recv bucket values ts metadata
     = raise RangeError)
  ∧ (∀ z, t = NInt z → sec = z).
Proof.
  intros t sec.
  destruct (utcfromtimestamp_range t) as [Hin Hout].
  assert (¬ -62135596800 ≤ sec ≤ 253402300799 →
          Elasticsearch.process_values c recv bucket values ts metadata
          = raise RangeError) as Hraise.
  { intros Hno. rewrite process_values_unfold. cbv zeta. fold t.
    rewrite Hout; [done|]. fold sec. lia. }
  split_and!; [|done|by intros z ->].
  split.
  - intros [o Ho]. destruct (decide (-62135596800 ≤ sec ≤ 253402300799)); [done|].
    rewrite Hraise in Ho by done. discriminate.
  - intros Hr. rewrite process_values_unfold. cbv zeta. fold t.
    destruct Hin as [dt ->]; [fold sec; lia|]. cbn [bind].
    destruct (truthy _); by eexists.
Qed.

(** ** The bulk encoder: the text of a timestamp tells its millisecond *)

Section DateInverse.
Context `{PyRuntime}.
Import Elasticsearch.

Lemma month_day_inverse (leap : bool) (n : Z) :
  0 ≤ n < 365 →
  days_before_month leap (month_day leap n).1 + (month_day leap n).2 = n + 1.
Proof.
  intros Hn.
  assert (forallb (λ k, month_day_inv true (Z.of_nat k)
                        && month_day_inv false (Z.of_nat k))
                  (seq 0 365) = true) as Hall by (vm_compute; reflexivity).
  rewrite forallb_forall in Hall.
  specialize (Hall (Z.to_nat n)). rewrite Z2Nat.id in Hall by lia.
  assert (month_day_inv leap n = true) as Hok.
  { destruct (andb_prop _ _ (Hall ltac:(apply in_seq; lia))); by destruct leap. }
  unfold month_day_inv in Hok. destruct (month_day leap n) as [m d]. cbn.
  lia.
Qed.

(** [ord2ymd] has an inverse: a date is the date of one ordinal. *)
Lemma ymd2ord_ord2ymd (ordinal : Z) : ymd2ord (ord2ymd ordinal) = ordinal.
Proof.
  unfold ord2ymd. cbv zeta.
  set (n0 := ordinal - 1).
  set (n400 := n0 / 146097). set (r1 := n0 mod 146097).
  set (n100 := r1 / 36524). set (r2 := r1 mod 36524).
  set (n4 := r2 / 1461). set (r3 := r2 mod 1461).
  set (n1 := r3 / 365). set (r4 := r3 mod 365).
  assert (n0 = 146097 * n400 + r1 ∧ 0 ≤ r1 < 146097) as [E1 B1]
    by (subst n400 r1; Z.div_mod_to_equations; lia).
  assert (r1 = 36524 * n100 + r2 ∧ 0 ≤ r2 < 36524) as [E2 B2]
    by (subst n100 r2; Z.div_mod_to_equations; lia).
  assert (r2 = 1461 * n4 + r3 ∧ 0 ≤ r3 < 1461) as [E3 B3]
    by (subst n4 r3; Z.div_mod_to_equations; lia).
  assert (r3 = 365 * n1 + r4 ∧ 0 ≤ r4 < 365) as [E4 B4]
    by (subst n1 r4; Z.div_mod_to_equations; lia).
  clearbody n400 r1 n100 r2 n4 r3 n1 r4.
  set (year := n400 * 400 + 1 + n100 * 100 + n4 * 4 + n1).
  destruct ((n1 =? 4) || (n100 =? 4)) eqn:Hb.
  - apply orb_true_iff in Hb. rewrite !Z.eqb_eq in Hb.
    unfold ymd2ord, days_before_year, days_before_month, is_leap. cbv zeta.
    assert ((year - 1) mod 4 = 0) as -> by (subst year; Z.div_mod_to_equations; lia).
    assert ((year - 1) mod 400 = 0 ∨ (year - 1) mod 100 ≠ 0) as Hl
      by (subst year; Z.div_mod_to_equations; lia).
    assert (negb ((year - 1) mod 100 =? 0) || ((year - 1) mod 400 =? 0) = true) as ->.
    { destruct Hl as [-> | Hl]; [apply orb_true_r|].
      apply Z.eqb_neq in Hl. by rewrite Hl. }
    change (table DAYS_BEFORE_MONTH 12) with 334.
    change (12 >? 2) with true. change (0 =? 0) with true. cbn [andb].
    subst year n0. Z.div_mod_to_equations. lia.
  - apply orb_false_iff in Hb. rewrite !Z.eqb_neq in Hb.
    pose proof (month_day_inverse
                  ((n1 =? 3) && (negb (n4 =? 24) || (n100 =? 3))) r4 B4) as Hmd.
    destruct (month_day _ r4) as [m d]. cbn [fst snd] in Hmd.
    unfold ymd2ord.
    assert (is_leap year = (n1 =? 3) && (negb (n4 =? 24) || (n100 =? 3))) as ->.
    { unfold is_leap.
      assert (year mod 4 = (n1 + 1) mod 4) as ->
        by (subst year; Z.div_mod_to_equations; lia).
      assert (year mod 100 = (4 * n4 + n1 + 1) mod 100) as ->
        by (subst year; Z.div_mod_to_equations; lia).
      assert (year mod 400 = (100 * n100 + 4 * n4 + n1 + 1) mod 400) as ->
        by (subst year; Z.div_mod_to_equations; lia).
      assert (0 ≤ n1 ≤ 3 ∧ 0 ≤ n4 ≤ 24 ∧ 0 ≤ n100 ≤ 3) as (Hn1 & Hn4 & Hn100)
        by lia.
      clear -Hn1 Hn4 Hn100.
      destruct (Z.eqb_spec n1 3) as [->|?], (Z.eqb_spec n4 24) as [->|?],
        (Z.eqb_spec n100 3) as [->|?]; cbn [andb orb negb];
        repeat match goal with
               | |- context [?a mod ?b =? 0] =>
                   destruct (Z.eqb_spec (a mod b) 0)
               end; cbn [andb orb negb]; try reflexivity;
        exfalso; Z.div_mod_to_equations; lia. }
    rewrite <-Z.add_assoc, Hmd. unfold days_before_year. cbv zeta.
    subst year n0. Z.div_mod_to_equations. lia.
Qed.

Lemma ord2ymd_inj (a b : Z) : ord2ymd a = ord2ymd b → a = b.
Proof.
  intros Hab. by rewrite <-(ymd2ord_ord2ymd a), <-(ymd2ord_ord2ymd b), Hab.
Qed.
End DateInverse.

(** *** Digits that tell a number *)

Lemma append_inj_length (a b s s' : string) :
  String.length a = String.length b → a +:+ s = b +:+ s' → a = b ∧ s = s'.
Proof.
  revert b. induction a as [|c a IH]; intros [|c' b]; try done.
  cbn [String.length]. intros [= Hlen]. rewrite !append_cons. intros [= -> Hs].
  destruct (IH b Hlen Hs) as [-> ->]. done.
Qed.

Lemma append_sep_inj (c : ascii) (s s' : string) :
  String c "" +:+ s = String c "" +:+ s' → s = s'.
Proof. by intros [= ?]. Qed.

Lemma digit_char_inj (a b : Z) :
  0 ≤ a < 10 → 0 ≤ b < 10 → digit_char a = digit_char b → a = b.
Proof.
  intros Ha Hb. each_digit a Ha; each_digit b Hb; vm_compute; congruence.
Qed.

Lemma dec_inj (w : nat) (a b : Z) :
  0 ≤ a < 10 ^ Z.of_nat w → 0 ≤ b < 10 ^ Z.of_nat w →
  dec w a = dec w b → a = b.
Proof.
  revert a b. induction w as [|w IH]; intros a b Ha Hb.
  - cbn in Ha, Hb. lia.
  - rewrite Nat2Z.inj_succ, Z.pow_succ_r in Ha, Hb by lia.
    cbn [dec]. intros Hd.
    apply append_inj_length in Hd as [Hq Hr]; [|by rewrite !length_dec].
    apply IH in Hq; [|Z.div_mod_to_equations; lia..].
    apply digit_char_inj in Hr; [|Z.div_mod_to_equations; lia..].
    Z.div_mod_to_equations. lia.
Qed.

Section StampInjective.
Context `{PyRuntime}.
Import Elasticsearch.

(** The years from 1000 on are the ordinals from 364878 on. *)
Lemma ord2ymd_four_digits (ordinal : Z) :
  1000 ≤ (ord2ymd ordinal).1.1 ↔ 364878 ≤ ordinal.
Proof.
  rewrite ord2ymd_year. cbv zeta.
  destruct (_ || _) eqn:Hb.
  - apply orb_true_iff in Hb. rewrite !Z.eqb_eq in Hb.
    Z.div_mod_to_equations. lia.
  - apply orb_false_iff in Hb. rewrite !Z.eqb_neq in Hb.
    Z.div_mod_to_equations. lia.
Qed.

(** The fields of the date and time of a timestamp *)
Lemma utcfromtimestamp_ret (t : pynum) (dt : datetime) :
  utcfromtimestamp t = ret dt →
  let sec := (timeval t).1 in
  ord2ymd (EPOCH_ORDINAL + sec / 86400) = (year dt, month dt, day dt)
  ∧ hour dt = sec mod 86400 / 3600
  ∧ minute dt = sec mod 86400 mod 3600 / 60
  ∧ second dt = sec mod 86400 mod 60
  ∧ microsecond dt = (timeval t).2.
Proof.
  unfold utcfromtimestamp. destruct (timeval t) as [sec us]. cbn [fst snd].
  destruct (ord2ymd _) as [[y m] d].
  destruct (_ && _); [|done]. by intros [= <-].
Qed.

(** The text of a timestamp of a year of four digits *)
Lemma stamp_text_four_digits (t : pynum) (dt : datetime) :
  utcfromtimestamp t = ret dt → 1000 ≤ year dt →
  drop_last 3 (strftime dt)
  = dec 4 (year dt) +:+ "-" +:+ dec 2 (month dt) +:+ "-" +:+ dec 2 (day dt)
    +:+ " " +:+ dec 2 (hour dt) +:+ ":" +:+ dec 2 (minute dt)
    +:+ ":" +:+ dec 2 (second dt) +:+ "." +:+ dec 3 (microsecond dt / 1000).
Proof.
  intros Hdt Hy. rewrite (stamp_text t) by done.
  apply utcfromtimestamp_fields in Hdt as (Hy' & _).
  by rewrite str_int_year by lia.
Qed.

Lemma stamp_inj (t1 t2 : pynum) (dt1 dt2 : datetime) :
  utcfromtimestamp t1 = ret dt1 → utcfromtimestamp t2 = ret dt2 →
  1000 ≤ year dt1 → 1000 ≤ year dt2 →
  drop_last 3 (strftime dt1) = drop_last 3 (strftime dt2)
  ↔ (timeval t1).1 = (timeval t2).1
    ∧ (timeval t1).2 / 1000 = (timeval t2).2 / 1000.
Proof.
  intros Hdt1 Hdt2 Hy1 Hy2.
  rewrite (stamp_text_four_digits t1), (stamp_text_four_digits t2) by done.
  pose proof (utcfromtimestamp_fields _ _ Hdt1)
    as (By1 & Bm1 & Bd1 & Bh1 & Bi1 & Bs1 & Bu1).
  pose proof (utcfromtimestamp_fields _ _ Hdt2)
    as (By2 & Bm2 & Bd2 & Bh2 & Bi2 & Bs2 & Bu2).
  pose proof (utcfromtimestamp_ret _ _ Hdt1) as (Ho1 & Hh1 & Hi1 & Hs1 & Hu1).
  pose proof (utcfromtimestamp_ret _ _ Hdt2) as (Ho2 & Hh2 & Hi2 & Hs2 & Hu2).
  cbv zeta in Ho1, Hh1, Hi1, Hs1, Ho2, Hh2, Hi2, Hs2.
  split.
  - intros Heq.
    apply append_inj_length in Heq as [Ey Heq]; [|by rewrite !length_dec].
    apply append_sep_inj in Heq.
    apply append_inj_length in Heq as [Em Heq]; [|by rewrite !length_dec].
    apply append_sep_inj in Heq.
    apply append_inj_length in Heq as [Ed Heq]; [|by rewrite !length_dec].
    apply append_sep_inj in Heq.
    apply append_inj_length in Heq as [Eh Heq]; [|by rewrite !length_dec].
    apply append_sep_inj in Heq.
    apply append_inj_length in Heq as [Ei Heq]; [|by rewrite !length_dec].
    apply append_sep_inj in Heq.
    apply append_inj_length in Heq as [Es Heq]; [|by rewrite !length_dec].
    apply append_sep_inj in Heq. rename Heq into Eu.
    apply dec_inj in Ey; [|cbn; lia..].
    apply dec_inj in Em; [|cbn; lia..].
    apply dec_inj in Ed; [|cbn; lia..].
    apply dec_inj in Eh; [|cbn; lia..].
    apply dec_inj in Ei; [|cbn; lia..].
    apply dec_inj in Es; [|cbn; lia..].
    apply dec_inj in Eu; [|cbn; Z.div_mod_to_equations; lia..].
    rewrite Hu1, Hu2 in Eu. split; [|done].
    assert (EPOCH_ORDINAL + (timeval t1).1 / 86400
            = EPOCH_ORDINAL + (timeval t2).1 / 86400) as Eo.
    { apply ord2ymd_inj. rewrite Ho1, Ho2. congruence. }
    rewrite Hh1, Hh2 in Eh. rewrite Hi1, Hi2 in Ei. rewrite Hs1, Hs2 in Es.
    revert Eo Eh Ei Es. generalize (timeval t1).1 (timeval t2).1. clear.
    intros a b. Z.div_mod_to_equations. lia.
  - intros [Es Eu].
    rewrite Es in Ho1, Hh1, Hi1, Hs1. rewrite Ho1 in Ho2. injection Ho2 as -> -> ->.
    rewrite Hh1, Hh2, Hi1, Hi2, Hs1, Hs2, Hu1, Hu2, Eu. done.
Qed.
End StampInjective.

(** X8. From the year 1000 on, which is from -30610224000 seconds on,
    the [timestamp] field of the document tells the millisecond of the
    effective timestamp and nothing finer: two Samples get the same text
    exactly when their effective timestamps have the same seconds and,
    after the rounding to microseconds, the same milliseconds. For
    timestamps that are ints the text is the same exactly when the ints
    are. *)
Theorem timestamp_text_tells_millisecond `{PyRuntime}
    (c1 c2 : Elasticsearch.client) (recv1 recv2 : pynum)
    (bucket1 bucket2 : string) (values1 values2 : dict pyval)
    (ts1 ts2 : option pynum) (metadata1 metadata2 : dict pyval)
    (o1 o2 : Elasticsearch.outcome) :
  let t1 := Elasticsearch.effective_timestamp ts1 recv1 in
  let t2 := Elasticsearch.effective_timestamp ts2 recv2 in
  Elasticsearch.process_values c1 recv1 bucket1 values1 ts1 metadata1 = ret o1 →
  Elasticsearch.process_values c2 recv2 bucket2 values2 ts2 metadata2 = ret o2 →
  -30610224000 ≤ (Elasticsearch.timeval t1).1 →
  -30610224000 ≤ (Elasticsearch.timeval t2).1 →
  (dict_get "timestamp" (Elasticsearch.out_values o1)
   = dict_get "timestamp" (Elasticsearch.out_values o2)
   ↔ (Elasticsearch.timeval t1).1 = (Elasticsearch.timeval t2).1
     ∧ (Elasticsearch.timeval t1).2 / 1000 = (Elasticsearch.timeval t2).2 / 1000)
  ∧ (∀ z1 z2, t1 = NInt z1 → t2 = NInt z2 →
       dict_get "timestamp" (Elasticsearch.out_values o1)
       = dict_get "timestamp" (Elasticsearch.out_values o2)
       ↔ z1 = z2).
Proof.
  intros t1 t2 Ho1 Ho2 Hs1 Hs2.
  apply process_values_ret in Ho1 as (dt1 & Hdt1 & Hv1 & _).
  apply process_values_ret in Ho2 as (dt2 & Hdt2 & Hv2 & _).
  fold t1 in Hdt1, Hv1. fold t2 in Hdt2, Hv2.
  assert (∀ t dt, Elasticsearch.utcfromtimestamp t = ret dt →
                  -30610224000 ≤ (Elasticsearch.timeval t).1 →
                  1000 ≤ Elasticsearch.year dt) as Hyear.
  { intros t dt Hdt Hs.
    pose proof (utcfromtimestamp_ret _ _ Hdt) as (Ho & _). cbv zeta in Ho.
    pose proof (ord2ymd_four_digits
                  (Elasticsearch.EPOCH_ORDINAL + (Elasticsearch.timeval t).1 / 86400))
      as Hy.
    rewrite Ho in Hy. cbn [fst] in Hy. apply Hy.
    unfold Elasticsearch.EPOCH_ORDINAL. Z.div_mod_to_equations. lia. }
  assert (dict_get "timestamp" (Elasticsearch.out_values o1)
          = dict_get "timestamp" (Elasticsearch.out_values o2)
          ↔ (Elasticsearch.timeval t1).1 = (Elasticsearch.timeval t2).1
            ∧ (Elasticsearch.timeval t1).2 / 1000
              = (Elasticsearch.timeval t2).2 / 1000) as Hiff.
  { rewrite Hv1, Hv2, !dict_get_resolved, !dict_get_set by done.
    rewrite !decide_True by done.
    rewrite <-(stamp_inj t1 t2 dt1 dt2) by eauto.
    split; [by intros [= ?]|by intros ->]. }
  split; [done|]. intros z1 z2 E1 E2. rewrite Hiff, E1, E2. cbn.
  split; [by intros [? _]|by intros ->].
Qed.

Lemma timestamp_text_tells_millisecond_witness :
  ∃ o1 o2,
    @Elasticsearch.process_values demo_runtime (plain_client []) (NInt 5) "cpu"
      [("idle", PyNum (NInt 1))] (Some (@NFloat demo_runtime F0_0009995)) []
    = ret o1
    ∧ @Elasticsearch.process_values demo_runtime (plain_client []) (NInt 5) "mem"
        [("free", PyNum (NInt 2))] (Some (@NFloat demo_runtime F0_0005)) []
      = ret o2
    ∧ dict_get "timestamp" (Elasticsearch.out_values o1)
      = Some (PyStr "1970-01-01 00:00:00.001")
    ∧ dict_get "timestamp" (Elasticsearch.out_values o2)
      = Some (PyStr "1970-01-01 00:00:00.000")
    ∧ (dict_get "timestamp" (Elasticsearch.out_values o1)
       = dict_get "timestamp" (Elasticsearch.out_values o2)
       ↔ (0 = 0 ∧ 1000 / 1000 = 500 / 1000)).
Proof.
  eexists _, _. split; [vm_compute; reflexivity|].
  split; [vm_compute; reflexivity|].
  split; [vm_compute; reflexivity|].
  split; [vm_compute; reflexivity|].
  refine (proj1 (@timestamp_text_tells_millisecond demo_runtime
                   (plain_client []) (plain_client []) (NInt 5) (NInt 5)
                   "cpu" "mem" [("idle", PyNum (NInt 1))]
                   [("free", PyNum (NInt 2))]
                   (Some (@NFloat demo_runtime F0_0009995))
                   (Some (@NFloat demo_runtime F0_0005)) [] [] _ _
                   _ _ _ _)).
  - vm_compute. reflexivity.
  - vm_compute. reflexivity.
  - vm_compute. discriminate.
  - vm_compute. discriminate.
Defined.

(** X9. The date and the time of day written into the [timestamp]
    field are those of the effective timestamp: counted back into days
    since 0001-01-01 and seconds of the day, the year, month, day, hour,
    minute and second of the text give the seconds of the effective
    timestamp, and the three digits after the point are its
    microseconds cut down to milliseconds, not rounded. The month is in
    1..12, the day in 1..31, the hour below 24, the minute and the second
    below 60: no leap second is ever written. *)
Theorem timestamp_fields_recompose `{PyRuntime} (c : Elasticsearch.client)
    (recv : pynum) (bucket : string) (values : dict pyval)
    (ts : option pynum) (metadata : dict pyval) (o : Elasticsearch.outcome) :
  Elasticsearch.process_values c recv bucket values ts metadata = ret o →
  let t := Elasticsearch.effective_timestamp ts recv in
  ∃ y m d hh mm ss us,
    dict_get "timestamp" (Elasticsearch.out_values o)
    = Some (PyStr (str_int y +:+ "-" +:+ dec 2 m +:+ "-" +:+ dec 2 d
                   +:+ " " +:+ dec 2 hh +:+ ":" +:+ dec 2 mm
                   +:+ ":" +:+ dec 2 ss +:+ "." +:+ dec 3 (us / 1000)))
    ∧ (ymd2ord (y, m, d) - Elasticsearch.EPOCH_ORDINAL) * 86400
      + hh * 3600 + mm * 60 + ss
      = (Elasticsearch.timeval t).1
    ∧ us = (Elasticsearch.timeval t).2
    ∧ 1 ≤ y ≤ 9999 ∧ 1 ≤ m ≤ 12 ∧ 1 ≤ d ≤ 31
    ∧ 0 ≤ hh < 24 ∧ 0 ≤ mm < 60 ∧ 0 ≤ ss < 60 ∧ 0 ≤ us < 1000000.
Proof.
  intros Ho t.
  apply process_values_ret in Ho as (dt & Hdt & Hv & _). fold t in Hdt, Hv.
  pose proof (utcfromtimestamp_fields _ _ Hdt)
    as (By & Bm & Bd & Bh & Bi & Bs & Bu).
  pose proof (utcfromtimestamp_ret _ _ Hdt) as (Hord & Hh & Hi & Hs & Hu).
  cbv zeta in Hord, Hh, Hi, Hs.
  exists (Elasticsearch.year dt), (Elasticsearch.month dt), (Elasticsearch.day dt),
    (Elasticsearch.hour dt), (Elasticsearch.minute dt), (Elasticsearch.second dt),
    (Elasticsearch.microsecond dt).
  split_and!; try lia; try done.
  - rewrite Hv, dict_get_resolved, dict_get_set by done.
    rewrite decide_True by done. by rewrite (stamp_text t).
  - rewrite <-Hord, ymd2ord_ord2ymd, Hh, Hi, Hs.
    generalize (Elasticsearch.timeval t).1. intros sec.
    Z.div_mod_to_equations. lia.
Qed.

Lemma timestamp_fields_recompose_witness :
  ∃ o y m d hh mm ss us,
    @Elasticsearch.process_values demo_runtime (plain_client []) (NInt 5) "cpu"
      [("idle", PyNum (NInt 1))]
      (Some (@NFloat demo_runtime F0_0009995)) [] = ret o
    ∧ dict_get "timestamp" (Elasticsearch.out_values o)
      = Some (PyStr "1970-01-01 00:00:00.001")
    ∧ dict_get "timestamp" (Elasticsearch.out_values o)
      = Some (PyStr (str_int y +:+ "-" +:+ dec 2 m +:+ "-" +:+ dec 2 d
                     +:+ " " +:+ dec 2 hh +:+ ":" +:+ dec 2 mm
                     +:+ ":" +:+ dec 2 ss +:+ "." +:+ dec 3 (us / 1000)))
    ∧ (ymd2ord (y, m, d) - Elasticsearch.EPOCH_ORDINAL) * 86400
      + hh * 3600 + mm * 60 + ss
      = 0
    ∧ us = 1000.
Proof.
  destruct (@timestamp_fields_recompose demo_runtime (plain_client []) (NInt 5)
              "cpu" [("idle", PyNum (NInt 1))]
              (Some (@NFloat demo_runtime F0_0009995)) [] _
              ltac:(vm_compute; reflexivity))
    as (y & m & d & hh & mm & ss & us & Htext & Hsec & Hus & _).
  eexists _, y, m, d, hh, mm, ss, us.
  split; [vm_compute; reflexivity|]. split; [vm_compute; reflexivity|].
  split; [exact Htext|]. split; [|rewrite Hus; vm_compute; reflexivity].
  rewrite Hsec. vm_compute. reflexivity.
Defined.

(** ** The supervisor: the main loop *)

Section LoopFacts.
Context {sample : Type}.
Variable process_join_timeout : Z.
Variable repr_children : list string → string.
Variable servers clients : list string.

Abbreviation action := (@Main.action sample).
Abbreviation shutdown :=
  (@Main.shutdown sample process_join_timeout repr_children servers clients).
Abbreviation stop_actions :=
  (@Main.stop_actions sample process_join_timeout servers clients).
Abbreviation iteration :=
  (@Main.iteration sample process_join_timeout repr_children servers clients).
Abbreviation forward :=
  (@Main.forward sample process_join_timeout repr_children servers clients).
Abbreviation check_servers :=
  (@Main.check_servers sample process_join_timeout repr_children servers clients).
Abbreviation loop :=
  (@Main.loop sample process_join_timeout repr_children servers clients).
Abbreviation run :=
  (@Main.run sample process_join_timeout repr_children servers clients).
Abbreviation sends_sample := (@Main.sends_sample sample).
Abbreviation starts :=
  ((Main.Start <$> servers) ++ (Main.Start <$> clients) : list action).

Lemma forward_alive t s :
  (∀ c, c ∈ clients → Main.alive t c = true) →
  forward t s = ((λ c, Main.Send c (Some s)) <$> clients, ret tt).
Proof.
  intros Hc. unfold Main.forward.
  rewrite (for_each_emits _ _ (λ x, [Main.Send x (Some s)])).
  - by rewrite flat_map_singleton.
  - intros x Hx. by rewrite Hc.
Qed.

(** Checking the collectors reaches one that is not alive, shuts down
    and raises. *)
Lemma check_servers_dead t pre srv post :
  servers = pre ++ srv :: post →
  (∀ x, x ∈ pre → Main.alive t x = true) → Main.alive t srv = false →
  check_servers t
  = (stop_actions (Main.active_children t),
     raise (BuckyError "Server thread died. Exiting.")).
Proof.
  intros Hsrv Hpre Hdead. unfold Main.check_servers.
  rewrite Hsrv at 1. rewrite for_each_app.
  rewrite (for_each_emits pre _ (λ _, [])).
  2:{ intros x Hx. by rewrite Hpre. }
  cbn [Main.for_each]. rewrite Hdead. cbn [negb].
  rewrite (shutdown_raises process_join_timeout repr_children servers clients)
    by done.
  rewrite !then_M_ret. cbn [fst snd]. f_equal.
  assert (∀ l : list string, flat_map (λ _ : string, @nil action) l = []) as ->
    by (intros l; by induction l).
  done.
Qed.

Lemma iteration_quiet t :
  quiet servers clients t →
  iteration t = (forwarded clients t, ret Main.Continue).
Proof.
  unfold quiet, forwarded, Main.iteration.
  destruct (Main.poll t) as [s| | | |]; try done.
  - intros [Hc Hs]. rewrite forward_alive by done.
    rewrite (check_servers_alive process_join_timeout repr_children servers clients)
      by done.
    cbn. by rewrite app_nil_r.
  - intros Hs.
    by rewrite (check_servers_alive process_join_timeout repr_children servers clients)
      by done.
Qed.

Lemma loop_quiet ticks :
  Forall (quiet servers clients) ticks →
  loop ticks = (flat_map (forwarded clients) ticks, ret None).
Proof.
  induction 1 as [|t ticks Ht Hticks IH]; [done|].
  cbn [Main.loop flat_map]. rewrite iteration_quiet by done.
  unfold Main.bind_M. by rewrite IH.
Qed.

Lemma run_unfold ticks :
  run ticks
  = let k :=
      Main.bind_M (loop ticks) (λ left,
        match left with
        | Some t =>
            Main.then_M (shutdown (Main.active_children t) "")
                        (Main.unit_M (Some tt))
        | None => Main.unit_M None
        end) in
    (starts ++ k.1, k.2).
Proof.
  unfold Main.run.
  rewrite !(for_each_emits _ _ (λ x, [Main.Start x])) by done.
  rewrite !flat_map_singleton, !then_M_ret. cbn [fst snd].
  by rewrite app_assoc.
Qed.

Lemma forwarded_sends (t : Main.tick) :
  Forall sends_sample (forwarded clients t).
Proof.
  unfold forwarded. destruct (Main.poll t); try apply Forall_nil_2.
  apply Forall_fmap, Forall_forall. intros c _. by eexists _, _.
Qed.

(** How an iteration ends: it forwards the Sample to some of the clients,
    in order, and goes on or leaves the loop; or it forwards, shuts down
    and raises. *)
Lemma iteration_shape t :
  ∃ fw, Forall sends_sample fw
        ∧ ((∃ c, iteration t = (fw, ret c))
           ∨ (∃ e, iteration t
                   = (fw ++ stop_actions (Main.active_children t), raise e))).
Proof.
  assert (∀ l s,
            ∃ fw, Forall sends_sample fw
                  ∧ (Main.for_each l (λ instance,
                       Main.then_M
                         (if negb (Main.alive t instance)
                          then shutdown (Main.active_children t)
                                 "Client process died. Exiting."
                          else Main.unit_M tt)
                         (Main.emit (Main.Send instance (Some s))))
                     = (fw, ret tt)
                     ∨ ∃ e, Main.for_each l (λ instance,
                              Main.then_M
                                (if negb (Main.alive t instance)
                                 then shutdown (Main.active_children t)
                                        "Client process died. Exiting."
                                 else Main.unit_M tt)
                                (Main.emit (Main.Send instance (Some s))))
                            = (fw ++ stop_actions (Main.active_children t), raise e)))
    as Hfw.
  { induction l as [|c l IH]; intros s.
    { exists []. split; [apply Forall_nil_2|by left]. }
    cbn [Main.for_each]. destruct (Main.alive t c); cbn [negb].
    - destruct (IH s) as (fw & Hs & [-> | [e ->]]).
      + exists (Main.Send c (Some s) :: fw). split; [|by left].
        apply Forall_cons. split; [by eexists _, _|done].
      + exists (Main.Send c (Some s) :: fw). split; [|right; by exists e].
        apply Forall_cons. split; [by eexists _, _|done].
    - rewrite (shutdown_raises process_join_timeout repr_children servers clients)
        by done.
      exists []. split; [apply Forall_nil_2|]. right. by eexists. }
  assert (check_servers t = ([], ret tt)
          ∨ ∃ e, check_servers t = (stop_actions (Main.active_children t), raise e))
    as Hcs.
  { unfold Main.check_servers.
    set (body := λ srv : string, if negb (Main.alive t srv) then _ else _).
    assert (∀ l, Main.for_each l body = ([], ret tt)
                 ∨ ∃ e, Main.for_each l body
                        = (stop_actions (Main.active_children t), raise e)) as Hl;
      [|apply Hl].
    induction l as [|srv l IH]; [by left|].
    cbn [Main.for_each]. subst body. cbn beta.
    destruct (Main.alive t srv); cbn [negb].
    - destruct IH as [-> | [e ->]]; [by left|right; by exists e].
    - rewrite (shutdown_raises process_join_timeout repr_children servers clients)
        by done.
      right. by eexists. }
  unfold Main.iteration. destruct (Main.poll t) as [s| | | |].
  - destruct (Hfw clients s) as (fw & Hs & Hf). exists fw. split; [done|].
    unfold Main.forward. destruct Hf as [-> | [e ->]]; [|right; by exists e].
    destruct Hcs as [-> | [e ->]].
    + left. exists Main.Continue. cbn. by rewrite app_nil_r.
    + right. by exists e.
  - exists []. split; [apply Forall_nil_2|]. left. by eexists.
  - exists []. split; [apply Forall_nil_2|].
    destruct Hcs as [-> | [e ->]]; [left; by eexists|right; by exists e].
  - exists []. split; [apply Forall_nil_2|]. left. by eexists.
  - exists []. split; [apply Forall_nil_2|]. left. by eexists.
Qed.

Lemma loop_shape ticks :
  ∃ fw, Forall sends_sample fw
        ∧ (loop ticks = (fw, ret None)
           ∨ (∃ t, t ∈ ticks ∧ loop ticks = (fw, ret (Some t)))
           ∨ (∃ t e, t ∈ ticks
                     ∧ loop ticks
                       = (fw ++ stop_actions (Main.active_children t), raise e))).
Proof.
  induction ticks as [|t ticks IH].
  { exists []. split; [apply Forall_nil_2|by left]. }
  cbn [Main.loop].
  destruct (iteration_shape t) as (fw & Hfw & [[c ->] | [e ->]]).
  - destruct c; unfold Main.bind_M.
    + destruct IH as (fw' & Hfw' & [-> | [(t' & Ht' & ->) | (t' & e & Ht' & ->)]]).
      * exists (fw ++ fw'). split; [by apply Forall_app|by left].
      * exists (fw ++ fw'). split; [by apply Forall_app|].
        right; left. exists t'. split; [by right|done].
      * exists (fw ++ fw'). split; [by apply Forall_app|].
        right; right. exists t', e. split; [by right|]. by rewrite <-app_assoc.
    + exists fw. split; [done|]. right; left. exists t. split; [left|].
      cbn. by rewrite app_nil_r.
  - exists fw. split; [done|]. right; right. exists t, e. split; [left|done].
Qed.

(** X10. While every process stays alive, the supervisor sends each
    Sample that the queue yields to every client, the clients in their
    order and the Samples in the order of their arrival, and does nothing
    else: after the processes are started it closes, joins and terminates
    nothing, and it does not leave the loop. *)
Theorem samples_reach_every_client (ticks : list Main.tick) :
  Forall (quiet servers clients) ticks →
  run ticks = (starts ++ flat_map (forwarded clients) ticks, ret None)
  ∧ ∀ t s c, t ∈ ticks → Main.poll t = Main.Got s → c ∈ clients →
             Main.Send c (Some s) ∈ (run ticks).1.
Proof.
  intros Hq.
  assert (run ticks = (starts ++ flat_map (forwarded clients) ticks, ret None))
    as Hrun.
  { rewrite run_unfold, loop_quiet by done. cbn. by rewrite app_nil_r. }
  split; [done|]. intros t s c Ht Hs Hc. rewrite Hrun. cbn [fst].
  apply elem_of_app. right. apply list_elem_of_In, in_flat_map.
  exists t. split; [by apply list_elem_of_In|]. apply list_elem_of_In.
  unfold forwarded. rewrite Hs. apply list_elem_of_fmap. by exists c.
Qed.

(** X11. An iteration whose wait on the queue timed out, or that got a
    Sample and found every client alive, looks at the collectors in
    order; at the first one that is not alive it shuts down and raises,
    after the Sample, if there was one, has gone to every client. The
    main loop ends there, whatever the queue would have yielded later. An
    iteration whose wait was interrupted does not look at the collectors,
    and the loop goes on. *)
Theorem dead_server_shuts_down (before after : list Main.tick) (t : Main.tick)
    (pre post : list string) (srv : string) (tr0 : list action) :
  loop before = (tr0, ret None) →
  Main.poll t = Main.Empty
  ∨ (∃ s, Main.poll t = Main.Got s) ∧ (∀ c, c ∈ clients → Main.alive t c = true) →
  servers = pre ++ srv :: post →
  (∀ x, x ∈ pre → Main.alive t x = true) → Main.alive t srv = false →
  run (before ++ t :: after)
  = (starts ++ tr0 ++ forwarded clients t ++ stop_actions (Main.active_children t),
     raise (BuckyError "Server thread died. Exiting."))
  ∧ ∀ t', Main.poll t' = Main.IOError → iteration t' = ([], ret Main.Continue).
Proof.
  intros Hbefore Hpoll Hsrv Hpre Hdead.
  split; [|by intros t' Hp; unfold Main.iteration; rewrite Hp].
  assert (iteration t
          = (forwarded clients t ++ stop_actions (Main.active_children t),
             raise (BuckyError "Server thread died. Exiting."))) as Hit.
  { unfold Main.iteration, forwarded.
    destruct Hpoll as [-> | [[s ->] Hc]].
    - by rewrite (check_servers_dead t pre srv post).
    - rewrite forward_alive by done.
      by rewrite (check_servers_dead t pre srv post). }
  rewrite run_unfold. cbv zeta.
  rewrite (loop_app process_join_timeout repr_children servers clients
             before (t :: after) tr0) by done.
  cbn [Main.loop]. rewrite Hit. done.
Qed.

(** X12. When the queue yields the sentinel, or the wait is interrupted
    from the keyboard, the main loop is left and the supervisor shuts
    down with no error of its own: every collector is closed, every
    client is sent the sentinel, and [run] returns if no child but a
    [SyncManager] is still active, and raises otherwise, naming the
    children it had to terminate. What the queue holds after the
    sentinel is not looked at. *)
Theorem sentinel_stops_run (before after : list Main.tick) (t : Main.tick)
    (tr0 : list action) :
  loop before = (tr0, ret None) →
  Main.poll t = Main.GotNone ∨ Main.poll t = Main.KeyboardInterrupt →
  let children :=
    filter (λ child, negb (String.prefix "SyncManager" child))
           (Main.active_children t) in
  run (before ++ t :: after)
  = (starts ++ tr0 ++ stop_actions (Main.active_children t),
     if bool_decide (children = []) then ret (Some tt)
     else raise (BuckyError ("Not all children died gracefully: "
                             +:+ repr_children children))).
Proof.
  intros Hbefore Hpoll children.
  assert (iteration t = ([], ret Main.Break)) as Hit.
  { unfold Main.iteration. by destruct Hpoll as [-> | ->]. }
  rewrite run_unfold. cbv zeta.
  rewrite (loop_app process_join_timeout repr_children servers clients
             before (t :: after) tr0) by done.
  cbn [Main.loop]. rewrite Hit. cbn [Main.bind_M Main.unit_M fst snd ret].
  rewrite app_nil_r.
  rewrite (shutdown_unfold process_join_timeout repr_children servers clients).
  cbv zeta. fold children. rewrite (bool_decide_true ("" = "")) by done.
  rewrite andb_true_r. destruct (bool_decide (children = [])); cbn.
  - by rewrite app_nil_r.
  - done.
Qed.

(** X13. Whatever the queue yields and whichever processes die, what
    [run] does has one shape: it starts every collector and every
    client, then forwards Samples, then, if it leaves the loop at all,
    goes through the shutdown once, after which it does nothing more. It
    does not return or raise without the shutdown, and no Sample is
    forwarded once the shutdown has begun. *)
Theorem run_trace_shape (ticks : list Main.tick) :
  ∃ fw stop,
    (run ticks).1 = starts ++ fw ++ stop
    ∧ Forall sends_sample fw
    ∧ ((run ticks).2 = ret None ∧ stop = []
       ∨ (run ticks).2 ≠ ret None
         ∧ ∃ t, t ∈ ticks ∧ stop = stop_actions (Main.active_children t)).
Proof.
  rewrite run_unfold. cbv zeta. cbn [fst snd].
  destruct (loop_shape ticks)
    as (fw & Hfw & [-> | [(t & Ht & ->) | (t & e & Ht & ->)]]).
  - exists fw, []. cbn. rewrite app_nil_r. split_and!; [done..|by left].
  - exists fw, (stop_actions (Main.active_children t)).
    cbn [Main.bind_M ret].
    rewrite (shutdown_unfold process_join_timeout repr_children servers clients).
    cbv zeta. destruct (_ && _); cbn; rewrite ?app_nil_r;
      (split_and!; [done..|right; split; [done|by exists t]]).
  - exists fw, (stop_actions (Main.active_children t)). cbn.
    split_and!; [done..|right; split; [done|by exists t]].
Qed.
End LoopFacts.

Lemma samples_reach_every_client_witness :
  let got (n : nat) : Main.tick :=
    {| Main.poll := Main.Got n; Main.alive := λ _, true;
       Main.active_children := [] |} in
  let idle : Main.tick (sample := nat) :=
    {| Main.poll := Main.Empty; Main.alive := λ _, true;
       Main.active_children := [] |} in
  Main.run 5 (λ _, "") ["statsd"] ["carbon"; "influxdb"]
    [got 1%nat; idle; got 2%nat]
  = ([Main.Start "statsd"; Main.Start "carbon"; Main.Start "influxdb";
      Main.Send "carbon" (Some 1%nat); Main.Send "influxdb" (Some 1%nat);
      Main.Send "carbon" (Some 2%nat); Main.Send "influxdb" (Some 2%nat)],
     ret None).
Proof.
  intros got idle.
  refine (proj1 (@samples_reach_every_client nat 5 (λ _, "") ["statsd"]
                   ["carbon"; "influxdb"] [got 1%nat; idle; got 2%nat] _)).
  repeat (apply Forall_cons; split; [by cbn|]). apply Forall_nil_2.
Defined.

Lemma dead_server_shuts_down_witness :
  let idle : Main.tick (sample := nat) :=
    {| Main.poll := Main.Empty; Main.alive := λ _, true;
       Main.active_children := [] |} in
  let down : Main.tick :=
    {| Main.poll := Main.Got 7%nat;
       Main.alive := λ p, negb (bool_decide (p = "system_stats"));
       Main.active_children := ["carbon"] |} in
  Main.run 5 (λ _, "") ["statsd"; "system_stats"] ["carbon"] ([idle] ++ down :: [idle])
  = ([Main.Start "statsd"; Main.Start "system_stats"; Main.Start "carbon";
      Main.Send "carbon" (Some 7%nat);
      Main.Close "statsd"; Main.Join "statsd" 5;
      Main.Close "system_stats"; Main.Join "system_stats" 5;
      Main.Send "carbon" None; Main.Join "carbon" 5;
      Main.Terminate "carbon"; Main.Join "carbon" 1],
     raise (BuckyError "Server thread died. Exiting.")).
Proof.
  intros idle down.
  refine (proj1 (@dead_server_shuts_down nat 5 (λ _, "") ["statsd"; "system_stats"]
                   ["carbon"] [idle] [idle] down ["statsd"] [] "system_stats" []
                   _ _ _ _ _)).
  - reflexivity.
  - right. split; [by exists 7%nat|]. intros c Hc.
    apply list_elem_of_singleton in Hc as ->. reflexivity.
  - reflexivity.
  - intros x Hx. apply list_elem_of_singleton in Hx as ->. reflexivity.
  - reflexivity.
Defined.

Lemma sentinel_stops_run_witness :
  let got : Main.tick :=
    {| Main.poll := Main.Got 1%nat; Main.alive := λ _, true;
       Main.active_children := [] |} in
  let term : Main.tick (sample := nat) :=
    {| Main.poll := Main.GotNone; Main.alive := λ _, true;
       Main.active_children := ["SyncManager-1"] |} in
  Main.run 5 (λ _, "") ["statsd"] ["carbon"] ([got] ++ term :: [got])
  = ([Main.Start "statsd"; Main.Start "carbon"; Main.Send "carbon" (Some 1%nat);
      Main.Close "statsd"; Main.Join "statsd" 5;
      Main.Send "carbon" None; Main.Join "carbon" 5],
     ret (Some tt)).
Proof.
  intros got term.
  refine (@sentinel_stops_run nat 5 (λ _, "") ["statsd"] ["carbon"]
            [got] [got] term [Main.Send "carbon" (Some 1%nat)] _ _).
  - reflexivity.
  - by left.
Defined.

(** ** The supervisor: the metadata of the command line *)

Lemma split_unfold (sep : ascii) (s : string) :
  Main.split sep s
  = before sep s :: (if has_char sep s then Main.split sep (after sep s) else []).
Proof.
  induction s as [|c s IH]; [done|].
  cbn [Main.split before has_char after].
  destruct (bool_decide (c = sep)); [done|]. cbn [orb]. by rewrite IH.
Qed.

Lemma split_length (sep : ascii) (s : string) :
  (1 <? length (Main.split sep s))%nat = has_char sep s.
Proof.
  rewrite split_unfold. destruct (has_char sep s); [|done].
  by rewrite (split_unfold sep (after sep s)).
Qed.

Lemma split_part_0 (sep : ascii) (s : string) :
  Main.part 0 (Main.split sep s) = before sep s.
Proof. by rewrite split_unfold. Qed.

Lemma split_part_1 (sep : ascii) (s : string) :
  has_char sep s = true →
  Main.part 1 (Main.split sep s) = before sep (after sep s).
Proof.
  intros Hs. rewrite split_unfold, Hs. unfold Main.part. cbn [nth].
  by rewrite split_unfold.
Qed.

Lemma before_free (sep : ascii) (s : string) :
  has_char sep s = false → before sep s = s.
Proof.
  induction s as [|c s IH]; [done|].
  cbn. destruct (bool_decide (c = sep)); [done|]. cbn. intros Hs. by rewrite IH.
Qed.

Lemma has_char_before (sep : ascii) (s : string) :
  has_char sep (before sep s) = false.
Proof.
  induction s as [|c s IH]; [done|].
  cbn. destruct (bool_decide (c = sep)) eqn:Hc; [done|]. cbn. by rewrite Hc.
Qed.

(** A key, a separator and a value, put together and taken apart *)
Lemma has_char_joined (sep : ascii) (k v : string) :
  has_char sep (k +:+ String sep v) = true.
Proof.
  induction k as [|c k IH].
  - change ("" +:+ String sep v) with (String sep v). cbn [has_char].
    by rewrite bool_decide_true.
  - rewrite append_cons. cbn [has_char]. rewrite IH. apply orb_true_r.
Qed.

Lemma before_joined (sep : ascii) (k v : string) :
  has_char sep k = false → before sep (k +:+ String sep v) = k.
Proof.
  induction k as [|c k IH].
  - intros _. change ("" +:+ String sep v) with (String sep v). cbn [before].
    by rewrite bool_decide_true.
  - rewrite append_cons. cbn [before has_char].
    destruct (bool_decide (c = sep)); [done|].
    cbn [orb]. intros Hk. by rewrite IH.
Qed.

Lemma after_joined (sep : ascii) (k v : string) :
  has_char sep k = false → after sep (k +:+ String sep v) = v.
Proof.
  induction k as [|c k IH].
  - intros _. change ("" +:+ String sep v) with (String sep v). cbn [after].
    by rewrite bool_decide_true.
  - rewrite append_cons. cbn [after has_char].
    destruct (bool_decide (c = sep)); [done|].
    cbn [orb]. apply IH.
Qed.

Lemma has_char_append (sep : ascii) (a b : string) :
  has_char sep (a +:+ b) = has_char sep a || has_char sep b.
Proof.
  induction a as [|c a IH]; [done|].
  rewrite append_cons. cbn. by rewrite IH, orb_assoc.
Qed.

(** What one item adds, by its first separator. *)
Lemma add_metadata_unfold (md : dict (option string)) (i : string) :
  Main.add_metadata md i
  = if has_char "=" i
    then dict_set (before "=" i) (Some (before "=" (after "=" i))) md
    else if has_char ":" i
         then dict_set (before ":" i) (Some (before ":" (after ":" i))) md
         else dict_set i None md.
Proof.
  unfold Main.add_metadata. cbv zeta. rewrite !split_length, !split_part_0.
  destruct (has_char "=" i) eqn:He; [by rewrite split_part_1|].
  destruct (has_char ":" i) eqn:Hc; [by rewrite split_part_1|].
  by rewrite before_free.
Qed.

(** X14. An item of [--metadata] is read by its first separator: with
    an [=] in it, the key is what comes before the first [=] and the
    value what comes between the first [=] and the second, or the end;
    with no [=] but a [:] in it, the same with [:]; with neither, the
    item is the key and the value is [None]. So [=] wins over [:], a key
    never holds the separator it was cut at, and what follows a second
    separator is dropped. *)
Theorem metadata_item_by_first_separator (md : dict (option string))
    (i : string) :
  Main.add_metadata md i
  = (if has_char "=" i
     then dict_set (before "=" i) (Some (before "=" (after "=" i))) md
     else if has_char ":" i
          then dict_set (before ":" i) (Some (before ":" (after ":" i))) md
          else dict_set i None md)
  ∧ has_char "=" (before "=" i) = false
  ∧ has_char ":" (before ":" i) = false
  ∧ (∀ k v w, has_char "=" k = false → has_char "=" v = false →
       Main.add_metadata md (k +:+ "=" +:+ v +:+ "=" +:+ w)
       = dict_set k (Some v) md).
Proof.
  split_and!; [apply add_metadata_unfold|apply has_char_before..|].
  intros k v w Hk Hv. rewrite add_metadata_unfold.
  change (k +:+ "=" +:+ v +:+ "=" +:+ w)
    with (k +:+ String "=" (v +:+ String "=" w)).
  by rewrite has_char_joined, before_joined, after_joined, before_joined.
Qed.

Section MetadataFacts.
Implicit Types (md : dict (option string)) (items : list string).

Lemma add_metadata_joined md (kv : string * string) :
  has_char "=" kv.1 = false → has_char "=" kv.2 = false →
  Main.add_metadata md (joined kv) = dict_set kv.1 (Some kv.2) md.
Proof.
  intros Hk Hv. rewrite add_metadata_unfold. unfold joined.
  change (kv.1 +:+ "=" +:+ kv.2) with (kv.1 +:+ String "=" kv.2).
  by rewrite has_char_joined, before_joined, after_joined, before_free.
Qed.

Lemma parse_metadata_fold (items : list string) :
  Main.parse_metadata (Some items) = fold_left Main.add_metadata items [].
Proof. destruct items; reflexivity. Qed.

Lemma fold_add_joined md (kvs : list (string * string)) :
  Forall (λ kv, has_char "=" kv.1 = false ∧ has_char "=" kv.2 = false) kvs →
  fold_left Main.add_metadata (joined <$> kvs) md
  = fold_left (λ d kv, dict_set kv.1 (Some kv.2) d) kvs md.
Proof.
  intros Hkvs. revert md. induction Hkvs as [|kv kvs [Hk Hv] _ IH]; intros md; [done|].
  cbn [fmap list_fmap fold_left]. rewrite add_metadata_joined by done. apply IH.
Qed.

Lemma fold_dict_set_wf {V} (kvs : list (string * V)) (d : dict V) :
  dict_wf d → dict_wf (fold_left (λ d kv, dict_set kv.1 kv.2 d) kvs d).
Proof.
  revert d. induction kvs as [|kv kvs IH]; intros d Hd; [done|].
  cbn. by apply IH, dict_set_wf.
Qed.

Lemma fold_dict_set_content {V} (kvs : list (string * V)) (d : dict V) :
  dict_content (fold_left (λ d kv, dict_set kv.1 kv.2 d) kvs d)
  = list_to_map (reverse kvs) ∪ dict_content d.
Proof.
  revert d. induction kvs as [|[k v] kvs IH]; intros d.
  - cbn. by rewrite (left_id_L ∅ (∪)).
  - cbn [fold_left]. rewrite IH, dict_set_content, reverse_cons.
    rewrite list_to_map_app. cbn [list_to_map foldr fst snd]. cbn.
    rewrite <-(assoc_L (∪)). f_equal.
    by rewrite <-insert_union_l, (left_id_L ∅ (∪)).
Qed.

Lemma dict_set_length {V} k (v : V) (d : dict V) :
  (length (dict_set k v d) ≤ S (length d))%nat.
Proof.
  induction d as [|[k' v'] d IH]; cbn; [lia|]. case_decide; cbn; lia.
Qed.

Lemma has_char_before_other (a sep : ascii) (s : string) :
  has_char a s = false → has_char a (before sep s) = false.
Proof.
  induction s as [|c s IH]; [done|].
  cbn. intros [Hc Hs]%orb_false_iff. destruct (bool_decide (c = sep)); [done|].
  cbn. by rewrite Hc, IH.
Qed.

Lemma add_metadata_ok items md i :
  metadata_ok items md → metadata_ok (items ++ [i]) (Main.add_metadata md i).
Proof.
  intros (Hwf & Hlen & Hkeys).
  assert (∀ k v,
            has_char "=" k = false →
            (k = before "=" i ∨ k = before ":" i) →
            (v = None → i = k ∧ has_char ":" k = false) →
            metadata_ok (items ++ [i]) (dict_set k v md)) as Hset.
  { intros k v Hk Hcut Hnone. split_and!.
    - by apply dict_set_wf.
    - rewrite length_app. pose proof (dict_set_length k v md). cbn. lia.
    - intros k' v'. rewrite dict_get_set. case_decide as Hkk.
      + intros [= <-]. subst k'. split; [done|]. exists i.
        split; [apply elem_of_app; right; left|done].
      + intros Hg. destruct (Hkeys k' v' Hg) as (? & i' & ? & ? & ?).
        split; [done|]. exists i'. split; [apply elem_of_app; by left|done]. }
  rewrite add_metadata_unfold.
  destruct (has_char "=" i) eqn:He; [|destruct (has_char ":" i) eqn:Hc].
  - apply Hset; [apply has_char_before|by left|done].
  - apply Hset; [by apply has_char_before_other|by right|done].
  - apply Hset; [done|left; by rewrite before_free|done].
Qed.

Lemma fold_add_metadata_ok items md more :
  metadata_ok items md →
  metadata_ok (items ++ more) (fold_left Main.add_metadata more md).
Proof.
  revert items md. induction more as [|i more IH]; intros items md Hok.
  - by rewrite app_nil_r.
  - cbn [fold_left].
    replace (items ++ i :: more) with ((items ++ [i]) ++ more)
      by (by rewrite <-app_assoc).
    by apply IH, add_metadata_ok.
Qed.
End MetadataFacts.

(** X15. Items of the form [key=value], with no [=] in the key nor in
    the value, are read back as they were put together: the metadata
    maps each key to its value, the value of the last item for a key
    that is given more than once, and holds each key once, at the place
    of its first item. With no item, or without the option, the metadata
    is empty. *)
Theorem metadata_roundtrip (kvs : list (string * string)) :
  Forall (λ kv, has_char "=" kv.1 = false ∧ has_char "=" kv.2 = false) kvs →
  let md := Main.parse_metadata (Some (joined <$> kvs)) in
  md = fold_left (λ d kv, dict_set kv.1 (Some kv.2) d) kvs []
  ∧ dict_wf md
  ∧ dict_content md = list_to_map (reverse (prod_map id Some <$> kvs))
  ∧ Main.parse_metadata None = []
  ∧ Main.parse_metadata (Some []) = [].
Proof.
  intros Hkvs md. subst md. rewrite parse_metadata_fold, fold_add_joined by done.
  assert (fold_left (λ d kv, dict_set kv.1 (Some kv.2) d) kvs []
          = fold_left (λ (d : dict (option string)) kv, dict_set kv.1 kv.2 d)
              (prod_map id Some <$> kvs) []) as Hfold.
  { generalize (@nil (string * option string)).
    clear. induction kvs as [|[k v] kvs IH]; intros d; [done|]. cbn. apply IH. }
  split_and!; [done| | |done..].
  - rewrite Hfold. apply fold_dict_set_wf, NoDup_nil_2.
  - rewrite Hfold, fold_dict_set_content. apply (right_id_L ∅ (∪)).
Qed.

Lemma metadata_roundtrip_witness :
  Main.parse_metadata (Some ["host=a1"; "dc=d1"; "host=b2"])
  = [("host", Some "b2"); ("dc", Some "d1")].
Proof.
  refine (proj1 (metadata_roundtrip [("host", "a1"); ("dc", "d1"); ("host", "b2")] _)).
  repeat (apply Forall_cons; split; [by split|]). apply Forall_nil_2.
Defined.

(** X16. Whatever the items are, the metadata read from them holds no
    key twice and no more keys than there are items; no key holds an
    [=]; every key was cut from an item at its first [=] or [:]; and a
    value is [None] only under a key that is itself an item, one with
    neither [=] nor [:] in it. *)
Theorem metadata_invariant (cfg_metadata : option (list string)) :
  metadata_ok (default [] cfg_metadata) (Main.parse_metadata cfg_metadata).
Proof.
  assert (metadata_ok [] []) as Hnil.
  { split_and!; [apply NoDup_nil_2|done|done]. }
  destruct cfg_metadata as [items|]; [|done].
  rewrite parse_metadata_fold. cbn [default].
  exact (fold_add_metadata_ok [] [] items Hnil).
Qed.
